(** * make_slow_change_stimuli.py: a shallow embedding and its properties

    The script turns sets of still images (one per combination of a colour
    and of N two-valued features) into a frame sequence: a slow colour morph
    over [number_of_morph_steps + 1] frames in which each feature flips
    during a short window around a randomly drawn onset frame.

    Conventions of the embedding:
    - Python [int] is [Z]; Python [float] is modelled by the rational it
      stands for ([Q], exact arithmetic: binary64 rounding is not modelled);
    - [str] is [string]; a directory is a finite map from file names to
      decoded rasters, except the input directory, kept as an association
      list in [os.listdir] order;
    - the script's effects (scratch directories, README, console, random
      generator) are threaded through a state-and-exception monad; an
      uncaught Python exception keeps the effects performed before it;
    - numpy's generator, the iteration order of a Python [set], the JPEG
      codec, PIL's resampling and the ffmpeg process are external: they are
      the fields of [externals], constrained only where a statement needs
      it. *)

From Stdlib Require Import ZArith QArith Qround String Ascii Lia Lqa.
From stdpp Require Import base gmap strings list pretty.

Open Scope string_scope.
Open Scope Z_scope.

(** ** Python string primitives *)

(** [s.split(d)] for a one-character separator: never the empty list. *)
Fixpoint str_split (d : ascii) (s : string) : list string :=
  match s with
  | EmptyString => [EmptyString]
  | String c s' =>
      if Ascii.eqb c d then EmptyString :: str_split d s'
      else match str_split d s' with
           | x :: xs => String c x :: xs
           | [] => [String c EmptyString]
           end
  end.

(** [pat in s]. *)
Fixpoint str_in (pat s : string) : bool :=
  String.prefix pat s ||
  match s with
  | EmptyString => false
  | String _ s' => str_in pat s'
  end.

(** Replacement of the leftmost non-overlapping occurrences of a non-empty
    literal pattern; [skip] counts the characters of a match still to be
    dropped. *)
Fixpoint sub_from (pat repl : string) (skip : nat) (s : string) : string :=
  match s with
  | EmptyString => EmptyString
  | String c s' =>
      match skip with
      | S n => sub_from pat repl n s'
      | O =>
          if String.prefix pat s
          then repl +:+ sub_from pat repl (String.length pat - 1) s'
          else String c (sub_from pat repl 0 s')
      end
  end.

(** The empty pattern matches before every character and at the end. *)
Fixpoint sub_empty (repl s : string) : string :=
  match s with
  | EmptyString => repl
  | String c s' => repl +:+ String c (sub_empty repl s')
  end.

(** [re.sub(pat, repl, s)] for a pattern and a replacement without regular
    expression metacharacters, which is what state tokens made of letters
    and digits are: the pattern then matches itself only.  Tokens with
    metacharacters are outside the embedding. *)
Definition re_sub (pat repl s : string) : string :=
  match pat with
  | EmptyString => sub_empty repl s
  | String _ _ => sub_from pat repl 0 s
  end.

(** [str(k)] for an integer. *)
Definition str (k : Z) : string := pretty k.

(** [sep.join(parts)]. *)
Fixpoint str_join (sep : string) (parts : list string) : string :=
  match parts with
  | [] => EmptyString
  | [p] => p
  | p :: ps => p +:+ sep +:+ str_join sep ps
  end.

(** ** Numbers *)

(** [int(x)] on a float, also the C cast behind [astype]: truncation toward
    zero. *)
Definition py_int (x : Q) : Z :=
  if (Qnum x <? 0)%Z then Qceiling x else Qfloor x.

(** [astype(numpy.uint8)] on one float channel: truncate, then keep the low
    eight bits.  Blending weights used by the script keep every channel in
    [0, 256), where only the truncation acts. *)
Definition to_uint8 (x : Q) : Z := py_int x mod 256.

(** ** Rasters: numpy arrays of shape (height, width, 3) *)

Record rgb (T : Type) := RGB { red : T; green : T; blue : T }.
Arguments RGB {T} _ _ _.
Arguments red {T} _.
Arguments green {T} _.
Arguments blue {T} _.

Definition rgb_map {T U : Type} (f : T -> U) (p : rgb T) : rgb U :=
  RGB (f (red p)) (f (green p)) (f (blue p)).

Definition rgb_zip {T U V : Type} (f : T -> U -> V) (p : rgb T) (q : rgb U) : rgb V :=
  RGB (f (red p) (red q)) (f (green p) (green q)) (f (blue p) (blue q)).

(** Rows of pixels; numpy arrays are rectangular ([rectangular] below). *)
Definition ndarray (T : Type) : Type := list (list (rgb T)).

(** What [numpy.array(Image.open(path))] yields for an RGB picture. *)
Definition image : Type := ndarray Z.

Definition height {T : Type} (a : ndarray T) : nat := length a.

Definition width {T : Type} (a : ndarray T) : nat :=
  match a with
  | [] => 0%nat
  | row :: _ => length row
  end.

Definition shape {T : Type} (a : ndarray T) : nat * nat := (height a, width a).

Definition rectangular {T : Type} (a : ndarray T) : Prop :=
  Forall (fun row => length row = width a) a.

Definition channel_ok (x : Z) : Prop := 0 <= x < 256.

Definition pixel_ok (p : rgb Z) : Prop :=
  channel_ok (red p) /\ channel_ok (green p) /\ channel_ok (blue p).

(** An 8-bit raster. *)
Definition valid_image (a : image) : Prop :=
  rectangular a /\ Forall (Forall pixel_ok) a.

Definition nd_map {T U : Type} (f : T -> U) (a : ndarray T) : ndarray U :=
  map (map (rgb_map f)) a.

(** Python exceptions the script can raise. *)
Inductive exn : Type :=
  | FileNotFoundError (path : string)
  | IndexError
  | ValueError
  | ZeroDivisionError
  | NameError.

Inductive outcome (A : Type) : Type :=
  | Val (a : A)
  | Exc (e : exn).
Arguments Val {A} _.
Arguments Exc {A} _.

(** numpy broadcasting of one axis: equal lengths, or one of them is 1. *)
Definition broadcast_dim (a b : nat) : option nat :=
  if (a =? b)%nat then Some a
  else if (a =? 1)%nat then Some b
  else if (b =? 1)%nat then Some a
  else None.

(** An axis of length 1 is repeated to the broadcast length. *)
Definition stretch {X : Type} (n : nat) (l : list X) : list X :=
  match l with
  | [x] => repeat x n
  | _ => l
  end.

Definition broadcast_to {T : Type} (h w : nat) (a : ndarray T) : ndarray T :=
  stretch h (map (stretch w) a).

(** [a + b] on float arrays: [ValueError] when the shapes do not broadcast. *)
Definition nd_add (a b : ndarray Q) : outcome (ndarray Q) :=
  match broadcast_dim (height a) (height b), broadcast_dim (width a) (width b) with
  | Some h, Some w =>
      Val (zip_with (zip_with (rgb_zip Qplus)) (broadcast_to h w a) (broadcast_to h w b))
  | _, _ => Exc ValueError
  end.

(** [a * w] for a uint8 array and a Python float. *)
Definition nd_scale (a : image) (w : Q) : ndarray Q :=
  nd_map (fun x => inject_Z x * w)%Q a.

Definition astype_uint8 (a : ndarray Q) : image := nd_map to_uint8 a.

(** The expression shared by lines 110-112 and 147-149:
    [(A * wA + B * wB).astype(numpy.uint8)], back to an RGB picture. *)
Definition weighted_average (A B : image) (wA wB : Q) : outcome image :=
  match nd_add (nd_scale A wA) (nd_scale B wB) with
  | Val m => Val (astype_uint8 m)
  | Exc e => Exc e
  end.

(** True division of two Python numbers. *)
Definition py_div (x y : Q) : outcome Q :=
  if Qeq_bool y 0 then Exc ZeroDivisionError else Val (x / y)%Q.

(** [range(n)]. *)
Definition py_range (n : Z) : list Z := map Z.of_nat (seq 0 (Z.to_nat n)).

(** [l[i]] for [i >= 0]. *)
Definition py_index {X : Type} (l : list X) (i : nat) : outcome X :=
  match l !! i with
  | Some x => Val x
  | None => Exc IndexError
  end.

(** [os.path.join(dir, name)] for a relative [name]. *)
Definition path_join (dir name : string) : string :=
  match dir with
  | EmptyString => name
  | _ => if String.prefix "/" (String.rev dir) then dir +:+ name else dir +:+ "/" +:+ name
  end.

Definition nl : string := String "010"%char EmptyString.

(** ** Global variables and paths (lines 24-39) *)

Record config : Type := Config {
  morph_length_seconds : Z;
  steps_per_second_video : Z;
  no_change_in_seconds : Z;
  quick_change_time_section_proportion : Q;
  color : string;
  morph_path : string;
  output_path : string;
  ffmpeg_path : string
}.

Definition number_of_morph_steps (cfg : config) : Z :=
  morph_length_seconds cfg * steps_per_second_video cfg.

Definition no_change_in_frames (cfg : config) : Z :=
  no_change_in_seconds cfg * steps_per_second_video cfg.

Definition quick_change_length_frames (cfg : config) : Z :=
  steps_per_second_video cfg.

Definition change_step (cfg : config) : outcome Q :=
  py_div 1 (inject_Z (quick_change_length_frames cfg + 1)).

(** The values the script ships with. *)
Definition source_config : config := {|
  morph_length_seconds := 16;
  steps_per_second_video := 12;
  no_change_in_seconds := 2;
  quick_change_time_section_proportion := 0.75;
  color := "Yellow_Orange";
  morph_path := "/Users/haleyfrey/Dropbox/MakeMovies/create_slow_change_scenes/morph_frames/";
  output_path := "/Users/haleyfrey/Dropbox/MakeMovies/create_slow_change_scenes/final_videos/";
  ffmpeg_path := "/Applications/ffmpeg"
|}.

(** [int(quick_change_length_frames / 2)]: half of the transition window. *)
Definition half_window (cfg : config) : Z :=
  py_int (inject_Z (quick_change_length_frames cfg) / 2)%Q.

(** ** External collaborators *)

Record externals : Type := Externals {
  (** state of numpy's global generator *)
  rng : Type;
  (** [numpy.random.rand()]: a draw from [0, 1) *)
  random_sample : rng -> Q * rng;
  (** the bounded draw inside [numpy.random.shuffle]: a number in [0, max] *)
  random_interval : nat -> rng -> nat * rng;
  (** [list(set(xs))]: the distinct elements in the set's iteration order *)
  set_order : list string -> list string;
  (** what [Image.open] decodes from a file that [save] wrote as JPEG *)
  jpeg : image -> image;
  (** [Image.resize((width, height))], argument given as (height, width) *)
  resize : nat * nat -> image -> image;
  (** the ffmpeg process: from the command line, the staged frames and the
      frame list to the text printed for its standard error *)
  ffmpeg : string -> gmap string image -> string -> string
}.

Definition shape_preserving (f : image -> image) : Prop :=
  forall a, shape (f a) = shape a.

(** A resized picture has the requested size (of at least one row). *)
Definition resize_to_size (ext : externals) : Prop :=
  forall s a, (0 < fst s)%nat -> shape (resize ext s a) = s.

(** ** State and exceptions *)

Record world (ext : externals) : Type := World {
  generator : rng ext;
  temp_dir : gmap string image;
  morph_dir : gmap string image;
  make_video_txt : string;
  readme_txt : string;
  console : list string
}.
Arguments World {ext} _ _ _ _ _ _.
Arguments generator {ext} _.
Arguments temp_dir {ext} _.
Arguments morph_dir {ext} _.
Arguments make_video_txt {ext} _.
Arguments readme_txt {ext} _.
Arguments console {ext} _.

(** A computation returns a value or raises, and leaves a world either way. *)
Definition M (ext : externals) (A : Type) : Type :=
  world ext -> outcome A * world ext.

Definition ret {ext : externals} {A : Type} (a : A) : M ext A :=
  fun w => (Val a, w).

Definition bind {ext : externals} {A B : Type} (m : M ext A) (k : A -> M ext B) : M ext B :=
  fun w =>
    match m w with
    | (Val a, w') => k a w'
    | (Exc e, w') => (Exc e, w')
    end.

Definition raise {ext : externals} {A : Type} (e : exn) : M ext A :=
  fun w => (Exc e, w).

Definition lift {ext : externals} {A : Type} (o : outcome A) : M ext A :=
  fun w => (o, w).

Declare Scope py_scope.
Delimit Scope py_scope with py.
Notation "x <- m ;; k" := (bind m (fun x => k))
  (at level 100, m at next level, right associativity) : py_scope.
Notation "m ;;; k" := (bind m (fun _ => k))
  (at level 100, right associativity) : py_scope.
Open Scope py_scope.

(** [for x in xs: body x]. *)
Fixpoint for_each {ext : externals} {X : Type} (xs : list X) (body : X -> M ext unit) : M ext unit :=
  match xs with
  | [] => ret tt
  | x :: xs' => body x ;;; for_each xs' body
  end.

(** A loop that updates local variables [s]. *)
Fixpoint fold_for {ext : externals} {X S : Type} (xs : list X) (body : S -> X -> M ext S) (s : S) : M ext S :=
  match xs with
  | [] => ret s
  | x :: xs' => s' <- body s x ;; fold_for xs' body s'
  end.

(** A list comprehension whose element expression can raise. *)
Fixpoint comprehension {X Y : Type} (f : X -> outcome Y) (xs : list X) : outcome (list Y) :=
  match xs with
  | [] => Val []
  | x :: xs' =>
      match f x with
      | Exc e => Exc e
      | Val y =>
          match comprehension f xs' with
          | Exc e => Exc e
          | Val ys => Val (y :: ys)
          end
      end
  end.

(** A list comprehension with a condition that can raise. *)
Fixpoint comprehension_if {X : Type} (c : X -> outcome bool) (xs : list X) : outcome (list X) :=
  match xs with
  | [] => Val []
  | x :: xs' =>
      match c x with
      | Exc e => Exc e
      | Val b =>
          match comprehension_if c xs' with
          | Exc e => Exc e
          | Val ys => Val (if b then x :: ys else ys)
          end
      end
  end.

(** ** The script *)

Section Script.
Context (ext : externals).
Context (cfg : config).

#[local] Abbreviation world := (world ext).
#[local] Abbreviation M := (M ext).

Definition set_generator (g : rng ext) (w : world) : world :=
  World g (temp_dir w) (morph_dir w) (make_video_txt w) (readme_txt w) (console w).

Definition set_temp_dir (d : gmap string image) (w : world) : world :=
  World (generator w) d (morph_dir w) (make_video_txt w) (readme_txt w) (console w).

Definition set_morph_dir (d : gmap string image) (w : world) : world :=
  World (generator w) (temp_dir w) d (make_video_txt w) (readme_txt w) (console w).

Definition set_make_video_txt (s : string) (w : world) : world :=
  World (generator w) (temp_dir w) (morph_dir w) s (readme_txt w) (console w).

Definition set_readme_txt (s : string) (w : world) : world :=
  World (generator w) (temp_dir w) (morph_dir w) (make_video_txt w) s (console w).

Definition set_console (c : list string) (w : world) : world :=
  World (generator w) (temp_dir w) (morph_dir w) (make_video_txt w) (readme_txt w) c.

Definition print (s : string) : M unit :=
  fun w => (Val tt, set_console (console w ++ [s])%list w).

(** [numpy.random.rand()]. *)
Definition rand : M Q :=
  fun w => let (r, g) := random_sample ext (generator w) in (Val r, set_generator g w).

Definition rand_interval (max : nat) : M nat :=
  fun w => let (j, g) := random_interval ext max (generator w) in (Val j, set_generator g w).

(** [x[i], x[j] = x[j], x[i]]. *)
Definition swap {X : Type} (i j : nat) (x : list X) : list X :=
  match x !! i, x !! j with
  | Some a, Some b => <[j := a]> (<[i := b]> x)
  | _, _ => x
  end.

(** The loop of [numpy.random.shuffle] on a Python list:
    [for i in reversed(range(1, n)): j = random_interval(i); swap]. *)
Fixpoint shuffle_from {X : Type} (i : nat) (x : list X) : M (list X) :=
  match i with
  | O => ret x
  | S i' => j <- rand_interval i ;; shuffle_from i' (swap i j x)
  end.

Definition shuffle {X : Type} (x : list X) : M (list X) :=
  shuffle_from (length x - 1) x.

(** [Image.open] on a still of the input directory. *)
Fixpoint lookup_file (dir : list (string * image)) (name : string) : option image :=
  match dir with
  | [] => None
  | (n, img) :: dir' => if String.eqb n name then Some img else lookup_file dir' name
  end.

Definition open_still (jpg_dir : list (string * image)) (name : string) : M image :=
  match lookup_file jpg_dir name with
  | Some img => ret img
  | None => raise (FileNotFoundError name)
  end.

(** [Image.open] and [save] in the scratch directory, whose files are JPEG. *)
Definition open_temp (name : string) : M image :=
  fun w =>
    match temp_dir w !! name with
    | Some img => (Val img, w)
    | None => (Exc (FileNotFoundError name), w)
    end.

Definition save_temp (name : string) (img : image) : M unit :=
  fun w => (Val tt, set_temp_dir (<[name := jpeg ext img]> (temp_dir w)) w).

Definition save_tif (name : string) (img : image) : M unit :=
  fun w => (Val tt, set_morph_dir (<[name := img]> (morph_dir w)) w).

Definition readme_write (s : string) : M unit :=
  fun w => (Val tt, set_readme_txt (readme_txt w +:+ s) w).

Definition make_video_write (s : string) : M unit :=
  fun w => (Val tt, set_make_video_txt (make_video_txt w +:+ s) w).

(** The first segment of a file name: [name.split('_')[0]]. *)
Definition root_of (name : string) : string := hd EmptyString (str_split "_" name).

(** [one_option.split('.')[0]]. *)
Definition strip_extension (s : string) : string := hd EmptyString (str_split "." s).

(** *** 1. Scene discovery and plan (lines 65-80) *)

Definition these_file_names_of (jpg_file_names : list string) (filename_root : string) : list string :=
  filter (fun f => root_of f = filename_root) jpg_file_names.

(** The values seen in segment [quick_change_index + 2], without extension
    (lines 75-76). *)
Definition quick_change_options_at (these_file_names : list string) (quick_change_index : Z)
  : outcome (list string) :=
  match comprehension
          (fun f => py_index (str_split "_" f) (Z.to_nat (quick_change_index + 2)))
          these_file_names with
  | Exc e => Exc e
  | Val segments => Val (map strip_extension (set_order ext segments))
  end.

Record plan : Type := Plan {
  slow_change_options : list string;
  num_quick_changes : Z;
  all_quick_change_options : list (list string);
  quick_changes_in_name_order : list (list string)
}.

Definition make_plan (these_file_names : list string) : M plan :=
  c0 <- lift (py_index (str_split "_" (color cfg)) 0) ;;
  c1 <- lift (py_index (str_split "_" (color cfg)) 1) ;;
  slow <- shuffle [c0; c1] ;;
  first <- lift (py_index these_file_names 0) ;;
  let n := Z.of_nat (length (str_split "_" first)) - 2 in
  options <- lift (comprehension (quick_change_options_at these_file_names) (py_range n)) ;;
  shuffled <- shuffle options ;;
  ret (Plan slow n shuffled options).

(** *** README entry (lines 84-96) *)

Definition write_readme (filename_root : string) (p : plan) : M unit :=
  data <- (fun w => (Val (readme_txt w), w)) ;;
  (if (0 <? String.length data)%nat then readme_write nl else ret tt) ;;;
  readme_write ("This slow change video is of " +:+ filename_root +:+ "." +:+ nl) ;;;
  s0 <- lift (py_index (slow_change_options p) 0) ;;
  s1 <- lift (py_index (slow_change_options p) 1) ;;
  readme_write ("The beginning color is " +:+ s0 +:+ " and the ending color is " +:+ s1 +:+ "." +:+ nl) ;;;
  readme_write ("There are " +:+ str (num_quick_changes p) +:+ " quick changes which occur as follows:" +:+ nl) ;;;
  for_each (py_range (num_quick_changes p)) (fun one_change =>
    pair <- lift (py_index (all_quick_change_options p) (Z.to_nat one_change)) ;;
    a <- lift (py_index pair 0) ;;
    b <- lift (py_index pair 1) ;;
    readme_write (a +:+ " changes to " +:+ b +:+ "." +:+ nl)).

(** *** 2. The slow colour morph (lines 99-115) *)

(** Line 110, the weights first: [float(n - k) / float(n)] and
    [float(k) / float(n)]. *)
Definition image_data_morph (morph_step : Z) (A B : image) : outcome image :=
  let n := number_of_morph_steps cfg in
  match py_div (inject_Z (n - morph_step)) (inject_Z n) with
  | Exc e => Exc e
  | Val wA =>
      match py_div (inject_Z morph_step) (inject_Z n) with
      | Exc e => Exc e
      | Val wB => weighted_average A B wA wB
      end
  end.

Definition morph_pair (jpg_dir : list (string * image)) (first second : string)
    (file_name_first_slow_option : string) : M unit :=
  A <- open_still jpg_dir file_name_first_slow_option ;;
  let file_name_second_slow_option := re_sub first second file_name_first_slow_option in
  B <- open_still jpg_dir file_name_second_slow_option ;;
  for_each (py_range (number_of_morph_steps cfg + 1)) (fun morph_step =>
    m <- lift (image_data_morph morph_step A B) ;;
    let output_filename := re_sub first ("morph" +:+ str morph_step) file_name_first_slow_option in
    save_temp output_filename m).

(** The test of line 99: the second segment is the first colour. *)
Definition has_first_colour (first f : string) : outcome bool :=
  match py_index (str_split "_" f) 1 with
  | Val c => Val (bool_decide (c = first))
  | Exc e => Exc e
  end.

Definition slow_change_morphs (jpg_dir : list (string * image))
    (these_file_names : list string) (p : plan) : M unit :=
  first <- lift (py_index (slow_change_options p) 0) ;;
  names <- lift (comprehension_if (has_first_colour first) these_file_names) ;;
  second <- lift (py_index (slow_change_options p) 1) ;;
  for_each names (morph_pair jpg_dir first second).

(** *** 3. The route through the frames (lines 118-167) *)

(** Line 120, for [num_quick_changes >= 1] (the loop runs only then) and a
    draw [r] of [numpy.random.rand()]. *)
Definition new_change_moment_prop (num_quick_changes quick_change_index : Z) (r : Q) : Q :=
  (inject_Z quick_change_index / inject_Z num_quick_changes
   + (1 / inject_Z num_quick_changes) * (1 - quick_change_time_section_proportion cfg) / 2
   + (1 / inject_Z num_quick_changes) * quick_change_time_section_proportion cfg * r)%Q.

(** Line 121. *)
Definition new_change_moment_frame (num_quick_changes quick_change_index : Z) (r : Q) : Z :=
  py_int (new_change_moment_prop num_quick_changes quick_change_index r
          * inject_Z (number_of_morph_steps cfg + 1))%Q.

Definition draw_quick_change_frames (num_quick_changes : Z) : M (list Z) :=
  fold_for (py_range num_quick_changes)
    (fun quick_change_frames quick_change_index =>
       r <- rand ;;
       ret (quick_change_frames ++ [new_change_moment_frame num_quick_changes quick_change_index r])%list)
    [].

(** Lines 127-130: the name with every feature at its first value. *)
Definition initial_filename (filename_root : string) (curr_frame_index : Z)
    (names : list (list string)) : outcome string :=
  match comprehension (fun pair => py_index pair 0) names with
  | Exc e => Exc e
  | Val firsts =>
      Val (fold_left (fun this_filename v => this_filename +:+ "_" +:+ v) firsts
             (filename_root +:+ "_morph" +:+ str curr_frame_index) +:+ ".jpg")
  end.

(** Line 144. *)
Definition count_at (onset curr_frame_index : Z) : Q :=
  (inject_Z onset + inject_Z (quick_change_length_frames cfg) / 2 - inject_Z curr_frame_index)%Q.

(** Line 147: the first picture weighs [change_step * count], the second the
    rest. *)
Definition quick_change_morph (step : Q) (onset curr_frame_index : Z) (A B : image)
  : outcome image :=
  let count := count_at onset curr_frame_index in
  weighted_average A B (step * count)%Q (1 - step * count)%Q.

Definition in_window (onset curr_frame_index : Z) : bool :=
  (onset - half_window cfg <=? curr_frame_index) && (curr_frame_index <? onset + half_window cfg).

Definition after_window (onset curr_frame_index : Z) : bool :=
  (onset + half_window cfg <=? curr_frame_index).

(** One pass of the loop of line 133 over a feature. *)
Definition quick_change (step : Q) (quick_change_frames : list Z) (curr_frame_index : Z)
    (this_filename : string) (entry : nat * list string) : M string :=
  let (change_idx, quick_change_option_pair) := entry in
  onset <- lift (py_index quick_change_frames change_idx) ;;
  if in_window onset curr_frame_index then
    let imgA := this_filename in
    v0 <- lift (py_index quick_change_option_pair 0) ;;
    v1 <- lift (py_index quick_change_option_pair 1) ;;
    let imgB := re_sub v0 v1 this_filename in
    A <- open_temp imgA ;;
    B <- open_temp imgB ;;
    m <- lift (quick_change_morph step onset curr_frame_index A B) ;;
    let output_filename := re_sub v0 "avg" imgA in
    save_temp output_filename m ;;;
    ret output_filename
  else if after_window onset curr_frame_index then
    v0 <- lift (py_index quick_change_option_pair 0) ;;
    v1 <- lift (py_index quick_change_option_pair 1) ;;
    ret (re_sub v0 v1 this_filename)
  else ret this_filename.

(** [enumerate(l)]. *)
Definition py_enumerate {X : Type} (l : list X) : list (nat * X) :=
  zip (seq 0 (length l)) l.

(** Lines 127-158: the file chosen for one frame. *)
Definition select_filename (step : Q) (filename_root : string) (p : plan)
    (quick_change_frames : list Z) (curr_frame_index : Z) : M string :=
  this_filename <- lift (initial_filename filename_root curr_frame_index
                           (quick_changes_in_name_order p)) ;;
  fold_for (py_enumerate (all_quick_change_options p))
    (quick_change step quick_change_frames curr_frame_index) this_filename.

(** Lines 163-164. *)
Definition even_up (x : nat) : nat :=
  if bool_decide ((x mod 2)%nat <> 0%nat) then (x + 1)%nat else x.

(** Lines 161-167: the chosen picture, brought to even dimensions, becomes
    the frame handed to the encoder. *)
Definition emit_frame (filename_root : string) (curr_frame_index : Z) (this_filename : string)
  : M image :=
  image_data_this_frame <- open_temp this_filename ;;
  let resized := resize ext (even_up (height image_data_this_frame),
                             even_up (width image_data_this_frame))
                   image_data_this_frame in
  save_tif (filename_root +:+ "_morph" +:+ str curr_frame_index +:+ ".tif") resized ;;;
  ret resized.

(** The loop of line 124; the result is the last frame, if any. *)
Definition select_frames (step : Q) (filename_root : string) (p : plan)
    (quick_change_frames : list Z) : M (option image) :=
  fold_for (py_range (number_of_morph_steps cfg + 1))
    (fun _ curr_frame_index =>
       this_filename <- select_filename step filename_root p quick_change_frames curr_frame_index ;;
       frame <- emit_frame filename_root curr_frame_index this_filename ;;
       ret (Some frame))
    None.

(** *** 4. Frame list and encoder (lines 171-192) *)

Definition write_make_video (filename_root : string) : M unit :=
  data <- (fun w => (Val (make_video_txt w), w)) ;;
  (if (0 <? String.length data)%nat then make_video_write nl else ret tt) ;;;
  for_each (py_range (no_change_in_frames cfg)) (fun _ =>
    make_video_write ("file '" +:+ morph_path cfg +:+ "/" +:+ filename_root +:+ "_morph0.tif'" +:+ nl)) ;;;
  make_video_write ("file '" +:+ filename_root +:+ "_morph%d.tif'" +:+ nl) ;;;
  for_each (py_range (no_change_in_frames cfg)) (fun _ =>
    make_video_write ("file '" +:+ morph_path cfg +:+ "/" +:+ filename_root +:+ "_morph"
                      +:+ str (number_of_morph_steps cfg) +:+ ".tif'" +:+ nl)).

(** Line 189. *)
Definition my_shell_command (filename_root : string) (image_size : nat * nat) : string :=
  let video_file_name := filename_root +:+ "_" +:+ re_sub "_" "" (color cfg) +:+ ".mp4" in
  ffmpeg_path cfg +:+ " -r " +:+ str (steps_per_second_video cfg)
  +:+ " -f concat -safe 0 -i " +:+ path_join (morph_path cfg) "makeVideo.txt"
  +:+ " -vcodec libx264 -crf 25 -pix_fmt yuv420p " +:+ path_join (output_path cfg) video_file_name
  +:+ " -video_size " +:+ str (Z.of_nat (fst image_size)) +:+ "x" +:+ str (Z.of_nat (snd image_size))
  +:+ " -frame_drop_threshold -3.1 -codec:v prores -qscale 2".

(** Lines 191-192: the process is run and waited for; whatever it wrote to
    its standard error is printed, and nothing is raised on failure. *)
Definition encode (filename_root : string) (image_data_this_frame : option image) : M unit :=
  match image_data_this_frame with
  | None => raise NameError
  | Some frame =>
      reply <- (fun w => (Val (ffmpeg ext (my_shell_command filename_root (shape frame))
                                 (morph_dir w) (make_video_txt w)), w)) ;;
      print ("Attempt to turn frames into a movie returned the following reply: " +:+ reply)
  end.

(** *** 5. Clean-up (lines 196-203) *)

Definition clean_up : M unit :=
  fun w =>
    (Val tt,
     World (generator w) ∅
       (filter (fun entry => str_in ".tif" (fst entry) = false) (morph_dir w))
       EmptyString (readme_txt w) (console w)).

(** *** One scene: the body of the loop of line 61 *)

(** Lines 63-167: from the file names of a scene to its staged frames. *)
Definition synthesize (step : Q) (jpg_dir : list (string * image))
    (jpg_file_names : list string) (filename_root : string) : M (option image) :=
  print ("working on file " +:+ filename_root) ;;;
  let these_file_names := these_file_names_of jpg_file_names filename_root in
  p <- make_plan these_file_names ;;
  write_readme filename_root p ;;;
  slow_change_morphs jpg_dir these_file_names p ;;;
  quick_change_frames <- draw_quick_change_frames (num_quick_changes p) ;;
  select_frames step filename_root p quick_change_frames.

(** Lines 171-203: frame list, encoder, clean-up. *)
Definition assemble (filename_root : string) (image_data_this_frame : option image) : M unit :=
  write_make_video filename_root ;;;
  encode filename_root image_data_this_frame ;;;
  clean_up.

Definition process_scene (step : Q) (jpg_dir : list (string * image))
    (jpg_file_names : list string) (filename_root : string) : M unit :=
  image_data_this_frame <- synthesize step jpg_dir jpg_file_names filename_root ;;
  assemble filename_root image_data_this_frame.

(** *** The whole script *)

Definition main (jpg_dir : list (string * image)) : M unit :=
  step <- lift (change_step cfg) ;;
  let jpg_file_names := filter (fun element => str_in ".jpg" element = true) (map fst jpg_dir) in
  let filename_roots := set_order ext (map root_of jpg_file_names) in
  for_each filename_roots (process_scene step jpg_dir jpg_file_names).

End Script.

(** ** Sample collaborators, used to run the script on concrete inputs *)

Module Sample.

(** A generator that replays a tape: integers for the shuffles, rationals
    for [rand()]. *)
Definition tape : Type := list nat * list Q.

Definition next_sample (g : tape) : Q * tape :=
  (hd 0%Q (snd g), (fst g, tl (snd g))).

Definition next_interval (max : nat) (g : tape) : nat * tape :=
  (Nat.min (hd 0%nat (fst g)) max, (tl (fst g), snd g)).

(** Two iteration orders for a set of strings. *)
Definition first_seen (xs : list string) : list string := remove_dups xs.

(** A resampling that repeats the last row and column. *)
Definition pad_resize (s : nat * nat) (a : image) : image :=
  map (fun i =>
         map (fun j => nth (Nat.min j (width a - 1))
                         (nth (Nat.min i (height a - 1)) a []) (RGB 0 0 0))
             (seq 0 (snd s)))
      (seq 0 (fst s)).

Definition silent_encoder (command : string) (frames : gmap string image) (frame_list : string)
  : string := "b''".

Definition collaborators (order : list string -> list string) : externals := {|
  rng := tape;
  random_sample := next_sample;
  random_interval := next_interval;
  set_order := order;
  jpeg := fun a => a;
  resize := pad_resize;
  ffmpeg := silent_encoder
|}.

Definition start (ints : list nat) (draws : list Q) : world (collaborators first_seen) :=
  World ((ints, draws) : rng (collaborators first_seen)) ∅ ∅ EmptyString EmptyString [].

(** Stills of one colour: 1 x 1, 1 x 2, 2 x 2 and 3 x 5 pixels. *)
Definition dot (r g b : Z) : image := [[RGB r g b]].
Definition strip (r g b : Z) : image := [[RGB r g b; RGB r g b]].
Definition block (r g b : Z) : image := [[RGB r g b; RGB r g b]; [RGB r g b; RGB r g b]].
Definition plate (r g b : Z) : image := repeat (repeat (RGB r g b) 5) 3.



(** A short configuration: 8 morph steps, windows of 4 frames. *)
Definition short_config : config :=
  Config 2 4 1 0.75 "Yellow_Orange" "morph_frames/" "final_videos/" "ffmpeg".


(** A scene that lacks [Img01_Orange_b.jpg], alone and followed by a
    complete scene. *)
Definition broken_scene : list (string * image) :=
  [("Img01_Yellow_a.jpg", dot 160 160 160); ("Img01_Yellow_b.jpg", dot 240 240 240);
   ("Img01_Orange_a.jpg", dot 0 0 0)].

Definition broken_batch : list (string * image) :=
  (broken_scene ++
   [("Img02_Yellow_a.jpg", dot 160 160 160); ("Img02_Yellow_b.jpg", dot 240 240 240);
    ("Img02_Orange_a.jpg", dot 0 0 0); ("Img02_Orange_b.jpg", dot 80 80 80)])%list.

(** 16 morph steps and windows of 4 frames; a scene with two features. *)
Definition long_config : config :=
  Config 4 4 1 0.75 "Yellow_Orange" "morph_frames/" "final_videos/" "ffmpeg".

Definition two_feature_scene : list (string * image) :=
  [("Img01_Orange_a_c.jpg", dot 0 0 0); ("Img01_Orange_a_d.jpg", dot 30 30 30);
   ("Img01_Orange_b_c.jpg", dot 60 60 60); ("Img01_Orange_b_d.jpg", dot 90 90 90);
   ("Img01_Yellow_a_c.jpg", dot 120 120 120); ("Img01_Yellow_a_d.jpg", dot 150 150 150);
   ("Img01_Yellow_b_c.jpg", dot 180 180 180); ("Img01_Yellow_b_d.jpg", dot 210 210 210)].



(** A scene without features. *)
Definition plain_scene : list (string * image) :=
  [("Img01_Orange.jpg", dot 0 0 0); ("Img01_Yellow.jpg", dot 160 160 160)].

End Sample.

(** ** Vocabulary of the statements *)

(** Shapes that do not broadcast: a differing axis with neither length 1. *)
Definition axis_clash (a b : nat) : Prop := a <> b /\ a <> 1%nat /\ b <> 1%nat.




(** A character occurs in a string. *)
Fixpoint has_char (d : ascii) (s : string) : bool :=
  match s with
  | EmptyString => false
  | String c s' => Ascii.eqb c d || has_char d s'
  end.

(** Letters and digits: the characters with no special meaning in a
    regular expression or in a replacement string. *)
Definition is_alnum (c : ascii) : bool :=
  let n := nat_of_ascii c in
  ((48 <=? n) && (n <=? 57) || (65 <=? n) && (n <=? 90) || (97 <=? n) && (n <=? 122))%nat.

(** A token for which [re.sub] is literal replacement. *)
Fixpoint plain_token (s : string) : bool :=
  match s with
  | EmptyString => true
  | String c s' => is_alnum c && plain_token s'
  end.

(** The file name format of line 7: segments joined by underscores, with
    the extension. *)
Definition file_name (segments : list string) : string :=
  str_join "_" segments +:+ ".jpg".


(** [m] moves every world to an [R]-related one, whatever it returns. *)
Definition steps {ext : externals} {A : Type} (R : relation (world ext)) (m : M ext A) : Prop :=
  forall w, R w (snd (m w)).

(** A component of the world is left as it was. *)
Definition keeps {ext : externals} {X : Type} (f : world ext -> X) : relation (world ext) :=
  fun w w' => f w' = f w.

(** The README only grows. *)
Definition readme_grows {ext : externals} : relation (world ext) :=
  fun w w' => exists t, readme_txt w' = readme_txt w +:+ t.





(** The name under which frame [k] of a scene is staged. *)
Definition frame_name (filename_root : string) (k : Z) : string :=
  filename_root +:+ "_morph" +:+ str k +:+ ".tif".



(** The number of occurrences of a character. *)
Fixpoint count_char (d : ascii) (s : string) : nat :=
  match s with
  | EmptyString => 0%nat
  | String c s' => ((if Ascii.eqb c d then 1 else 0) + count_char d s')%nat
  end.

(** [n] copies of a string, and the concatenation of a list of strings. *)
Fixpoint str_repeat (s : string) (n : nat) : string :=
  match n with
  | O => EmptyString
  | S n' => s +:+ str_repeat s n'
  end.

Fixpoint str_concat (parts : list string) : string :=
  match parts with
  | [] => EmptyString
  | part :: parts' => part +:+ str_concat parts'
  end.

(** [list(set(xs))] lists only elements of [xs]. *)
Definition set_order_sound (ext : externals) : Prop :=
  forall xs x, x ∈ set_order ext xs -> x ∈ xs.

(** [numpy.random.rand()] draws from [0, 1). *)
Definition unit_draws (ext : externals) : Prop :=
  forall g, (0 <= fst (random_sample ext g))%Q /\ (fst (random_sample ext g) < 1)%Q.

(** Every segment equal to [v0] becomes [v1]. *)
Definition apply_change (v0 v1 : string) (segments : list string) : list string :=
  map (fun seg => if String.eqb seg v0 then v1 else seg) segments.

(** The effect of one feature on the segments of the name of frame [k],
    outside its transition window: its first value becomes its second value
    once the window has passed. *)
Definition route_step (cfg : config) (quick_change_frames : list Z) (k : Z)
    (segments : list string) (entry : nat * list string) : list string :=
  match quick_change_frames !! fst entry, snd entry with
  | Some onset, v0 :: v1 :: _ =>
      if after_window cfg onset k then apply_change v0 v1 segments else segments
  | _, _ => segments
  end.

Definition route_segments (cfg : config) (filename_root : string) (p : plan)
    (quick_change_frames : list Z) (k : Z) : list string :=
  fold_left (route_step cfg quick_change_frames k)
    (py_enumerate (all_quick_change_options p))
    (filename_root :: ("morph" +:+ str k)
     :: map (hd EmptyString) (quick_changes_in_name_order p)).

(** The segments a name of frame [k] can have. *)
Definition segment_universe (filename_root : string) (p : plan) (k : Z) : list string :=
  (filename_root :: ("morph" +:+ str k)
   :: concat (quick_changes_in_name_order p) ++ concat (all_quick_change_options p))%list.

(** A token that is a whole segment or no part of one. *)
Definition token_apart (universe : list string) (v0 : string) : Prop :=
  v0 <> EmptyString /\ plain_token v0 = true /\ str_in v0 "jpg" = false /\
  Forall (fun seg => seg = v0 \/ str_in v0 seg = false) universe.

(** The text of a README entry (lines 92-96). *)
Definition change_line (pair : list string) : string :=
  nth 0 pair EmptyString +:+ " changes to " +:+ nth 1 pair EmptyString +:+ "." +:+ nl.

Definition readme_entry (filename_root : string) (p : plan) : string :=
  "This slow change video is of " +:+ filename_root +:+ "." +:+ nl
  +:+ "The beginning color is " +:+ nth 0 (slow_change_options p) EmptyString
  +:+ " and the ending color is " +:+ nth 1 (slow_change_options p) EmptyString +:+ "." +:+ nl
  +:+ "There are " +:+ str (num_quick_changes p) +:+ " quick changes which occur as follows:" +:+ nl
  +:+ str_concat (map change_line
                    (take (Z.to_nat (num_quick_changes p)) (all_quick_change_options p))).

(** [list(set(xs))] lists the elements of [xs], each once. *)
Definition set_order_exact (ext : externals) : Prop :=
  forall xs, NoDup (set_order ext xs) /\ forall x, x ∈ set_order ext xs <-> x ∈ xs.

(** One value of each feature, in name order. *)
Fixpoint combinations (names : list (list string)) : list (list string) :=
  match names with
  | [] => [[]]
  | values :: names' => flat_map (fun v => map (cons v) (combinations names')) values
  end.

(** A feature value that is no part of the fixed segments of a name of the
    scene, and a whole value or no part of a value. *)
Definition feature_token (filename_root : string) (cfg : config) (values : list string)
    (a : string) : Prop :=
  a <> EmptyString /\ plain_token a = true /\ str_in a "jpg" = false /\
  str_in a filename_root = false /\
  Forall (fun k => str_in a ("morph" +:+ str k) = false)
    (py_range (number_of_morph_steps cfg + 1)) /\
  Forall (fun v => v = a \/ str_in a v = false) values.

(** A colour name that is one segment of a file name of the scene and no
    part of another. *)
Definition colour_token (filename_root : string) (values : list string) (c : string) : Prop :=
  c <> EmptyString /\ plain_token c = true /\ str_in c "jpg" = false /\
  str_in c filename_root = false /\ Forall (fun v => str_in c v = false) values.

(** The transition window of a quick change ends before the window of any
    later one starts. *)
Definition windows_apart (cfg : config) (quick_change_frames : list Z) : Prop :=
  forall i j o o', (i < j)%nat ->
    quick_change_frames !! i = Some o -> quick_change_frames !! j = Some o' ->
    o + half_window cfg <= o' - half_window cfg.

(** A scratch file of shape [s]. *)
Definition stored {ext : externals} (s : nat * nat) (w : world ext) (name : string) : Prop :=
  exists img, temp_dir w !! name = Some img /\ shape img = s.

(** The colour morphs of every combination of feature values are in the
    scratch directory, with shape [s]. *)
Definition morphs_stored {ext : externals} (cfg : config) (filename_root : string)
    (names : list (list string)) (s : nat * nat) (w : world ext) : Prop :=
  Forall (fun k =>
            Forall (fun states =>
                      exists img,
                        temp_dir w !! file_name (filename_root :: ("morph" +:+ str k) :: states)
                        = Some img /\ shape img = s)
              (combinations names))
    (py_range (number_of_morph_steps cfg + 1)).

(** The segments that [split('_')] finds in a file name: the last one has
    the extension. *)
Fixpoint with_extension (segments : list string) : list string :=
  match segments with
  | [] => []
  | [seg] => [seg +:+ ".jpg"]
  | seg :: segments' => seg :: with_extension segments'
  end.

(** The file names of a complete scene: every combination of feature values
    in each colour. *)
Definition scene_names (filename_root : string) (colours : list string)
    (names : list (list string)) : list string :=
  flat_map (fun c => map (fun states => file_name (filename_root :: c :: states))
                       (combinations names)) colours.

(** A complete scene: features with two values each, tokens that are whole
    segments, a still of shape [s] for every combination of feature values
    in either colour and no other file of this root, and windows that fit
    into the sequence. *)
Definition complete_scene (cfg : config) (jpg_dir : list (string * image))
    (jpg_file_names : list string) (filename_root c0 c1 : string)
    (features : list (list string)) (s : nat * nat) : Prop :=
  features <> [] /\
  Forall (fun pair => length pair = 2%nat) features /\
  NoDup (concat features) /\
  Forall (feature_token filename_root cfg (concat features)) (concat features) /\
  has_char "_" filename_root = false /\
  colour_token filename_root (concat features) c0 /\
  colour_token filename_root (concat features) c1 /\
  (forall f, f ∈ these_file_names_of jpg_file_names filename_root
             <-> f ∈ scene_names filename_root [c0; c1] features) /\
  Forall (fun f => exists img, lookup_file jpg_dir f = Some img /\ shape img = s)
    (scene_names filename_root [c0; c1] features) /\
  (inject_Z (Z.of_nat (length features) * quick_change_length_frames cfg)
   <= (1 - quick_change_time_section_proportion cfg)
      * inject_Z (number_of_morph_steps cfg + 1))%Q.

(** What the script asks of its collaborators and of its configuration:
    draws from [0, 1), sets without repetition, pictures that keep their
    shape when saved, a colour name of two parts, at least one morph step,
    and a section proportion between 0 and 1. *)
Definition well_configured (ext : externals) (cfg : config) (c0 c1 : string) : Prop :=
  unit_draws ext /\ set_order_exact ext /\ shape_preserving (jpeg ext) /\
  str_split "_" (color cfg) = [c0; c1] /\
  0 < number_of_morph_steps cfg /\
  0 <= quick_change_length_frames cfg /\
  (0 <= quick_change_time_section_proportion cfg)%Q /\
  (quick_change_time_section_proportion cfg <= 1)%Q.

(** ** More sample collaborators *)

Module Steady.

(** A generator whose draws lie in [0, 1): a tape entry outside counts
    as 0. *)
Definition unit_sample (g : Sample.tape) : Q * Sample.tape :=
  let q := hd 0%Q (snd g) in
  (if Qle_bool 0 q && negb (Qle_bool 1 q) then q else 0%Q, (fst g, tl (snd g))).

Definition collaborators : externals := {|
  rng := Sample.tape;
  random_sample := unit_sample;
  random_interval := Sample.next_interval;
  set_order := Sample.first_seen;
  jpeg := fun a => a;
  resize := Sample.pad_resize;
  ffmpeg := Sample.silent_encoder
|}.

Definition start (ints : list nat) (draws : list Q) : world collaborators :=
  World ((ints, draws) : rng collaborators) ∅ ∅ EmptyString EmptyString [].

(** A complete scene with one feature, and a plan for a scene with two. *)
Definition one_feature_scene : list (string * image) :=
  [("Img02_Yellow_a.jpg", Sample.dot 160 160 160); ("Img02_Yellow_b.jpg", Sample.dot 240 240 240);
   ("Img02_Orange_a.jpg", Sample.dot 0 0 0); ("Img02_Orange_b.jpg", Sample.dot 80 80 80)].

Definition two_feature_plan : plan :=
  Plan ["Orange"; "Yellow"] 2 [["c"; "d"]; ["a"; "b"]] [["a"; "b"]; ["c"; "d"]].

Definition one_feature_plan : plan := Plan ["Yellow"; "Orange"] 1 [["a"; "b"]] [["a"; "b"]].

(** The world after the colour morphs of the one-feature scene. *)
Definition morphed : world collaborators :=
  snd (slow_change_morphs collaborators Sample.long_config one_feature_scene
         (map fst one_feature_scene) one_feature_plan (start [] [])).

(** A configuration whose colour name has no underscore. *)
Definition one_colour_config : config :=
  Config 16 12 2 0.75 "Yellow" "morph_frames/" "final_videos/" "ffmpeg".

End Steady.

(** * Properties *)

(** ** Truncation *)

Lemma py_int_comp (x y : Q) : (x == y)%Q -> py_int x = py_int y.
Proof.
  intros E. unfold py_int.
  assert (S : ((Qnum x <? 0) = (Qnum y <? 0))%Z).
  { unfold Qeq in E. destruct (Z.ltb_spec (Qnum x) 0), (Z.ltb_spec (Qnum y) 0); try reflexivity; nia. }
  rewrite S. destruct (Qnum y <? 0)%Z.
  - now apply Qceiling_comp.
  - now apply Qfloor_comp.
Qed.

Lemma py_int_inject_Z (z : Z) : py_int (inject_Z z) = z.
Proof.
  unfold py_int. destruct (Qnum (inject_Z z) <? 0)%Z.
  - apply Qceiling_Z.
  - apply Qfloor_Z.
Qed.

Lemma py_int_nonneg (x : Q) : (0 <= x)%Q -> py_int x = Qfloor x.
Proof.
  intros H. unfold py_int. unfold Qle in H. simpl in H.
  destruct (Z.ltb_spec (Qnum x) 0); [lia | reflexivity].
Qed.

Lemma to_uint8_keep (x y : Z) (wA wB : Q) :
  channel_ok x -> (wA == 1)%Q -> (wB == 0)%Q ->
  to_uint8 (inject_Z x * wA + inject_Z y * wB) = x.
Proof.
  intros Hx EA EB. unfold to_uint8.
  rewrite (py_int_comp _ (inject_Z x)).
  - rewrite py_int_inject_Z. apply Z.mod_small. exact Hx.
  - rewrite EA, EB. ring.
Qed.

Lemma to_uint8_take (x y : Z) (wA wB : Q) :
  channel_ok y -> (wA == 0)%Q -> (wB == 1)%Q ->
  to_uint8 (inject_Z x * wA + inject_Z y * wB) = y.
Proof.
  intros Hy EA EB. unfold to_uint8.
  rewrite (py_int_comp _ (inject_Z y)).
  - rewrite py_int_inject_Z. apply Z.mod_small. exact Hy.
  - rewrite EA, EB. ring.
Qed.

(** ** Shapes *)

Lemma stretch_same {X : Type} (l : list X) : stretch (length l) l = l.
Proof. destruct l as [|x [|y l]]; reflexivity. Qed.

Lemma broadcast_dim_same (n : nat) : broadcast_dim n n = Some n.
Proof. unfold broadcast_dim. now rewrite Nat.eqb_refl. Qed.

Lemma broadcast_to_same {T : Type} (a : ndarray T) :
  rectangular a -> broadcast_to (height a) (width a) a = a.
Proof.
  intros R. unfold broadcast_to.
  assert (E : map (stretch (width a)) a = a).
  { unfold rectangular in R. generalize dependent (width a). intros w R.
    induction R as [|row rows Hrow _ IH]; [reflexivity|].
    simpl. rewrite IH. rewrite <- Hrow. now rewrite stretch_same. }
  rewrite E. apply stretch_same.
Qed.

Lemma nd_map_height {T U : Type} (f : T -> U) (a : ndarray T) : height (nd_map f a) = height a.
Proof. unfold height, nd_map. apply length_map. Qed.

Lemma nd_map_width {T U : Type} (f : T -> U) (a : ndarray T) : width (nd_map f a) = width a.
Proof. destruct a; [reflexivity|]. simpl. apply length_map. Qed.

Lemma nd_map_shape {T U : Type} (f : T -> U) (a : ndarray T) : shape (nd_map f a) = shape a.
Proof. unfold shape. now rewrite nd_map_height, nd_map_width. Qed.

Lemma nd_map_rectangular {T U : Type} (f : T -> U) (a : ndarray T) :
  rectangular a -> rectangular (nd_map f a).
Proof.
  unfold rectangular. rewrite nd_map_width. generalize (width a). intros w R.
  induction R; simpl; constructor; [now rewrite length_map | assumption].
Qed.

(** The sum of two arrays of one shape is pointwise. *)
Lemma nd_add_same_shape (a b : ndarray Q) :
  rectangular a -> rectangular b -> shape a = shape b ->
  nd_add a b = Val (zip_with (zip_with (rgb_zip Qplus)) a b).
Proof.
  intros Ra Rb E. unfold shape in E. injection E as Eh Ew. unfold nd_add.
  rewrite <- Eh, <- Ew, !broadcast_dim_same.
  rewrite (broadcast_to_same a Ra). rewrite Eh, Ew.
  now rewrite (broadcast_to_same b Rb).
Qed.

Lemma zip_rows_shape {T U V : Type} (f : T -> U -> V) (a : ndarray T) (b : ndarray U) :
  shape a = shape b ->
  shape (zip_with (zip_with (rgb_zip f)) a b) = shape a.
Proof.
  unfold shape, height, width. intros E. injection E as Eh Ew.
  destruct a as [|ra a], b as [|rb b]; simpl in *; try discriminate; [reflexivity|].
  f_equal.
  - f_equal. rewrite length_zip_with. lia.
  - rewrite length_zip_with. lia.
Qed.

Lemma weighted_average_same_shape (A B : image) (wA wB : Q) :
  rectangular A -> rectangular B -> shape A = shape B ->
  weighted_average A B wA wB =
  Val (astype_uint8 (zip_with (zip_with (rgb_zip Qplus)) (nd_scale A wA) (nd_scale B wB))).
Proof.
  intros RA RB E. unfold weighted_average, nd_scale.
  rewrite nd_add_same_shape; [reflexivity | | |].
  - now apply nd_map_rectangular.
  - now apply nd_map_rectangular.
  - now rewrite !nd_map_shape.
Qed.

(** Pointwise blend of two rows, then of two rasters. *)
Lemma blend_rows (f : Q -> Z) (g h : Z -> Q) (pick : Z -> Z -> Z) (ra rb : list (rgb Z)) :
  (forall x y, channel_ok x -> channel_ok y -> f (g x + h y)%Q = pick x y) ->
  Forall pixel_ok ra -> Forall pixel_ok rb -> length ra = length rb ->
  map (rgb_map f) (zip_with (rgb_zip Qplus) (map (rgb_map g) ra) (map (rgb_map h) rb))
  = zip_with (rgb_zip pick) ra rb.
Proof.
  intros Hf Ha. revert rb. induction Ha as [|p ra Hp _ IH]; intros rb Hb E.
  - reflexivity.
  - destruct Hb as [|q rb Hq Hb]; [discriminate|]. simpl in E. simpl.
    rewrite IH by (assumption || lia). f_equal.
    destruct p, q, Hp as (?&?&?), Hq as (?&?&?). unfold rgb_map, rgb_zip. simpl in *.
    now rewrite !Hf.
Qed.

Lemma zip_pick_left (ra rb : list (rgb Z)) :
  length ra = length rb -> zip_with (rgb_zip (fun x _ => x)) ra rb = ra.
Proof.
  revert rb. induction ra as [|p ra IH]; intros [|q rb] E; try discriminate; [reflexivity|].
  simpl. rewrite IH by (simpl in E; lia). now destruct p.
Qed.

Lemma zip_pick_right (ra rb : list (rgb Z)) :
  length ra = length rb -> zip_with (rgb_zip (fun _ y => y)) ra rb = rb.
Proof.
  revert rb. induction ra as [|p ra IH]; intros [|q rb] E; try discriminate; [reflexivity|].
  simpl. rewrite IH by (simpl in E; lia). now destruct q.
Qed.

Lemma rows_of_width (w : nat) (A B : image) :
  Forall (fun row => length row = w) A -> Forall (fun row => length row = w) B ->
  length A = length B -> Forall2 (fun ra rb => length ra = length rb) A B.
Proof.
  intros RA. revert B. induction RA as [|ra A Hra _ IH]; intros [|rb B] RB E; try discriminate.
  - constructor.
  - inversion RB; subst. constructor; [congruence|]. apply IH; [assumption | simpl in E; lia].
Qed.

Lemma same_shape_rows (A B : image) :
  rectangular A -> rectangular B -> shape A = shape B ->
  Forall2 (fun ra rb => length ra = length rb) A B.
Proof.
  unfold rectangular, shape, height. intros RA RB E. injection E as Eh Ew.
  rewrite <- Ew in RB. now apply (rows_of_width (width A)).
Qed.

Lemma weighted_average_pick (pick : Z -> Z -> Z) (A B : image) (wA wB : Q) :
  (forall x y, channel_ok x -> channel_ok y ->
               to_uint8 (inject_Z x * wA + inject_Z y * wB)%Q = pick x y) ->
  valid_image A -> valid_image B -> shape A = shape B ->
  weighted_average A B wA wB = Val (zip_with (zip_with (rgb_zip pick)) A B).
Proof.
  intros Hp [RA VA] [RB VB] E.
  rewrite weighted_average_same_shape by assumption. f_equal.
  pose proof (same_shape_rows A B RA RB E) as R.
  unfold astype_uint8, nd_scale, nd_map. clear RA RB E.
  induction R as [|ra rb A B Hl R IH]; [reflexivity|].
  inversion VA; subst. inversion VB; subst. simpl.
  rewrite IH by assumption. f_equal.
  now apply (blend_rows to_uint8 (fun x => inject_Z x * wA)%Q (fun y => inject_Z y * wB)%Q).
Qed.

Lemma zip_rows_left (A B : image) :
  Forall2 (fun ra rb => length ra = length rb) A B ->
  zip_with (zip_with (rgb_zip (fun x _ => x))) A B = A.
Proof. induction 1; [reflexivity|]. simpl. now rewrite zip_pick_left, IHForall2. Qed.

Lemma zip_rows_right (A B : image) :
  Forall2 (fun ra rb => length ra = length rb) A B ->
  zip_with (zip_with (rgb_zip (fun _ y => y))) A B = B.
Proof. induction 1; [reflexivity|]. simpl. now rewrite zip_pick_right, IHForall2. Qed.

Lemma weighted_average_first (A B : image) (wA wB : Q) :
  (wA == 1)%Q -> (wB == 0)%Q -> valid_image A -> valid_image B -> shape A = shape B ->
  weighted_average A B wA wB = Val A.
Proof.
  intros EA EB VA VB E.
  rewrite (weighted_average_pick (fun x _ => x)); try assumption.
  - f_equal. apply zip_rows_left. apply same_shape_rows; [apply VA | apply VB | assumption].
  - intros x y Hx _. now apply to_uint8_keep.
Qed.

Lemma weighted_average_second (A B : image) (wA wB : Q) :
  (wA == 0)%Q -> (wB == 1)%Q -> valid_image A -> valid_image B -> shape A = shape B ->
  weighted_average A B wA wB = Val B.
Proof.
  intros EA EB VA VB E.
  rewrite (weighted_average_pick (fun _ y => y)); try assumption.
  - f_equal. apply zip_rows_right. apply same_shape_rows; [apply VA | apply VB | assumption].
  - intros x y _ Hy. now apply to_uint8_take.
Qed.

(** The shape of a sum of two arrays of one shape, rectangular or not. *)
Lemma broadcast_to_own_shape {T : Type} (a : ndarray T) :
  shape (broadcast_to (height a) (width a) a) = shape a.
Proof.
  unfold broadcast_to, height.
  replace (length a) with (length (map (stretch (width a)) a)) at 1 by apply length_map.
  rewrite stretch_same. unfold shape, height. rewrite length_map. f_equal.
  destruct a as [|ra a]; [reflexivity|]. simpl. now rewrite stretch_same.
Qed.

Lemma nd_add_shape (a b : ndarray Q) :
  shape a = shape b -> exists c, nd_add a b = Val c /\ shape c = shape a.
Proof.
  intros E. pose proof E as E'. unfold shape in E'. injection E' as Eh Ew. unfold nd_add.
  rewrite <- Eh, <- Ew, !broadcast_dim_same. eexists. split; [reflexivity|].
  rewrite zip_rows_shape; [apply broadcast_to_own_shape|].
  rewrite broadcast_to_own_shape. rewrite Eh, Ew, broadcast_to_own_shape. exact E.
Qed.

Lemma weighted_average_keeps_shape (A B : image) (wA wB : Q) :
  shape A = shape B -> exists C, weighted_average A B wA wB = Val C /\ shape C = shape A.
Proof.
  intros E. unfold weighted_average.
  destruct (nd_add_shape (nd_scale A wA) (nd_scale B wB)) as (c & Hc & Hs).
  { unfold nd_scale. now rewrite !nd_map_shape. }
  rewrite Hc. eexists. split; [reflexivity|].
  unfold astype_uint8, nd_scale in *. now rewrite nd_map_shape, Hs, nd_map_shape.
Qed.

Lemma broadcast_dim_none (a b : nat) : broadcast_dim a b = None <-> axis_clash a b.
Proof.
  unfold broadcast_dim, axis_clash.
  destruct (Nat.eqb_spec a b), (Nat.eqb_spec a 1), (Nat.eqb_spec b 1);
    split; intros H; try discriminate; try reflexivity; try (split; [|split]; assumption);
    destruct H as (?&?&?); contradiction.
Qed.

(** ** The blend (C4, C5) *)

(** C4: for two 8-bit rasters of one shape, the blend with weight 0 toward
    the second picture is the first picture and the blend with weight 1 is
    the second, exactly; this is what the colour morph computes at its first
    and at its last step; and for any weights the result has the shape of
    both pictures. *)
Theorem blend_endpoints_and_shape (cfg : config) (A B : image) :
  valid_image A -> valid_image B -> shape A = shape B ->
  (forall w : Q, (w == 0)%Q -> weighted_average A B (1 - w) w = Val A) /\
  (forall w : Q, (w == 1)%Q -> weighted_average A B (1 - w) w = Val B) /\
  (number_of_morph_steps cfg <> 0 ->
     image_data_morph cfg 0 A B = Val A /\
     image_data_morph cfg (number_of_morph_steps cfg) A B = Val B) /\
  (forall wA wB : Q, exists C,
     weighted_average A B wA wB = Val C /\ shape C = shape A /\ shape C = shape B).
Proof.
  intros VA VB E. split; [|split; [|split; [intros Hne; split|]]].
  - intros w Hw. apply weighted_average_first; try assumption. rewrite Hw. reflexivity.
  - intros w Hw. apply weighted_average_second; try assumption. rewrite Hw. reflexivity.
  - unfold image_data_morph, py_div.
    assert (Hn : Qeq_bool (inject_Z (number_of_morph_steps cfg)) 0 = false).
    { apply not_true_is_false. intros Hq. apply Qeq_bool_eq in Hq.
      unfold Qeq in Hq. simpl in Hq. lia. }
    clear Hne.
    rewrite Hn. apply weighted_average_first; try assumption.
    + rewrite Z.sub_0_r. field. apply Qeq_bool_neq in Hn. exact Hn.
    + unfold Qdiv. ring.
  - unfold image_data_morph, py_div.
    assert (Hn : Qeq_bool (inject_Z (number_of_morph_steps cfg)) 0 = false).
    { apply not_true_is_false. intros Hq. apply Qeq_bool_eq in Hq.
      unfold Qeq in Hq. simpl in Hq. lia. }
    clear Hne.
    rewrite Hn. apply weighted_average_second; try assumption.
    + rewrite Z.sub_diag. unfold Qdiv. ring.
    + field. apply Qeq_bool_neq in Hn. exact Hn.
  - intros wA wB. destruct (weighted_average_keeps_shape A B wA wB E) as (C & HC & HS).
    exists C. split; [assumption | split; congruence].
Qed.

Lemma blend_endpoints_and_shape_witness :
  valid_image (Sample.block 10 20 30) /\ valid_image (Sample.block 200 100 50) /\
  shape (Sample.block 10 20 30) = shape (Sample.block 200 100 50) /\
  image_data_morph source_config 0 (Sample.block 10 20 30) (Sample.block 200 100 50)
  = Val (Sample.block 10 20 30) /\
  image_data_morph source_config 192 (Sample.block 10 20 30) (Sample.block 200 100 50)
  = Val (Sample.block 200 100 50).
Proof.
  assert (VA : valid_image (Sample.block 10 20 30)).
  { split; repeat constructor; simpl; lia. }
  assert (VB : valid_image (Sample.block 200 100 50)).
  { split; repeat constructor; simpl; lia. }
  split; [exact VA | split; [exact VB | split; [reflexivity|]]].
  apply (blend_endpoints_and_shape source_config _ _ VA VB eq_refl).
  discriminate.
Defined.

(** C5 (amended): the blend raises numpy's ValueError, and so yields no
    picture, exactly when the two shapes do not broadcast: the heights differ
    and neither is 1, or the widths differ and neither is 1. *)
Theorem blend_raises_iff_shapes_clash (A B : image) (wA wB : Q) :
  weighted_average A B wA wB = Exc ValueError <->
  axis_clash (height A) (height B) \/ axis_clash (width A) (width B).
Proof.
  unfold weighted_average, nd_add, nd_scale. rewrite !nd_map_height, !nd_map_width.
  rewrite <- !broadcast_dim_none.
  destruct (broadcast_dim (height A) (height B)), (broadcast_dim (width A) (width B));
    split; intros H; try reflexivity; try discriminate; try (now left); try (now right).
  destruct H; discriminate.
Qed.

(** C5 as stated fails: a picture one pixel high is broadcast against a
    taller one of the same width, and a blended picture comes out. *)
Lemma blend_broadcasts_unit_axis :
  shape (Sample.strip 10 20 30) <> shape (Sample.block 200 100 50) /\
  weighted_average (Sample.strip 10 20 30) (Sample.block 200 100 50) (1 # 2) (1 # 2)
  = Val (Sample.block 105 60 40).
Proof. split; [discriminate | reflexivity]. Qed.

(** ** Frames handed to the encoder (C8) *)

Lemma even_up_even (x : nat) : Nat.Even (even_up x).
Proof.
  unfold even_up. pose proof (Nat.div_mod_eq x 2) as D.
  pose proof (Nat.mod_upper_bound x 2 ltac:(lia)) as U.
  case_bool_decide as H.
  - exists (x / 2 + 1)%nat. lia.
  - exists (x / 2)%nat. lia.
Qed.

Lemma even_up_bounds (x : nat) : (x <= even_up x <= x + 1)%nat.
Proof. unfold even_up. case_bool_decide; lia. Qed.

Lemma pad_resize_size : resize_to_size (Sample.collaborators Sample.first_seen).
Proof.
  intros [h wd] a Hh. simpl in Hh. simpl. unfold shape, height, width, Sample.pad_resize.
  simpl. rewrite length_map, length_seq. destruct h as [|h]; [lia|]. simpl.
  now rewrite length_map, length_seq.
Qed.

(** C8: the frame written for the encoder has even height and even width,
    each at most one pixel more than in the picture it was made from. *)
Theorem emitted_frame_even (ext : externals) (filename_root : string) (curr_frame_index : Z)
    (this_filename : string) (src : image) (w : world ext) :
  resize_to_size ext ->
  (0 < height src)%nat ->
  temp_dir w !! this_filename = Some src ->
  exists (frame : image) (w' : world ext),
    emit_frame ext filename_root curr_frame_index this_filename w = (Val frame, w') /\
    morph_dir w' !! (filename_root +:+ "_morph" +:+ str curr_frame_index +:+ ".tif") = Some frame /\
    Nat.Even (height frame) /\ Nat.Even (width frame) /\
    (height src <= height frame <= height src + 1)%nat /\
    (width src <= width frame <= width src + 1)%nat.
Proof.
  intros Hr Hpos Hsrc. unfold emit_frame, bind, open_temp. rewrite Hsrc.
  unfold save_tif, ret. eexists _, _. split; [reflexivity|]. simpl.
  rewrite lookup_insert_eq. split; [reflexivity|].
  pose proof (even_up_bounds (height src)) as Hb.
  pose proof (Hr (even_up (height src), even_up (width src)) src) as Hs.
  unfold shape in Hs. simpl in Hs. injection (Hs ltac:(lia)) as Hh Hw. rewrite Hh, Hw.
  repeat split; try apply even_up_even; apply even_up_bounds.
Qed.

Lemma emitted_frame_even_witness :
  exists (frame : image) (w' : world (Sample.collaborators Sample.first_seen)),
    emit_frame (Sample.collaborators Sample.first_seen) "Img01" 7 "Img01_morph7_a.jpg"
      (World (([], []) : rng (Sample.collaborators Sample.first_seen))
         {[ "Img01_morph7_a.jpg" := Sample.plate 9 9 9 ]} ∅ EmptyString EmptyString [])
    = (Val frame, w') /\
    morph_dir w' !! "Img01_morph7.tif" = Some frame /\
    Nat.Even (height frame) /\ Nat.Even (width frame) /\
    (3 <= height frame <= 3 + 1)%nat /\ (5 <= width frame <= 5 + 1)%nat.
Proof.
  apply (emitted_frame_even (Sample.collaborators Sample.first_seen) "Img01" 7
           "Img01_morph7_a.jpg" (Sample.plate 9 9 9)).
  - exact pad_resize_size.
  - simpl. lia.
  - reflexivity.
Defined.

(** ** Onset of a quick change (C3) *)




(** ** Strings *)

Lemma str_app_cons (c : ascii) (s t : string) : String c s +:+ t = String c (s +:+ t).
Proof. reflexivity. Qed.

Lemma str_app_nil_l (s : string) : EmptyString +:+ s = s.
Proof. reflexivity. Qed.

Lemma str_app_nil_r (s : string) : s +:+ EmptyString = s.
Proof. induction s as [|c s IH]; [reflexivity|]. now rewrite str_app_cons, IH. Qed.

Lemma str_app_assoc (s t u : string) : (s +:+ t) +:+ u = s +:+ (t +:+ u).
Proof. induction s as [|c s IH]; [reflexivity|]. now rewrite !str_app_cons, IH. Qed.

Lemma str_length_app (s t : string) :
  String.length (s +:+ t) = (String.length s + String.length t)%nat.
Proof. induction s as [|c s IH]; [reflexivity|]. rewrite str_app_cons. simpl. now rewrite IH. Qed.

Lemma str_app_inv_length (s s' t t' : string) :
  String.length s = String.length s' -> s +:+ t = s' +:+ t' -> s = s' /\ t = t'.
Proof.
  revert s'. induction s as [|c s IH]; intros [|c' s'] L E; try discriminate.
  - now split.
  - rewrite !str_app_cons in E. injection E as -> E. simpl in L.
    destruct (IH s' ltac:(lia) E) as [-> ->]. now split.
Qed.

Lemma prefix_app (p b : string) : String.prefix p (p +:+ b) = true.
Proof.
  induction p as [|c p IH]; [now destruct b|].
  rewrite str_app_cons. simpl. destruct (ascii_dec c c); [exact IH | contradiction].
Qed.

Lemma prefix_split (p s : string) : String.prefix p s = true -> exists b, s = p +:+ b.
Proof.
  revert s. induction p as [|c p IH]; intros s H.
  - exists s. reflexivity.
  - destruct s as [|c' s]; [discriminate|]. simpl in H.
    destruct (ascii_dec c c') as [->|]; [|discriminate].
    destruct (IH s H) as [b ->]. exists b. reflexivity.
Qed.

Lemma prefix_nil_r (p : string) : p <> EmptyString -> String.prefix p EmptyString = false.
Proof. now destruct p. Qed.

(** Characters already matched are dropped. *)
Lemma sub_from_drop (pat repl x b : string) :
  sub_from pat repl (String.length x) (x +:+ b) = sub_from pat repl 0 b.
Proof.
  induction x as [|c x IH]; [now destruct b|]. rewrite str_app_cons. simpl. exact IH.
Qed.

Lemma re_sub_nil (pat repl : string) : pat <> EmptyString -> re_sub pat repl EmptyString = EmptyString.
Proof. now destruct pat. Qed.

Lemma re_sub_match (pat repl b : string) :
  pat <> EmptyString -> re_sub pat repl (pat +:+ b) = repl +:+ re_sub pat repl b.
Proof.
  destruct pat as [|c pat]; [contradiction|]. intros _. unfold re_sub.
  rewrite str_app_cons. cbn [sub_from]. rewrite <- str_app_cons, prefix_app.
  replace (String.length (String c pat) - 1)%nat with (String.length pat) by (simpl; lia).
  now rewrite sub_from_drop.
Qed.

Lemma re_sub_skip (pat repl : string) (c : ascii) (s : string) :
  pat <> EmptyString -> String.prefix pat (String c s) = false ->
  re_sub pat repl (String c s) = String c (re_sub pat repl s).
Proof.
  destruct pat as [|c' pat]; [contradiction|]. intros _ H. unfold re_sub.
  cbn [sub_from]. now rewrite H.
Qed.


Lemma str_in_cons (pat : string) (c : ascii) (s : string) :
  str_in pat (String c s) = String.prefix pat (String c s) || str_in pat s.
Proof. reflexivity. Qed.

Lemma str_in_nil_pattern (s : string) : str_in EmptyString s = true.
Proof. now destruct s. Qed.

Lemma re_sub_absent (pat repl s : string) :
  str_in pat s = false -> re_sub pat repl s = s.
Proof.
  intros H. assert (Hp : pat <> EmptyString).
  { intros ->. now rewrite str_in_nil_pattern in H. }
  induction s as [|c s IH]; [now apply re_sub_nil|].
  rewrite str_in_cons in H. apply orb_false_elim in H as [H1 H2].
  rewrite re_sub_skip by assumption. now rewrite IH.
Qed.

Lemma has_char_app (d : ascii) (s t : string) :
  has_char d (s +:+ t) = has_char d s || has_char d t.
Proof.
  induction s as [|c s IH]; [reflexivity|]. rewrite str_app_cons. simpl.
  now rewrite IH, orb_assoc.
Qed.

Lemma plain_token_no_char (d : ascii) (s : string) :
  is_alnum d = false -> plain_token s = true -> has_char d s = false.
Proof.
  intros Hd. induction s as [|c s IH]; [reflexivity|]. simpl.
  intros H. apply andb_prop in H as [Hc Hs]. rewrite (IH Hs), orb_false_r.
  destruct (Ascii.eqb_spec c d) as [->|]; [congruence | reflexivity].
Qed.

(** A pattern without [d] that starts [x ++ d :: b] lies within [x]. *)
Lemma prefix_before_delim (pat x b : string) (d : ascii) :
  has_char d pat = false ->
  String.prefix pat (x +:+ String d b) = String.prefix pat x.
Proof.
  revert x. induction pat as [|c pat IH]; intros x H; [now destruct x|].
  simpl in H. apply orb_false_elim in H as [Hc Hp].
  destruct x as [|c' x].
  - rewrite str_app_nil_l. simpl. destruct (ascii_dec c d) as [->|]; [|reflexivity].
    now rewrite Ascii.eqb_refl in Hc.
  - rewrite str_app_cons. simpl. destruct (ascii_dec c c'); [now apply IH | reflexivity].
Qed.

Lemma sub_from_delim (pat repl : string) (d : ascii) (b : string) :
  pat <> EmptyString -> has_char d pat = false ->
  forall (a : string) (skip : nat), (skip <= String.length a)%nat ->
  sub_from pat repl skip (a +:+ String d b)
  = sub_from pat repl skip a +:+ String d (sub_from pat repl 0 b).
Proof.
  intros Hp Hd. induction a as [|c a IH]; intros skip Hs.
  - simpl in Hs. assert (skip = 0%nat) as -> by lia. rewrite str_app_nil_l.
    cbn [sub_from]. rewrite <- (str_app_nil_l (String d b)), prefix_before_delim by assumption.
    rewrite prefix_nil_r by assumption. reflexivity.
  - rewrite str_app_cons. destruct skip as [|n].
    + cbn [sub_from]. rewrite <- str_app_cons, prefix_before_delim by assumption.
      destruct (String.prefix pat (String c a)) eqn:E.
      * rewrite IH.
        -- now rewrite str_app_assoc.
        -- apply prefix_split in E as [b' E]. apply (f_equal String.length) in E.
           rewrite str_length_app in E. simpl in E. lia.
      * rewrite (IH 0%nat) by lia. reflexivity.
    + cbn [sub_from]. apply IH. simpl in Hs. lia.
Qed.

(** Substitution works segment by segment across a character that the
    pattern does not contain. *)
Lemma re_sub_delim (pat repl a b : string) (d : ascii) :
  pat <> EmptyString -> has_char d pat = false ->
  re_sub pat repl (a +:+ String d b) = re_sub pat repl a +:+ String d (re_sub pat repl b).
Proof.
  intros Hp Hd. destruct pat as [|c pat]; [contradiction|]. unfold re_sub.
  apply sub_from_delim; [assumption | assumption | lia].
Qed.




Lemma re_sub_whole (pat repl : string) : pat <> EmptyString -> re_sub pat repl pat = repl.
Proof.
  intros Hp. rewrite <- (str_app_nil_r pat) at 2. rewrite re_sub_match by assumption.
  now rewrite re_sub_nil, str_app_nil_r.
Qed.

(** ** File names *)



Lemma str_join_cons (sep p : string) (ps : list string) :
  ps <> [] -> str_join sep (p :: ps) = p +:+ sep +:+ str_join sep ps.
Proof. now destruct ps. Qed.

Lemma str_join_snoc (sep : string) (ps : list string) (v : string) :
  ps <> [] -> str_join sep (ps ++ [v]) = str_join sep ps +:+ sep +:+ v.
Proof.
  induction ps as [|p ps IH]; [contradiction|]. intros _.
  destruct ps as [|q ps]; [reflexivity|].
  change ((p :: q :: ps) ++ [v])%list with (p :: ((q :: ps) ++ [v]))%list.
  rewrite str_join_cons by now destruct ps.
  rewrite IH by discriminate. rewrite (str_join_cons sep p (q :: ps)) by discriminate.
  now rewrite !str_app_assoc.
Qed.

(** The name built by lines 127-130 is the joined list of its segments. *)
Lemma fold_left_join (firsts pre : list string) :
  pre <> [] ->
  fold_left (fun this_filename v => this_filename +:+ "_" +:+ v) firsts (str_join "_" pre)
  = str_join "_" (pre ++ firsts).
Proof.
  revert pre. induction firsts as [|v vs IH]; intros pre Hpre.
  - now rewrite List.app_nil_r.
  - simpl. rewrite <- str_join_snoc by assumption. rewrite IH by now destruct pre.
    now rewrite <- List.app_assoc.
Qed.

Lemma re_sub_join (pat repl : string) (segments : list string) :
  pat <> EmptyString -> has_char "_" pat = false ->
  re_sub pat repl (str_join "_" segments)
  = str_join "_" (map (re_sub pat repl) segments).
Proof.
  intros Hp Hd. induction segments as [|p ps IH]; [now apply re_sub_nil|].
  destruct ps as [|q ps]; [reflexivity|].
  rewrite str_join_cons by discriminate. change ("_" +:+ ?x) with (String "_" x).
  rewrite re_sub_delim by assumption. rewrite IH.
  change (map (re_sub pat repl) (p :: q :: ps))
    with (re_sub pat repl p :: map (re_sub pat repl) (q :: ps)).
  now rewrite str_join_cons by discriminate.
Qed.

Lemma re_sub_file_name (pat repl : string) (segments : list string) :
  pat <> EmptyString -> has_char "_" pat = false -> has_char "." pat = false ->
  re_sub pat repl (file_name segments)
  = str_join "_" (map (re_sub pat repl) segments) +:+ "." +:+ re_sub pat repl "jpg".
Proof.
  intros Hp Hu Hd. unfold file_name. change ".jpg" with (String "." "jpg").
  rewrite re_sub_delim by assumption. now rewrite re_sub_join.
Qed.




Lemma map_fixed_iff {X : Type} (f : X -> X) (l : list X) :
  map f l = l <-> Forall (fun x => f x = x) l.
Proof.
  induction l as [|x l IH]; [split; constructor|]. simpl. split.
  - intros E. injection E as E1 E2. constructor; [assumption | now apply IH].
  - intros H. inversion H; subst. f_equal; [assumption | now apply IH].
Qed.





Lemma re_sub_target (tok repl : string) (before after : list string) :
  tok <> EmptyString -> has_char "_" tok = false -> has_char "." tok = false ->
  Forall (fun seg => str_in tok seg = false) (before ++ after) ->
  str_in tok "jpg" = false ->
  re_sub tok repl (file_name (before ++ tok :: after)) = file_name (before ++ repl :: after).
Proof.
  intros Ht Hu Hd Hs Hj. rewrite re_sub_file_name by assumption.
  apply Forall_app in Hs as [H1 H2]. rewrite map_app. simpl map.
  rewrite re_sub_whole by assumption. rewrite (re_sub_absent tok repl "jpg" Hj).
  unfold file_name. do 2 f_equal. f_equal; [|f_equal].
  - apply map_fixed_iff. eapply Forall_impl; [exact H1|]. intros seg. apply re_sub_absent.
  - apply map_fixed_iff. eapply Forall_impl; [exact H2|]. intros seg. apply re_sub_absent.
Qed.

Lemma initial_filename_segments (filename_root : string) (k : Z) (names : list (list string))
    (firsts : list string) :
  comprehension (fun pair => py_index pair 0) names = Val firsts ->
  initial_filename filename_root k names
  = Val (file_name (filename_root :: ("morph" +:+ str k) :: firsts)).
Proof.
  intros H. unfold initial_filename. rewrite H. f_equal. unfold file_name. f_equal.
  change (filename_root +:+ "_morph" +:+ str k)
    with (str_join "_" [filename_root; "morph" +:+ str k]).
  now rewrite fold_left_join.
Qed.

(** ** Half of the window *)

Lemma half_window_nonneg (cfg : config) :
  0 <= quick_change_length_frames cfg ->
  half_window cfg = quick_change_length_frames cfg / 2.
Proof.
  intros H. unfold half_window. rewrite py_int_nonneg.
  - unfold Qfloor. simpl. now rewrite Z.mul_1_r.
  - unfold Qle. simpl. lia.
Qed.


Lemma in_window_spec (cfg : config) (o k : Z) :
  in_window cfg o k = true <-> o - half_window cfg <= k < o + half_window cfg.
Proof. unfold in_window. rewrite andb_true_iff, Z.leb_le, Z.ltb_lt. tauto. Qed.



(** ** Monad laws *)


Lemma bind_val {ext : externals} {A B : Type} (m : M ext A) (k : A -> M ext B)
    (w w' : world ext) (a : A) :
  m w = (Val a, w') -> bind m k w = k a w'.
Proof. intros H. unfold bind. now rewrite H. Qed.

Lemma bind_exc {ext : externals} {A B : Type} (m : M ext A) (k : A -> M ext B)
    (w w' : world ext) (e : exn) :
  m w = (Exc e, w') -> bind m k w = (Exc e, w').
Proof. intros H. unfold bind. now rewrite H. Qed.


(** ** One feature dimension (C1) *)



(** ** A scene without feature dimensions (C2) *)

(** C2 fails on the code: for a scene of two stills, [Img01_Orange.jpg] and
    [Img01_Yellow.jpg], the colour segment carries the extension, no still
    passes the test of line 99 against the bare colour name, no colour morph
    is made, and opening the picture of frame 0 raises; no frame is
    produced, whichever way the colours were shuffled. *)
Theorem no_feature_scene_fails (ints : list nat) (draws : list Q) :
  fst (main (Sample.collaborators Sample.first_seen) source_config Sample.plain_scene
         (Sample.start ints draws))
  = Exc (FileNotFoundError "Img01_morph0.jpg") /\
  temp_dir (snd (main (Sample.collaborators Sample.first_seen) source_config Sample.plain_scene
                   (Sample.start ints draws))) = ∅ /\
  morph_dir (snd (main (Sample.collaborators Sample.first_seen) source_config Sample.plain_scene
                    (Sample.start ints draws))) = ∅.
Proof. destruct ints as [|[|[|j]] ints]; vm_compute; repeat split; reflexivity. Qed.

(** ** What a computation leaves of the world *)

Section Steps.
Context {ext : externals}.

Lemma steps_ret {A : Type} (R : relation (world ext)) `{!Reflexive R} (a : A) :
  steps R (ret a).
Proof. intros w. reflexivity. Qed.

Lemma steps_lift {A : Type} (R : relation (world ext)) `{!Reflexive R} (o : outcome A) :
  steps R (lift o).
Proof. intros w. reflexivity. Qed.

Lemma steps_raise {A : Type} (R : relation (world ext)) `{!Reflexive R} (e : exn) :
  steps R (raise (A := A) e).
Proof. intros w. reflexivity. Qed.

Lemma steps_bind {A B : Type} (R : relation (world ext)) `{!Transitive R}
    (m : M ext A) (k : A -> M ext B) :
  steps R m -> (forall a, steps R (k a)) -> steps R (bind m k).
Proof.
  intros Hm Hk w. unfold bind. specialize (Hm w).
  destruct (m w) as [[a|e] w']; simpl in *; [|assumption].
  transitivity w'; [assumption | apply Hk].
Qed.

Lemma steps_for_each {X : Type} (R : relation (world ext)) `{!PreOrder R}
    (xs : list X) (body : X -> M ext unit) :
  (forall x, x ∈ xs -> steps R (body x)) -> steps R (for_each xs body).
Proof.
  induction xs as [|x xs IH]; intros H; simpl.
  - apply steps_ret; apply _.
  - apply steps_bind; [apply _ | apply H; left | intros _; apply IH].
    intros y Hy. apply H. now right.
Qed.

Lemma steps_fold_for {X S : Type} (R : relation (world ext)) `{!PreOrder R}
    (xs : list X) (body : S -> X -> M ext S) (s : S) :
  (forall s x, x ∈ xs -> steps R (body s x)) -> steps R (fold_for xs body s).
Proof.
  revert s. induction xs as [|x xs IH]; intros s H; simpl.
  - apply steps_ret; apply _.
  - apply steps_bind; [apply _ | apply H; left | intros s'; apply IH].
    intros s'' y Hy. apply H. now right.
Qed.

#[export] Instance keeps_preorder {X : Type} (f : world ext -> X) : PreOrder (keeps f).
Proof. split; unfold keeps; [intros w; reflexivity | intros a b c H1 H2; congruence]. Qed.

End Steps.

(** Decomposes [steps R m] along the structure of [m]. *)
Ltac steps_structure :=
  repeat match goal with
    | |- steps _ (ret _) => apply steps_ret; apply _
    | |- steps _ (lift _) => apply steps_lift; apply _
    | |- steps _ (raise _) => apply steps_raise; apply _
    | |- steps _ (bind _ _) => apply steps_bind; [apply _ | | intros ?]
    | |- steps _ (for_each _ _) => apply steps_for_each; [apply _ | intros ? ?]
    | |- steps _ (fold_for _ _ _) => apply steps_fold_for; [apply _ | intros ? ? ?]
    | |- steps _ (if ?b then _ else _) => destruct b
    | |- steps _ (match ?x with _ => _ end) => destruct x
    end.

Section Keeps.
Context {ext : externals} (cfg : config).

Lemma shuffle_keeps {X Y : Type} (f : world ext -> Y)
    (Hf : forall g w, f (set_generator ext g w) = f w) (x : list X) :
  steps (keeps f) (shuffle ext x).
Proof.
  unfold shuffle. generalize (length x - 1)%nat. intros i. revert x.
  induction i as [|i IH]; intros x; simpl.
  - apply steps_ret; apply _.
  - apply steps_bind; [apply _ | | intros j; apply IH].
    intros w. unfold rand_interval, keeps. destruct (random_interval ext (S i) (generator w)).
    apply Hf.
Qed.

Lemma make_plan_keeps {Y : Type} (f : world ext -> Y)
    (Hf : forall g w, f (set_generator ext g w) = f w) (these_file_names : list string) :
  steps (keeps f) (make_plan ext cfg these_file_names).
Proof. unfold make_plan. steps_structure; apply shuffle_keeps; assumption. Qed.

Lemma write_readme_keeps {Y : Type} (f : world ext -> Y)
    (Hf : forall s w, f (set_readme_txt ext s w) = f w) (filename_root : string) (p : plan) :
  steps (keeps f) (write_readme ext filename_root p).
Proof.
  unfold write_readme. steps_structure;
    try (intros w; unfold keeps, readme_write; simpl; now rewrite ?Hf).
Qed.

Lemma slow_change_morphs_keeps {Y : Type} (f : world ext -> Y)
    (Hf : forall d w, f (set_temp_dir ext d w) = f w)
    (jpg_dir : list (string * image)) (these_file_names : list string) (p : plan) :
  steps (keeps f) (slow_change_morphs ext cfg jpg_dir these_file_names p).
Proof.
  unfold slow_change_morphs, morph_pair, open_still. steps_structure.
  intros w. unfold keeps, save_temp. simpl. apply Hf.
Qed.

End Keeps.

Section Manifest.
Context {ext : externals} (cfg : config).

#[export] Instance readme_grows_preorder : PreOrder (readme_grows (ext := ext)).
Proof.
  split.
  - intros w. exists EmptyString. now rewrite str_app_nil_r.
  - intros a b c [t Ht] [u Hu]. exists (t +:+ u). now rewrite Hu, Ht, str_app_assoc.
Qed.

Lemma readme_write_grows (s : string) : steps readme_grows (readme_write ext s).
Proof. intros w. now exists s. Qed.




End Manifest.

(** ** A missing still (C6) *)





Section Batch.
Context {ext : externals} (cfg : config).

(** A loop stops at the first pass that raises. *)
Lemma for_each_stops {X : Type} (xs ys : list X) (r : X) (body : X -> M ext unit)
    (w w1 w2 : world ext) (e : exn) :
  for_each xs body w = (Val tt, w1) ->
  body r w1 = (Exc e, w2) ->
  for_each (xs ++ r :: ys) body w = (Exc e, w2).
Proof.
  revert w. induction xs as [|x xs IH]; intros w Hxs Hr; simpl in *.
  - injection Hxs as <-. now apply bind_exc.
  - unfold bind in *. destruct (body x w) as [[[]|e'] w']; [now apply IH | discriminate].
Qed.

Lemma for_each_total {X : Type} (xs : list X) (body : X -> M ext unit) :
  (forall x w, exists w', body x w = (Val tt, w')) ->
  forall w, exists w', for_each xs body w = (Val tt, w').
Proof.
  intros Hbody. induction xs as [|x xs IH]; intros w; simpl.
  - now exists w.
  - destruct (Hbody x w) as [w' Hw']. rewrite (bind_val _ _ w w' tt Hw'). apply IH.
Qed.

Lemma make_video_write_total (s : string) (w : world ext) :
  exists w', make_video_write ext s w = (Val tt, w').
Proof. now eexists. Qed.

Lemma write_make_video_total (filename_root : string) (w : world ext) :
  exists w', write_make_video ext cfg filename_root w = (Val tt, w').
Proof.
  unfold write_make_video. unfold bind at 1. cbv beta iota.
  assert (H : forall w0 : world ext, exists w',
             (for_each (py_range (no_change_in_frames cfg)) (fun _ =>
                make_video_write ext
                  ("file '" +:+ morph_path cfg +:+ "/" +:+ filename_root +:+ "_morph0.tif'" +:+ nl)) ;;;
              make_video_write ext ("file '" +:+ filename_root +:+ "_morph%d.tif'" +:+ nl) ;;;
              for_each (py_range (no_change_in_frames cfg)) (fun _ =>
                make_video_write ext
                  ("file '" +:+ morph_path cfg +:+ "/" +:+ filename_root +:+ "_morph"
                   +:+ str (number_of_morph_steps cfg) +:+ ".tif'" +:+ nl))) w0
             = (Val tt, w')).
  { intros w0. unfold bind.
    destruct (for_each_total (py_range (no_change_in_frames cfg))
                (fun _ => make_video_write ext
                   ("file '" +:+ morph_path cfg +:+ "/" +:+ filename_root +:+ "_morph0.tif'" +:+ nl))
                (fun x w' => make_video_write_total _ w') w0) as [wa ->].
    unfold make_video_write at 1. cbv beta iota.
    match goal with |- context [for_each ?l ?b ?w1] =>
      destruct (for_each_total l b (fun x w' => make_video_write_total _ w') w1) as [wb ->]
    end.
    now exists wb. }
  destruct (0 <? String.length (make_video_txt w))%nat.
  - unfold bind at 1, make_video_write at 1. cbv beta iota. apply H.
  - unfold bind at 1, ret at 1. cbv beta iota. apply H.
Qed.

Lemma write_make_video_keeps {Y : Type} (f : world ext -> Y)
    (Hf : forall s w, f (set_make_video_txt ext s w) = f w) (filename_root : string) :
  steps (keeps f) (write_make_video ext cfg filename_root).
Proof.
  unfold write_make_video. steps_structure;
    try (intros w; unfold keeps, make_video_write; simpl; now rewrite ?Hf).
Qed.

(** The last stage returns normally whatever the encoder replies, and prints
    the reply. *)
Lemma assemble_reports (filename_root : string) (frame : image) (w : world ext) :
  exists (w' : world ext) (frame_list : string),
    assemble ext cfg filename_root (Some frame) w = (Val tt, w') /\
    console w'
    = (console w
       ++ ["Attempt to turn frames into a movie returned the following reply: "
           +:+ ffmpeg ext (my_shell_command cfg filename_root (shape frame))
                 (morph_dir w) frame_list])%list.
Proof.
  destruct (write_make_video_total filename_root w) as [wv Hv].
  pose proof (write_make_video_keeps morph_dir (fun _ _ => eq_refl) filename_root w) as Km.
  pose proof (write_make_video_keeps console (fun _ _ => eq_refl) filename_root w) as Kc.
  unfold keeps in *. rewrite Hv in Km, Kc. simpl in Km, Kc.
  eexists _, (make_video_txt wv). unfold assemble.
  rewrite (bind_val _ _ w wv tt Hv). unfold encode, bind, print, clean_up. simpl.
  split; [reflexivity|]. simpl. now rewrite Km, Kc.
Qed.

End Batch.

(** ** The batch (C7) *)

(** C7 (amended): an exception raised while a scene is processed is not
    caught: the script ends there, in the world of the failure, and the
    scenes after it are not processed.  The encoder stage returns normally
    whatever ffmpeg does and prints what ffmpeg wrote to its standard
    error, so a scene whose frames were synthesized completes and the loop
    goes on. *)
Theorem batch_stops_encoder_reported (ext : externals) (cfg : config)
    (jpg_dir : list (string * image)) :
  (forall (step : Q) (xs ys : list string) (r : string) (w w1 w2 : world ext) (e : exn),
     change_step cfg = Val step ->
     set_order ext (map root_of
                      (filter (fun element => str_in ".jpg" element = true) (map fst jpg_dir)))
     = (xs ++ r :: ys)%list ->
     for_each xs
       (process_scene ext cfg step jpg_dir
          (filter (fun element => str_in ".jpg" element = true) (map fst jpg_dir))) w
     = (Val tt, w1) ->
     process_scene ext cfg step jpg_dir
       (filter (fun element => str_in ".jpg" element = true) (map fst jpg_dir)) r w1
     = (Exc e, w2) ->
     main ext cfg jpg_dir w = (Exc e, w2)) /\
  (forall (filename_root : string) (frame : image) (w : world ext),
     exists (w' : world ext) (frame_list : string),
       assemble ext cfg filename_root (Some frame) w = (Val tt, w') /\
       console w'
       = (console w
          ++ ["Attempt to turn frames into a movie returned the following reply: "
              +:+ ffmpeg ext (my_shell_command cfg filename_root (shape frame))
                    (morph_dir w) frame_list])%list) /\
  (forall (step : Q) (jpg_file_names : list string) (filename_root : string) (frame : image)
          (w ws : world ext),
     synthesize ext cfg step jpg_dir jpg_file_names filename_root w = (Val (Some frame), ws) ->
     exists w' : world ext,
       process_scene ext cfg step jpg_dir jpg_file_names filename_root w = (Val tt, w')).
Proof.
  split; [|split].
  - intros step xs ys r w w1 w2 e Hstep Hroots Hxs Hr. unfold main.
    rewrite (bind_val _ _ w w step) by (unfold lift; now rewrite Hstep).
    rewrite Hroots. now apply (for_each_stops xs ys r _ w w1 w2 e).
  - intros filename_root frame w. apply assemble_reports.
  - intros step jpg_file_names filename_root frame w ws Hs. unfold process_scene.
    rewrite (bind_val _ _ w ws (Some frame) Hs).
    destruct (assemble_reports cfg filename_root frame ws) as (w' & _ & Ha & _).
    now exists w'.
Qed.

Lemma batch_stops_encoder_reported_witness :
  exists w2 : world (Sample.collaborators Sample.first_seen),
    main (Sample.collaborators Sample.first_seen) Sample.short_config Sample.broken_batch
      (Sample.start [1%nat; 1%nat] [1 # 2; 1 # 2])
    = (Exc (FileNotFoundError "Img01_Orange_b.jpg"), w2).
Proof.
  eexists.
  eapply (proj1 (batch_stops_encoder_reported (Sample.collaborators Sample.first_seen)
                   Sample.short_config Sample.broken_batch)
            (1 # 5) [] ["Img02"] "Img01" _ _ _ _).
  - reflexivity.
  - reflexivity.
  - reflexivity.
  - vm_compute. reflexivity.
Defined.

(** C7 as stated fails: the first scene of the batch lacks a still; the
    script ends with the exception, and of the second scene nothing is
    printed and nothing is written to the README. *)
Lemma batch_ends_at_broken_scene :
  fst (main (Sample.collaborators Sample.first_seen) Sample.short_config Sample.broken_batch
         (Sample.start [1%nat; 1%nat] [1 # 2; 1 # 2]))
  = Exc (FileNotFoundError "Img01_Orange_b.jpg") /\
  console (snd (main (Sample.collaborators Sample.first_seen) Sample.short_config
                  Sample.broken_batch (Sample.start [1%nat; 1%nat] [1 # 2; 1 # 2])))
  = ["working on file Img01"] /\
  str_in "Img02"
    (readme_txt (snd (main (Sample.collaborators Sample.first_seen) Sample.short_config
                        Sample.broken_batch (Sample.start [1%nat; 1%nat] [1 # 2; 1 # 2]))))
  = false.
Proof. vm_compute. repeat split; reflexivity. Qed.

(** ** Runs from agreeing worlds *)

Section Sim.
Context {ext : externals}.















End Sim.


Section SimScript.
Context {ext : externals} (cfg : config).




End SimScript.

(** ** Hoare triples *)

Section Triples.
Context {ext : externals}.









End Triples.

(** ** Shapes through the script *)

Section Shapes.
Context {ext : externals} (cfg : config).
Context (Hjpeg : shape_preserving (jpeg ext)) (Hresize : resize_to_size ext).
Context (h wd : nat) (Hh : (0 < h)%nat).


Lemma weighted_average_shape_of (A B m : image) (wA wB : Q) :
  shape A = (h, wd) -> shape B = (h, wd) -> weighted_average A B wA wB = Val m ->
  shape m = (h, wd).
Proof.
  intros HA HB Hm.
  destruct (weighted_average_keeps_shape A B wA wB) as (C & HC & Hs); [congruence|].
  congruence.
Qed.

Lemma image_data_morph_shape (k : Z) (A B m : image) :
  shape A = (h, wd) -> shape B = (h, wd) -> image_data_morph cfg k A B = Val m ->
  shape m = (h, wd).
Proof.
  intros HA HB. unfold image_data_morph.
  destruct (py_div _ _); [|discriminate]. destruct (py_div _ _); [|discriminate].
  now apply weighted_average_shape_of.
Qed.









End Shapes.

Lemma elem_of_py_range (n k : Z) : k ∈ py_range n <-> 0 <= k < n.
Proof.
  unfold py_range. rewrite list_elem_of_fmap. split.
  - intros (i & -> & Hi). apply elem_of_seq in Hi. lia.
  - intros Hk. exists (Z.to_nat k). split; [lia|]. apply elem_of_seq. lia.
Qed.

Lemma draw_quick_change_frames_keeps {ext : externals} {Y : Type} (cfg : config)
    (f : world ext -> Y) (Hf : forall g w, f (set_generator ext g w) = f w) (n : Z) :
  steps (keeps f) (draw_quick_change_frames ext cfg n).
Proof.
  unfold draw_quick_change_frames. steps_structure.
  intros w. unfold keeps, rand. destruct (random_sample ext (generator w)). apply Hf.
Qed.


(** ** Two runs (C9) *)




(** * Further properties

    What the script's own operations guarantee beyond the statements
    above. *)

(** ** Splitting and joining (lines 59, 65, 70, 75) *)

Lemma str_split_nonempty (d : ascii) (s : string) : str_split d s <> [].
Proof.
  induction s as [|c s IH]; simpl; [discriminate|].
  destruct (Ascii.eqb c d); [discriminate|]. now destruct (str_split d s).
Qed.

Lemma str_split_cons_other (d c : ascii) (s : string) :
  Ascii.eqb c d = false ->
  exists x xs, str_split d s = x :: xs /\ str_split d (String c s) = String c x :: xs.
Proof.
  intros H. simpl. rewrite H. destruct (str_split d s) as [|x xs] eqn:E.
  - now apply str_split_nonempty in E.
  - now exists x, xs.
Qed.

Lemma str_join_push (sep : string) (c : ascii) (x : string) (xs : list string) :
  str_join sep (String c x :: xs) = String c (str_join sep (x :: xs)).
Proof. destruct xs; reflexivity. Qed.

(** X1: joining the segments of [s.split(d)] with [d] gives [s] back. *)
Theorem join_of_split (d : ascii) (s : string) :
  str_join (String d EmptyString) (str_split d s) = s.
Proof.
  induction s as [|c s IH]; [reflexivity|].
  destruct (Ascii.eqb c d) eqn:E.
  - simpl. rewrite E. apply Ascii.eqb_eq in E as ->.
    rewrite str_join_cons by apply str_split_nonempty. now rewrite IH.
  - destruct (str_split_cons_other d c s E) as (x & xs & Hs & ->).
    rewrite str_join_push, <- Hs. now rewrite IH.
Qed.

Lemma str_split_no_delim (d : ascii) (p : string) :
  has_char d p = false -> str_split d p = [p].
Proof.
  induction p as [|c p IH]; [reflexivity|]. simpl. intros H.
  apply orb_false_elim in H as [Hc Hp]. now rewrite Hc, (IH Hp).
Qed.

Lemma str_split_at_delim (d : ascii) (p r : string) :
  has_char d p = false ->
  str_split d (p +:+ String d r) = p :: str_split d r.
Proof.
  induction p as [|c p IH]; intros H.
  - rewrite str_app_nil_l. simpl. now rewrite Ascii.eqb_refl.
  - simpl in H. apply orb_false_elim in H as [Hc Hp]. rewrite str_app_cons. simpl.
    now rewrite Hc, (IH Hp).
Qed.

(** X2: splitting a join of segments that are free of the separator gives
    the segments back. *)
Theorem split_of_join (d : ascii) (segments : list string) :
  segments <> [] ->
  Forall (fun seg => has_char d seg = false) segments ->
  str_split d (str_join (String d EmptyString) segments) = segments.
Proof.
  intros Hne H. induction H as [|p ps Hp Hps IH]; [contradiction|].
  destruct ps as [|q ps].
  - now apply str_split_no_delim.
  - rewrite str_join_cons by discriminate.
    change (String d EmptyString +:+ ?x) with (String d x).
    rewrite str_split_at_delim by assumption. now rewrite IH.
Qed.

Lemma split_of_join_witness :
  str_split "_" (str_join "_" ["Img01"; "Orange"; "yesWindow"; "noFlower.jpg"])
  = ["Img01"; "Orange"; "yesWindow"; "noFlower.jpg"].
Proof.
  apply (split_of_join "_" ["Img01"; "Orange"; "yesWindow"; "noFlower.jpg"]).
  - discriminate.
  - repeat constructor.
Defined.

Lemma str_split_length (d : ascii) (s : string) :
  length (str_split d s) = S (count_char d s).
Proof.
  induction s as [|c s IH]; [reflexivity|].
  destruct (Ascii.eqb c d) eqn:E.
  - simpl. rewrite E. simpl. now rewrite IH.
  - destruct (str_split_cons_other d c s E) as (x & xs & Hs & ->).
    rewrite Hs in IH. simpl count_char. rewrite E. exact IH.
Qed.

Lemma str_split_clean (d : ascii) (s : string) :
  Forall (fun seg => has_char d seg = false) (str_split d s).
Proof.
  induction s as [|c s IH]; [repeat constructor|].
  destruct (Ascii.eqb c d) eqn:E.
  - simpl. rewrite E. now constructor.
  - destruct (str_split_cons_other d c s E) as (x & xs & Hs & ->).
    rewrite Hs in IH. inversion IH; subst. constructor; [|assumption].
    simpl. now rewrite E.
Qed.

(** X3: [s.split(d)] has one segment more than [s] has occurrences of [d],
    and no segment contains [d]. *)
Theorem split_segments (d : ascii) (s : string) :
  length (str_split d s) = S (count_char d s) /\
  Forall (fun seg => has_char d seg = false) (str_split d s).
Proof. split; [apply str_split_length | apply str_split_clean]. Qed.

(** ** 8-bit channels (lines 111, 148) *)




(** ** Shuffling (lines 68, 80) *)

Lemma delete_insert_same {X : Type} (l : list X) (i : nat) (b : X) :
  delete i (<[i := b]> l) = delete i l.
Proof.
  revert i. induction l as [|a l IH]; intros [|i]; simpl; try reflexivity.
  f_equal. apply IH.
Qed.

Lemma insert_Permutation {X : Type} (l : list X) (i : nat) (a b : X) :
  l !! i = Some a -> <[i := b]> l ≡ₚ b :: delete i l.
Proof.
  intros H. rewrite <- (delete_insert_same l i b). apply delete_Permutation.
  apply list_lookup_insert_eq. now apply lookup_lt_Some in H.
Qed.

Lemma swap_Permutation {X : Type} (i j : nat) (x : list X) : swap i j x ≡ₚ x.
Proof.
  unfold swap. destruct (x !! i) as [a|] eqn:Hi; [|reflexivity].
  destruct (x !! j) as [b|] eqn:Hj; [|reflexivity].
  destruct (decide (i = j)) as [->|Hij].
  - rewrite list_insert_insert_eq. rewrite list_insert_id; [reflexivity|]. congruence.
  - assert (Hj' : <[i := b]> x !! j = Some b) by now rewrite list_lookup_insert_ne.
    etransitivity; [apply (insert_Permutation _ j b a Hj')|].
    etransitivity; [|symmetry; apply (delete_Permutation x i a Hi)].
    constructor. apply (Permutation_cons_inv (a := b)).
    etransitivity; [symmetry; apply (delete_Permutation _ j b Hj')|].
    now apply insert_Permutation with a.
Qed.

Lemma shuffle_from_Permutation {ext : externals} {X : Type} (i : nat) (x : list X)
    (w : world ext) :
  exists y g, shuffle_from ext i x w = (Val y, set_generator ext g w) /\ y ≡ₚ x.
Proof.
  revert x w. induction i as [|i IH]; intros x w; simpl.
  - exists x, (generator w). split; [now destruct w | reflexivity].
  - unfold bind, rand_interval.
    destruct (random_interval ext (S i) (generator w)) as [j g1].
    destruct (IH (swap (S i) j x) (set_generator ext g1 w)) as (y & g & E & P).
    exists y, g. split; [exact E|]. rewrite P. apply swap_Permutation.
Qed.

Lemma shuffle_Permutation {ext : externals} {X : Type} (x : list X) (w : world ext) :
  exists y g, shuffle ext x w = (Val y, set_generator ext g w) /\ y ≡ₚ x.
Proof. apply shuffle_from_Permutation. Qed.

(** X5: [numpy.random.shuffle] never raises, changes nothing but the
    generator, and returns the elements it was given, in some order. *)
Theorem shuffle_rearranges {ext : externals} {X : Type} (x : list X) (w : world ext) :
  exists (y : list X) (g : rng ext),
    shuffle ext x w = (Val y, set_generator ext g w) /\ y ≡ₚ x /\ length y = length x.
Proof.
  destruct (shuffle_Permutation x w) as (y & g & E & P).
  exists y, g. repeat split; [exact E | exact P | now rewrite P].
Qed.

(** ** The plan of a scene (lines 67-80) *)

Lemma comprehension_length {X Y : Type} (f : X -> outcome Y) (xs : list X) (ys : list Y) :
  comprehension f xs = Val ys -> length ys = length xs.
Proof.
  revert ys. induction xs as [|x xs IH]; intros ys; simpl.
  - intros E. now injection E as <-.
  - destruct (f x); [|discriminate]. destruct (comprehension f xs); [|discriminate].
    intros E. injection E as <-. simpl. f_equal. now apply IH.
Qed.

Lemma py_range_length (n : Z) : length (py_range n) = Z.to_nat n.
Proof. unfold py_range. now rewrite length_map, length_seq. Qed.

(** X6: a plan that is made has the two colours of the colour name in some
    order, one quick change per underscore of the first file name but the
    first, and the feature values in shuffled order the same as in name
    order. *)
Theorem plan_of_scene (ext : externals) (cfg : config) (these_file_names : list string)
    (p : plan) (w w' : world ext) :
  make_plan ext cfg these_file_names w = (Val p, w') ->
  (exists c0 c1 more,
      str_split "_" (color cfg) = c0 :: c1 :: more /\ slow_change_options p ≡ₚ [c0; c1]) /\
  (exists first others,
      these_file_names = first :: others /\
      num_quick_changes p = Z.of_nat (count_char "_" first) - 1) /\
  all_quick_change_options p ≡ₚ quick_changes_in_name_order p /\
  length (quick_changes_in_name_order p) = Z.to_nat (num_quick_changes p).
Proof.
  unfold make_plan, bind, lift, py_index.
  destruct (str_split "_" (color cfg)) as [|c0 [|c1 more]] eqn:Ec; simpl; try discriminate.
  destruct (shuffle_Permutation [c0; c1] w) as (slow & g1 & -> & Ps).
  destruct these_file_names as [|first others]; simpl; [discriminate|].
  destruct (comprehension _ _) as [options|] eqn:Eo; [|discriminate].
  destruct (shuffle_Permutation options (set_generator ext g1 w)) as (shuffled & g2 & -> & Po).
  unfold ret. intros E. injection E as <- _. simpl.
  split; [now exists c0, c1, more|]. split.
  - exists first, others. split; [reflexivity|]. rewrite str_split_length. lia.
  - split; [exact Po|]. apply comprehension_length in Eo. now rewrite Eo, py_range_length.
Qed.

Lemma plan_of_scene_witness :
  let p := Steady.two_feature_plan in
  all_quick_change_options p ≡ₚ quick_changes_in_name_order p /\
  length (quick_changes_in_name_order p) = Z.to_nat (num_quick_changes p).
Proof.
  intros p.
  destruct (plan_of_scene (Sample.collaborators Sample.first_seen) source_config
              (map fst Sample.two_feature_scene) p
              (Sample.start [0%nat; 0%nat] [])
              (snd (make_plan (Sample.collaborators Sample.first_seen) source_config
                      (map fst Sample.two_feature_scene) (Sample.start [0%nat; 0%nat] [])))
              ltac:(vm_compute; reflexivity)) as (_ & _ & H3 & H4).
  split; assumption.
Defined.

(** ** The README only grows (lines 84-96) *)

Section Grows.
Context {ext : externals} (cfg : config).

Lemma keeps_grows {A : Type} (m : M ext A) :
  steps (keeps readme_txt) m -> steps readme_grows m.
Proof. intros H w. exists EmptyString. rewrite (H w). now rewrite str_app_nil_r. Qed.

Lemma write_readme_grows (filename_root : string) (p : plan) :
  steps readme_grows (write_readme ext filename_root p).
Proof.
  unfold write_readme. steps_structure; try apply readme_write_grows.
  intros w. reflexivity.
Qed.

Lemma quick_change_keeps {Y : Type} (f : world ext -> Y)
    (Hf : forall d w, f (set_temp_dir ext d w) = f w)
    (step : Q) (frames : list Z) (k : Z) (name : string) (entry : nat * list string) :
  steps (keeps f) (quick_change ext cfg step frames k name entry).
Proof.
  unfold quick_change. destruct entry as [idx pair]. steps_structure;
    try (intros w; unfold keeps, open_temp, save_temp; simpl;
         first [apply Hf | now destruct (temp_dir w !! _)]).
Qed.

Lemma select_frames_keeps {Y : Type} (f : world ext -> Y)
    (Ht : forall d w, f (set_temp_dir ext d w) = f w)
    (Hm : forall d w, f (set_morph_dir ext d w) = f w)
    (step : Q) (filename_root : string) (p : plan) (frames : list Z) :
  steps (keeps f) (select_frames ext cfg step filename_root p frames).
Proof.
  unfold select_frames, select_filename, emit_frame. steps_structure;
    try (apply quick_change_keeps; assumption);
    try (intros w; unfold keeps, open_temp, save_tif; simpl;
         first [apply Hm | now destruct (temp_dir w !! _)]).
Qed.

Lemma synthesize_grows (step : Q) (jpg_dir : list (string * image))
    (jpg_file_names : list string) (filename_root : string) :
  steps readme_grows (synthesize ext cfg step jpg_dir jpg_file_names filename_root).
Proof.
  unfold synthesize. steps_structure.
  - apply keeps_grows. intros w. reflexivity.
  - apply keeps_grows, make_plan_keeps. reflexivity.
  - apply write_readme_grows.
  - apply keeps_grows, slow_change_morphs_keeps. reflexivity.
  - apply keeps_grows, draw_quick_change_frames_keeps. reflexivity.
  - apply keeps_grows, select_frames_keeps; reflexivity.
Qed.

Lemma assemble_grows (filename_root : string) (frame : option image) :
  steps readme_grows (assemble ext cfg filename_root frame).
Proof.
  unfold assemble. steps_structure.
  - apply keeps_grows, write_make_video_keeps. reflexivity.
  - apply keeps_grows. unfold encode. destruct frame; steps_structure; intros w; reflexivity.
  - apply keeps_grows. intros w. reflexivity.
Qed.

End Grows.

(** X7: whatever the script does and however it ends, the README it leaves
    starts with the README it found. *)
Theorem readme_only_grows (ext : externals) (cfg : config) (jpg_dir : list (string * image))
    (w : world ext) :
  exists entries : string,
    readme_txt (snd (main ext cfg jpg_dir w)) = readme_txt w +:+ entries.
Proof.
  revert w. change (steps readme_grows (main ext cfg jpg_dir)).
  unfold main, process_scene. steps_structure.
  - apply synthesize_grows.
  - apply assemble_grows.
Qed.

(** ** Clean-up (lines 196-203) *)

(** X8: after a scene that is processed without an exception the scratch
    directory is empty, the frame list is empty and no [.tif] file is left
    among the frames. *)
Theorem scene_leaves_no_scratch (ext : externals) (cfg : config) (step : Q)
    (jpg_dir : list (string * image)) (jpg_file_names : list string) (filename_root : string)
    (w w' : world ext) :
  process_scene ext cfg step jpg_dir jpg_file_names filename_root w = (Val tt, w') ->
  temp_dir w' = ∅ /\
  make_video_txt w' = EmptyString /\
  (forall name, str_in ".tif" name = true -> morph_dir w' !! name = None).
Proof.
  unfold process_scene, assemble, bind.
  destruct (synthesize _ _ _ _ _ _ _) as [[frame|] w1]; [|discriminate].
  destruct (write_make_video _ _ _ _) as [[[]|] w2]; [|discriminate].
  destruct (encode _ _ _ _ _) as [[[]|] w3]; [|discriminate].
  unfold clean_up. intros E. injection E as <-. simpl. repeat split.
  intros name Hn. apply map_lookup_filter_None. right. intros img _. simpl. congruence.
Qed.

Lemma scene_leaves_no_scratch_witness :
  let w' := snd (process_scene (Sample.collaborators Sample.first_seen) Sample.short_config (1 # 5)
                   Steady.one_feature_scene (map fst Steady.one_feature_scene) "Img02"
                   (Sample.start [1%nat; 1%nat] [1 # 2])) in
  temp_dir w' = ∅ /\ make_video_txt w' = EmptyString /\
  (forall name, str_in ".tif" name = true -> morph_dir w' !! name = None).
Proof.
  intros w'.
  apply (scene_leaves_no_scratch (Sample.collaborators Sample.first_seen) Sample.short_config
           (1 # 5) Steady.one_feature_scene (map fst Steady.one_feature_scene) "Img02"
           (Sample.start [1%nat; 1%nat] [1 # 2]) w').
  vm_compute. reflexivity.
Defined.

(** ** The frame list (lines 171-182) *)

Lemma for_each_make_video_write {ext : externals} {X : Type} (s : string) (xs : list X)
    (w : world ext) :
  for_each xs (fun _ => make_video_write ext s) w
  = (Val tt, set_make_video_txt ext (make_video_txt w +:+ str_repeat s (length xs)) w).
Proof.
  revert w. induction xs as [|x xs IH]; intros w; simpl.
  - unfold ret. rewrite str_app_nil_r. now destruct w.
  - unfold bind, make_video_write at 1. rewrite IH. destruct w. simpl.
    unfold set_make_video_txt. simpl. now rewrite str_app_assoc.
Qed.

(** X9: the frame list gets a separating newline if it was not empty,
    then [no_change_in_frames] lines that hold the first frame, the line
    of the frame pattern, and [no_change_in_frames] lines that hold the
    last frame. *)
Theorem frame_list_lines (ext : externals) (cfg : config) (filename_root : string)
    (w : world ext) :
  let hold_first := "file '" +:+ morph_path cfg +:+ "/" +:+ filename_root +:+ "_morph0.tif'" +:+ nl in
  let in_between := "file '" +:+ filename_root +:+ "_morph%d.tif'" +:+ nl in
  let hold_last := "file '" +:+ morph_path cfg +:+ "/" +:+ filename_root +:+ "_morph"
                   +:+ str (number_of_morph_steps cfg) +:+ ".tif'" +:+ nl in
  let separator := if (0 <? String.length (make_video_txt w))%nat then nl else EmptyString in
  write_make_video ext cfg filename_root w
  = (Val tt,
     set_make_video_txt ext
       (make_video_txt w +:+ separator
        +:+ str_repeat hold_first (Z.to_nat (no_change_in_frames cfg))
        +:+ in_between
        +:+ str_repeat hold_last (Z.to_nat (no_change_in_frames cfg))) w).
Proof.
  intros hold_first in_between hold_last separator.
  unfold write_make_video. fold hold_first in_between hold_last.
  unfold bind at 1. cbv beta iota.
  assert (H : forall w0 : world ext,
             (for_each (py_range (no_change_in_frames cfg)) (fun _ =>
                make_video_write ext hold_first) ;;;
              make_video_write ext in_between ;;;
              for_each (py_range (no_change_in_frames cfg)) (fun _ =>
                make_video_write ext hold_last)) w0
             = (Val tt,
                set_make_video_txt ext
                  (make_video_txt w0
                   +:+ str_repeat hold_first (Z.to_nat (no_change_in_frames cfg))
                   +:+ in_between
                   +:+ str_repeat hold_last (Z.to_nat (no_change_in_frames cfg))) w0)).
  { intros w0. unfold bind. rewrite for_each_make_video_write.
    unfold make_video_write at 1. rewrite for_each_make_video_write.
    rewrite py_range_length. destruct w0. unfold set_make_video_txt. simpl.
    now rewrite !str_app_assoc. }
  subst separator. destruct (0 <? String.length (make_video_txt w))%nat.
  - unfold bind at 1, make_video_write at 1. cbv beta iota. rewrite H.
    destruct w. unfold set_make_video_txt. simpl. now rewrite !str_app_assoc.
  - unfold bind at 1, ret at 1. cbv beta iota. rewrite H. now rewrite str_app_nil_l.
Qed.

(** ** Edge cases of the batch (lines 58-67) *)

(** X10: with no name that contains [.jpg] in the input directory the
    script returns without a scene, and leaves the world as it was. *)
Theorem no_stills_no_work (ext : externals) (cfg : config) (jpg_dir : list (string * image))
    (w : world ext) :
  set_order_sound ext ->
  steps_per_second_video cfg <> -1 ->
  Forall (fun entry => str_in ".jpg" (fst entry) = false) jpg_dir ->
  main ext cfg jpg_dir w = (Val tt, w).
Proof.
  intros Hs Hn Hd. unfold main, bind, lift, change_step, py_div, quick_change_length_frames.
  destruct (Qeq_bool (inject_Z (steps_per_second_video cfg + 1)) 0) eqn:E.
  { apply Qeq_bool_iff in E. unfold Qeq in E. simpl in E. lia. }
  assert (F : filter (fun element => str_in ".jpg" element = true) (map fst jpg_dir) = []).
  { induction Hd as [|entry l He Hl IH]; [reflexivity|]. simpl.
    rewrite filter_cons. destruct (decide _) as [T|_]; [congruence | exact IH]. }
  rewrite F. simpl.
  destruct (set_order ext []) as [|r roots] eqn:Er; [reflexivity|].
  exfalso. apply (elem_of_nil r), Hs. rewrite Er. left.
Qed.

Lemma first_seen_sound : set_order_sound (Sample.collaborators Sample.first_seen).
Proof. intros xs x. simpl. unfold Sample.first_seen. now rewrite elem_of_remove_dups. Qed.

Lemma no_stills_no_work_witness :
  main (Sample.collaborators Sample.first_seen) source_config
    [("notes.txt", Sample.dot 0 0 0)] (Sample.start [] [])
  = (Val tt, Sample.start [] []).
Proof.
  apply (no_stills_no_work (Sample.collaborators Sample.first_seen) source_config
           [("notes.txt", Sample.dot 0 0 0)] (Sample.start [] []) first_seen_sound).
  - vm_compute. discriminate.
  - repeat constructor.
Defined.

(** X11: when the colour name has no underscore every scene raises
    [IndexError] at line 67, after its console line and before anything is
    written. *)
Theorem colour_pair_needs_underscore (ext : externals) (cfg : config) (step : Q)
    (jpg_dir : list (string * image)) (jpg_file_names : list string) (filename_root : string)
    (w : world ext) :
  has_char "_" (color cfg) = false ->
  process_scene ext cfg step jpg_dir jpg_file_names filename_root w
  = (Exc IndexError, set_console ext (console w ++ ["working on file " +:+ filename_root])%list w).
Proof.
  intros H. unfold process_scene, synthesize, bind, print, make_plan, bind, lift.
  now rewrite (str_split_no_delim _ _ H).
Qed.

Lemma colour_pair_needs_underscore_witness :
  process_scene (Sample.collaborators Sample.first_seen)
    Steady.one_colour_config (1 # 13)
    Sample.plain_scene (map fst Sample.plain_scene) "Img01" (Sample.start [] [])
  = (Exc IndexError,
     set_console _ (console (Sample.start [] []) ++ ["working on file Img01"])%list
       (Sample.start [] [])).
Proof.
  apply (colour_pair_needs_underscore (Sample.collaborators Sample.first_seen)
           Steady.one_colour_config).
  reflexivity.
Defined.

(** ** Frames before the first window (lines 133-158) *)

Lemma quick_change_before (ext : externals) (cfg : config) (step : Q) (frames : list Z)
    (k onset : Z) (name : string) (idx : nat) (pair : list string) (w : world ext) :
  0 <= quick_change_length_frames cfg ->
  frames !! idx = Some onset -> k < onset - half_window cfg ->
  quick_change ext cfg step frames k name (idx, pair) w = (Val name, w).
Proof.
  intros Hw Hi Hk. unfold quick_change, bind, lift, py_index. rewrite Hi.
  rewrite (half_window_nonneg cfg Hw) in Hk.
  pose proof (Z.div_pos (quick_change_length_frames cfg) 2 Hw ltac:(lia)) as Hh.
  unfold in_window, after_window. rewrite (half_window_nonneg cfg Hw).
  destruct (Z.leb_spec (onset - quick_change_length_frames cfg / 2) k); [lia|].
  destruct (Z.leb_spec (onset + quick_change_length_frames cfg / 2) k); [lia|].
  reflexivity.
Qed.

(** X12: a frame that lies before every transition window is the colour
    morph named by the first value of every feature; choosing it reads and
    writes nothing. *)
Theorem frame_before_windows (ext : externals) (cfg : config) (step : Q)
    (filename_root : string) (p : plan) (quick_change_frames : list Z) (k : Z)
    (name : string) (w : world ext) :
  0 <= quick_change_length_frames cfg ->
  initial_filename filename_root k (quick_changes_in_name_order p) = Val name ->
  (length (all_quick_change_options p) <= length quick_change_frames)%nat ->
  Forall (fun onset => k < onset - half_window cfg) quick_change_frames ->
  select_filename ext cfg step filename_root p quick_change_frames k w = (Val name, w).
Proof.
  intros Hw Hn Hl Hf. unfold select_filename, bind, lift. rewrite Hn.
  assert (He : Forall (fun entry => exists onset,
                         quick_change_frames !! fst entry = Some onset /\
                         k < onset - half_window cfg)
                 (py_enumerate (all_quick_change_options p))).
  { apply Forall_forall. intros [idx pair] Hin. unfold py_enumerate in Hin.
    apply elem_of_zip_l in Hin. apply elem_of_seq in Hin. simpl.
    destruct (lookup_lt_is_Some_2 quick_change_frames idx ltac:(lia)) as [onset Ho].
    exists onset. split; [exact Ho|].
    rewrite Forall_forall in Hf. apply Hf. eapply list_elem_of_lookup_2. exact Ho. }
  generalize dependent (py_enumerate (all_quick_change_options p)). intros entries He.
  induction He as [|[idx pair] entries (onset & Ho & Hk) _ IH]; [reflexivity|].
  cbn [fold_for]. unfold bind at 1. simpl in Ho.
  rewrite (quick_change_before ext cfg step quick_change_frames k onset name idx pair w Hw Ho Hk).
  exact IH.
Qed.

Lemma frame_before_windows_witness :
  select_filename (Sample.collaborators Sample.first_seen) source_config (1 # 13) "Img01"
    Steady.two_feature_plan
    [40; 150] 33 (Sample.start [] [])
  = (Val "Img01_morph33_a_c.jpg", Sample.start [] []).
Proof.
  apply (frame_before_windows (Sample.collaborators Sample.first_seen) source_config (1 # 13)
           "Img01"
           Steady.two_feature_plan
           [40; 150] 33 "Img01_morph33_a_c.jpg" (Sample.start [] [])).
  - vm_compute. discriminate.
  - vm_compute. reflexivity.
  - simpl. lia.
  - repeat constructor.
Defined.

(** ** The colour morph of a pair (lines 101-115) *)

Lemma image_data_morph_total (cfg : config) (k : Z) (A B : image) :
  number_of_morph_steps cfg <> 0 -> shape A = shape B ->
  exists m, image_data_morph cfg k A B = Val m.
Proof.
  intros Hn Hs. unfold image_data_morph, py_div.
  destruct (Qeq_bool (inject_Z (number_of_morph_steps cfg)) 0) eqn:E.
  { apply Qeq_bool_iff in E. unfold Qeq in E. simpl in E. lia. }
  unfold weighted_average, nd_add, nd_scale. rewrite !nd_map_height, !nd_map_width.
  injection Hs as -> ->. rewrite !broadcast_dim_same. now eexists.
Qed.

Lemma str_app_inv_head (p s t : string) : p +:+ s = p +:+ t -> s = t.
Proof.
  induction p as [|c p IH]; [now rewrite !str_app_nil_l|].
  rewrite !str_app_cons. intros E. injection E as E. now apply IH.
Qed.

Lemma str_app_inv_tail (s t u : string) : s +:+ u = t +:+ u -> s = t.
Proof.
  intros E. apply (str_app_inv_length s t u u); [|exact E].
  apply (f_equal String.length) in E. rewrite !str_length_app in E. lia.
Qed.

Lemma file_name_frame (before after : list string) :
  exists pre post, forall x, file_name (before ++ x :: after) = pre +:+ x +:+ post.
Proof.
  unfold file_name. induction before as [|b before (pre & post & IH)].
  - exists EmptyString. destruct after as [|a after].
    + exists ".jpg". intros x. reflexivity.
    + exists ("_" +:+ str_join "_" (a :: after) +:+ ".jpg"). intros x. simpl app.
      rewrite str_join_cons by discriminate. rewrite str_app_nil_l.
      now rewrite !str_app_assoc.
  - exists (b +:+ "_" +:+ pre), post. intros x. simpl app.
    rewrite str_join_cons by now destruct before.
    rewrite !str_app_assoc. now rewrite <- IH.
Qed.

Lemma morph_name_inj (before after : list string) (k k' : Z) :
  file_name (before ++ ("morph" +:+ str k) :: after)
  = file_name (before ++ ("morph" +:+ str k') :: after) -> k = k'.
Proof.
  destruct (file_name_frame before after) as (pre & post & E). rewrite !E.
  intros H. apply str_app_inv_head, str_app_inv_tail in H.
  apply (str_app_inv_head "morph") in H. unfold str in H.
  now apply (inj pretty) in H.
Qed.

Lemma for_each_ext {ext : externals} {X : Type} (xs : list X) (body body' : X -> M ext unit) :
  (forall x w, body x w = body' x w) ->
  forall w, for_each xs body w = for_each xs body' w.
Proof.
  intros H. induction xs as [|x xs IH]; intros w; [reflexivity|].
  simpl. unfold bind. rewrite H. destruct (body' x w) as [[[]|e] w']; [apply IH | reflexivity].
Qed.

Section MorphPair.
Context (ext : externals) (cfg : config) (A B : image) (name : Z -> string).
Hypothesis name_inj : forall k k', name k = name k' -> k = k'.

Lemma for_each_morph_saved (ks : list Z) (w : world ext) :
  (forall k, k ∈ ks -> exists m, image_data_morph cfg k A B = Val m) ->
  exists d,
    for_each ks (fun morph_step =>
      m <- lift (image_data_morph cfg morph_step A B) ;;
      save_temp ext (name morph_step) m) w = (Val tt, set_temp_dir ext d w) /\
    (forall k, k ∈ ks ->
       exists m, image_data_morph cfg k A B = Val m /\ d !! name k = Some (jpeg ext m)) /\
    (forall other, (forall k, k ∈ ks -> other <> name k) -> d !! other = temp_dir w !! other).
Proof.
  revert w. induction ks as [|k ks IH]; intros w Hm.
  - exists (temp_dir w). simpl. unfold ret. split; [now destruct w|]. split.
    + intros k Hk. now apply elem_of_nil in Hk.
    + reflexivity.
  - destruct (Hm k ltac:(left)) as [m Em].
    simpl. unfold bind at 1. unfold bind at 1, lift at 1. rewrite Em. unfold save_temp at 1.
    destruct (IH (set_temp_dir ext (<[name k := jpeg ext m]> (temp_dir w)) w)
                (fun k' Hk' => Hm k' ltac:(now right))) as (d & -> & Hin & Hout).
    exists d. split; [now destruct w|]. split.
    + intros k' Hk'. destruct (decide (k' ∈ ks)) as [Ht|Ht]; [now apply Hin|].
      apply elem_of_cons in Hk' as [->|Hk']; [|contradiction].
      exists m. split; [exact Em|]. rewrite Hout.
      * simpl. apply lookup_insert_eq.
      * intros k' Hk' E. apply name_inj in E. now subst.
    + intros other Ho. rewrite Hout.
      * simpl. apply lookup_insert_ne. intros E. apply (Ho k); [left | now symmetry].
      * intros k' Hk'. apply Ho. now right.
Qed.

End MorphPair.

(** X13: for a still whose name has the first colour as one whole segment
    and whose partner of the second colour is there with the same shape,
    the colour morph returns normally; for every step [k] from 0 to
    [number_of_morph_steps] the scratch directory then holds the blend of
    step [k] under the name with [morph<k>] in place of the colour, and
    every other file of the scratch directory is as before. *)
Theorem colour_morph_of_pair (ext : externals) (cfg : config)
    (jpg_dir : list (string * image)) (first second : string) (before after : list string)
    (A B : image) (w : world ext) :
  first <> EmptyString -> plain_token first = true ->
  Forall (fun seg => str_in first seg = false) (before ++ after) ->
  str_in first "jpg" = false ->
  lookup_file jpg_dir (file_name (before ++ first :: after)) = Some A ->
  lookup_file jpg_dir (file_name (before ++ second :: after)) = Some B ->
  shape A = shape B ->
  0 < number_of_morph_steps cfg ->
  exists d,
    morph_pair ext cfg jpg_dir first second (file_name (before ++ first :: after)) w
    = (Val tt, set_temp_dir ext d w) /\
    (forall k, 0 <= k <= number_of_morph_steps cfg ->
       exists m, image_data_morph cfg k A B = Val m /\
                 d !! file_name (before ++ ("morph" +:+ str k) :: after) = Some (jpeg ext m)) /\
    (forall other,
       (forall k, 0 <= k <= number_of_morph_steps cfg ->
                  other <> file_name (before ++ ("morph" +:+ str k) :: after)) ->
       d !! other = temp_dir w !! other).
Proof.
  intros Hne Hp Hs Hj HA HB Hshape Hn.
  assert (Hu : has_char "_" first = false) by now apply plain_token_no_char.
  assert (Hd : has_char "." first = false) by now apply plain_token_no_char.
  unfold morph_pair, open_still. rewrite HA. unfold bind at 1, ret at 1.
  rewrite (re_sub_target first second before after Hne Hu Hd Hs Hj), HB.
  unfold bind at 1, ret at 1.
  destruct (for_each_morph_saved ext cfg A B
              (fun k => file_name (before ++ ("morph" +:+ str k) :: after))
              (morph_name_inj before after)
              (py_range (number_of_morph_steps cfg + 1)) w) as (d & E & Hin & Hout).
  { intros k _. apply image_data_morph_total; [lia | exact Hshape]. }
  exists d. split; [|split].
  - rewrite <- E. apply for_each_ext. intros k w0.
    now rewrite (re_sub_target first ("morph" +:+ str k) before after Hne Hu Hd Hs Hj).
  - intros k Hk. apply Hin. apply elem_of_py_range. lia.
  - intros other Ho. apply Hout. intros k Hk. apply Ho. apply elem_of_py_range in Hk. lia.
Qed.

Lemma colour_morph_of_pair_witness :
  exists d,
    morph_pair (Sample.collaborators Sample.first_seen) Sample.short_config
      Steady.one_feature_scene "Yellow" "Orange" "Img02_Yellow_a.jpg" (Sample.start [] [])
    = (Val tt, set_temp_dir _ d (Sample.start [] [])) /\
    (forall k, 0 <= k <= number_of_morph_steps Sample.short_config ->
       exists m, image_data_morph Sample.short_config k (Sample.dot 160 160 160) (Sample.dot 0 0 0)
                 = Val m /\
                 d !! file_name (["Img02"] ++ ("morph" +:+ str k) :: ["a"])
                 = Some (jpeg (Sample.collaborators Sample.first_seen) m)) /\
    (forall other,
       (forall k, 0 <= k <= number_of_morph_steps Sample.short_config ->
                  other <> file_name (["Img02"] ++ ("morph" +:+ str k) :: ["a"])) ->
       d !! other = temp_dir (Sample.start [] []) !! other).
Proof.
  apply (colour_morph_of_pair (Sample.collaborators Sample.first_seen) Sample.short_config
           Steady.one_feature_scene "Yellow" "Orange" ["Img02"] ["a"]
           (Sample.dot 160 160 160) (Sample.dot 0 0 0) (Sample.start [] [])).
  - discriminate.
  - reflexivity.
  - repeat constructor.
  - reflexivity.
  - reflexivity.
  - reflexivity.
  - reflexivity.
  - reflexivity.
Defined.

(** ** Onset frames (lines 118-122) *)

Section Onsets.
Context (cfg : config).

#[local] Abbreviation f := (quick_change_time_section_proportion cfg).
#[local] Abbreviation n := (number_of_morph_steps cfg).

Lemma inject_Z_pos (z : Z) : 0 < z -> (0 < inject_Z z)%Q.
Proof. intros H. unfold Qlt. simpl. lia. Qed.

Lemma onset_prop_normal (N i : Z) (r : Q) :
  0 < N ->
  (new_change_moment_prop cfg N i r == (inject_Z i + ((1 - f) / 2 + f * r)) / inject_Z N)%Q.
Proof.
  intros HN. unfold new_change_moment_prop. field.
  intros E. pose proof (inject_Z_pos N HN) as P. rewrite E in P. discriminate.
Qed.

Lemma onset_prop_range (N i : Z) (r : Q) :
  0 <= i < N -> (0 <= f)%Q -> (f <= 1)%Q -> (0 <= r)%Q -> (r < 1)%Q ->
  (0 <= new_change_moment_prop cfg N i r)%Q /\ (new_change_moment_prop cfg N i r < 1)%Q.
Proof.
  intros Hi Hf0 Hf1 Hr0 Hr1. rewrite (onset_prop_normal N i r) by lia.
  assert (Et : ((1 - f) / 2 == (1 # 2) * (1 - f))%Q) by field. rewrite Et. clear Et.
  pose proof (inject_Z_pos N ltac:(lia)) as HN.
  assert (Hp0 : (0 <= f * r)%Q) by now apply Qmult_le_0_compat.
  assert (Hpf : (f * r <= f)%Q).
  { assert (H : (0 <= f * (1 - r))%Q) by (apply Qmult_le_0_compat; lra).
    assert (E : (f * (1 - r) == f - f * r)%Q) by ring. rewrite E in H.
    generalize dependent (f * r)%Q. intros. lra. }
  assert (Hpr : (f * r <= r)%Q).
  { assert (H : (0 <= (1 - f) * r)%Q) by (apply Qmult_le_0_compat; lra).
    assert (E : ((1 - f) * r == r - f * r)%Q) by ring. rewrite E in H.
    generalize dependent (f * r)%Q. intros. lra. }
  assert (Hi0 : (0 <= inject_Z i)%Q) by (unfold Qle; simpl; lia).
  assert (HiN : (inject_Z i + 1 <= inject_Z N)%Q).
  { unfold Qle, Qplus. simpl. lia. }
  generalize dependent (f * r)%Q. intros p Hp0 Hpf Hpr.
  generalize dependent (inject_Z i). intros qi Hi0 HiN.
  generalize dependent (inject_Z N). intros qN HN HiN.
  split.
  - apply Qle_shift_div_l; [exact HN|]. lra.
  - apply Qlt_shift_div_r; [exact HN|]. lra.
Qed.

Lemma onset_frame_range (N i : Z) (r : Q) :
  0 <= i < N -> (0 <= f)%Q -> (f <= 1)%Q -> (0 <= r)%Q -> (r < 1)%Q -> 0 <= n ->
  0 <= new_change_moment_frame cfg N i r <= n.
Proof.
  intros Hi Hf0 Hf1 Hr0 Hr1 Hn.
  destruct (onset_prop_range N i r Hi Hf0 Hf1 Hr0 Hr1) as [P0 P1].
  unfold new_change_moment_frame.
  pose proof (inject_Z_pos (n + 1) ltac:(lia)) as HM.
  assert (X0 : (0 <= new_change_moment_prop cfg N i r * inject_Z (n + 1))%Q).
  { apply Qmult_le_0_compat; [exact P0 | now apply Qlt_le_weak]. }
  assert (X1 : (new_change_moment_prop cfg N i r * inject_Z (n + 1) < inject_Z (n + 1))%Q).
  { rewrite <- (Qmult_1_l (inject_Z (n + 1))) at 2. now apply Qmult_lt_compat_r. }
  rewrite py_int_nonneg by exact X0. split.
  - change 0 with (Qfloor 0). now apply Qfloor_resp_le.
  - pose proof (Qfloor_le (new_change_moment_prop cfg N i r * inject_Z (n + 1))) as L.
    pose proof (Qle_lt_trans _ _ _ L X1) as T. rewrite <- Zlt_Qlt in T. lia.
Qed.

Lemma onset_frame_gap (N i : Z) (r r' : Q) :
  0 <= i -> i + 1 < N -> (0 <= f)%Q -> (f <= 1)%Q ->
  (0 <= r)%Q -> (r < 1)%Q -> (0 <= r')%Q -> (r' < 1)%Q -> 0 <= n ->
  (inject_Z (N * quick_change_length_frames cfg) <= (1 - f) * inject_Z (n + 1))%Q ->
  new_change_moment_frame cfg N i r + quick_change_length_frames cfg
  <= new_change_moment_frame cfg N (i + 1) r'.
Proof.
  intros Hi0 HiN Hf0 Hf1 Hr0 Hr1 Hr0' Hr1' Hn Hgap.
  destruct (onset_prop_range N i r ltac:(lia) Hf0 Hf1 Hr0 Hr1) as [P0 _].
  destruct (onset_prop_range N (i + 1) r' ltac:(lia) Hf0 Hf1 Hr0' Hr1') as [P0' _].
  pose proof (inject_Z_pos (n + 1) ltac:(lia)) as HM.
  pose proof (inject_Z_pos N ltac:(lia)) as HN.
  unfold new_change_moment_frame.
  rewrite !py_int_nonneg
    by (apply Qmult_le_0_compat; [assumption | now apply Qlt_le_weak]).
  set (x := (new_change_moment_prop cfg N i r * inject_Z (n + 1))%Q).
  set (x' := (new_change_moment_prop cfg N (i + 1) r' * inject_Z (n + 1))%Q).
  set (wd := quick_change_length_frames cfg) in *.
  assert (Hx : (x + inject_Z wd <= x')%Q).
  { subst x x'. rewrite (onset_prop_normal N i r), (onset_prop_normal N (i + 1) r') by lia.
    rewrite (inject_Z_plus i 1). rewrite inject_Z_mult in Hgap.
    assert (Hd : (f * r <= f * r' + f)%Q).
    { assert (H : (0 <= f * (r' + 1 - r))%Q) by (apply Qmult_le_0_compat; lra).
      assert (E : (f * (r' + 1 - r) == f * r' + f - f * r)%Q) by ring. rewrite E in H.
      generalize dependent (f * r)%Q. generalize dependent (f * r')%Q. intros. lra. }
    assert (Hw : (inject_Z wd <= (1 - f) * inject_Z (n + 1) / inject_Z N)%Q).
    { apply Qle_shift_div_l; [exact HN|]. now rewrite Qmult_comm. }
    assert (Hs : ((1 - f) * inject_Z (n + 1) / inject_Z N
                  <= (1 + f * r' - f * r) * inject_Z (n + 1) / inject_Z N)%Q).
    { apply Qle_shift_div_l; [exact HN|].
      assert (E : ((1 - f) * inject_Z (n + 1) / inject_Z N * inject_Z N
                   == (1 - f) * inject_Z (n + 1))%Q).
      { field. intros E. rewrite E in HN. discriminate. }
      rewrite E. apply Qmult_le_compat_r; [|now apply Qlt_le_weak].
      generalize dependent (f * r)%Q. generalize dependent (f * r')%Q. intros. lra. }
    change (inject_Z 1) with 1%Q.
    apply Qle_trans with
      ((inject_Z i + ((1 - f) / 2 + f * r)) / inject_Z N * inject_Z (n + 1)
       + (1 + f * r' - f * r) * inject_Z (n + 1) / inject_Z N)%Q.
    - apply Qplus_le_r. now apply Qle_trans with (2 := Hs).
    - apply Qle_lteq. right. field. intros E. rewrite E in HN. discriminate. }
  assert (Hz : (inject_Z (Qfloor x + wd) <= x')%Q).
  { rewrite inject_Z_plus. apply Qle_trans with (2 := Hx).
    apply Qplus_le_l. apply Qfloor_le. }
  apply Qfloor_resp_le in Hz. now rewrite Qfloor_Z in Hz.
Qed.

End Onsets.

Lemma draw_quick_change_frames_from (ext : externals) (cfg : config) (N : Z) :
  unit_draws ext ->
  forall (len a : nat) (acc : list Z) (w : world ext),
  exists new w',
    fold_for (map Z.of_nat (seq a len))
      (fun quick_change_frames quick_change_index =>
         r <- rand ext ;;
         ret (quick_change_frames
              ++ [new_change_moment_frame cfg N quick_change_index r])%list)
      acc w
    = (Val (acc ++ new)%list, w') /\
    length new = len /\
    forall j, (j < len)%nat ->
      exists r, (0 <= r)%Q /\ (r < 1)%Q /\
                new !! j = Some (new_change_moment_frame cfg N (Z.of_nat (a + j)) r).
Proof.
  intros Hu. induction len as [|len IH]; intros a acc w.
  - exists [], w. simpl. unfold ret. rewrite List.app_nil_r. repeat split. intros j Hj. lia.
  - cbn [seq map fold_for]. unfold bind at 1. unfold bind at 1, rand at 1.
    destruct (Hu (generator w)) as [U0 U1].
    destruct (random_sample ext (generator w)) as [r g] eqn:Er. simpl in U0, U1.
    unfold ret at 1.
    destruct (IH (S a) (acc ++ [new_change_moment_frame cfg N (Z.of_nat a) r])%list
                (set_generator ext g w)) as (new & w' & -> & Hl & Hj).
    exists (new_change_moment_frame cfg N (Z.of_nat a) r :: new), w'.
    rewrite <- List.app_assoc. simpl. split; [reflexivity|]. split; [now rewrite Hl|].
    intros [|j] Hlt.
    + exists r. rewrite Nat.add_0_r. now repeat split.
    + destruct (Hj j ltac:(lia)) as (r' & H0 & H1 & E). exists r'.
      replace (a + S j)%nat with (S a + j)%nat by lia. now repeat split.
Qed.

Lemma draw_quick_change_frames_spec (ext : externals) (cfg : config) (N : Z) (w : world ext) :
  unit_draws ext ->
  exists frames w',
    draw_quick_change_frames ext cfg N w = (Val frames, w') /\
    length frames = Z.to_nat N /\
    forall j, (j < Z.to_nat N)%nat ->
      exists r, (0 <= r)%Q /\ (r < 1)%Q /\
                frames !! j = Some (new_change_moment_frame cfg N (Z.of_nat j) r).
Proof.
  intros Hu. unfold draw_quick_change_frames, py_range.
  destruct (draw_quick_change_frames_from ext cfg N Hu (Z.to_nat N) 0 [] w)
    as (new & w' & E & Hl & Hj).
  exists new, w'. split; [exact E|]. split; [exact Hl | exact Hj].
Qed.

Lemma steady_unit_draws : unit_draws Steady.collaborators.
Proof.
  intros g. simpl. unfold Steady.unit_sample. simpl.
  destruct (Qle_bool 0 (hd 0%Q (snd g))) eqn:E0; simpl; [|split; [apply Qle_refl | reflexivity]].
  destruct (Qle_bool 1 (hd 0%Q (snd g))) eqn:E1; simpl; [split; [apply Qle_refl | reflexivity]|].
  split; [now apply Qle_bool_iff|].
  apply Qnot_le_lt. intros H. apply Qle_bool_iff in H. congruence.
Qed.

(** X14: with draws from [0, 1) and a section proportion between 0 and 1,
    the onsets are drawn without an exception, one per quick change, and
    each is the index of a frame of the sequence. *)
Theorem onsets_inside_sequence (ext : externals) (cfg : config) (N : Z) (w : world ext) :
  unit_draws ext ->
  (0 <= quick_change_time_section_proportion cfg)%Q ->
  (quick_change_time_section_proportion cfg <= 1)%Q ->
  0 <= number_of_morph_steps cfg ->
  exists frames w',
    draw_quick_change_frames ext cfg N w = (Val frames, w') /\
    length frames = Z.to_nat N /\
    Forall (fun onset => 0 <= onset <= number_of_morph_steps cfg) frames.
Proof.
  intros Hu Hf0 Hf1 Hn.
  destruct (draw_quick_change_frames_spec ext cfg N w Hu) as (frames & w' & E & Hl & Hj).
  exists frames, w'. split; [exact E|]. split; [exact Hl|].
  apply Forall_lookup. intros j onset Ho.
  assert (Hlt : (j < Z.to_nat N)%nat) by (rewrite <- Hl; now apply lookup_lt_Some in Ho).
  destruct (Hj j Hlt) as (r & H0 & H1 & Er). rewrite Er in Ho. injection Ho as <-.
  apply onset_frame_range; try assumption. lia.
Qed.

Lemma onsets_inside_sequence_witness :
  exists frames w',
    draw_quick_change_frames Steady.collaborators source_config 2
      (Steady.start [] [1 # 3; 9 # 10]) = (Val frames, w') /\
    length frames = Z.to_nat 2 /\
    Forall (fun onset => 0 <= onset <= number_of_morph_steps source_config) frames.
Proof.
  apply (onsets_inside_sequence Steady.collaborators source_config 2
           (Steady.start [] [1 # 3; 9 # 10]) steady_unit_draws).
  - unfold Qle. simpl. lia.
  - unfold Qle. simpl. lia.
  - vm_compute. discriminate.
Defined.

(** X15: when [N] windows fit into the excluded part of the sequence,
    [N * quick_change_length_frames <= (1 - proportion) * (steps + 1)], the
    transition window of a quick change ends before the window of the next
    one starts. *)
Theorem windows_do_not_overlap (ext : externals) (cfg : config) (N : Z) (w : world ext) :
  unit_draws ext ->
  (0 <= quick_change_time_section_proportion cfg)%Q ->
  (quick_change_time_section_proportion cfg <= 1)%Q ->
  0 <= number_of_morph_steps cfg ->
  0 <= quick_change_length_frames cfg ->
  (inject_Z (N * quick_change_length_frames cfg)
   <= (1 - quick_change_time_section_proportion cfg)
      * inject_Z (number_of_morph_steps cfg + 1))%Q ->
  exists frames w',
    draw_quick_change_frames ext cfg N w = (Val frames, w') /\
    forall (i : nat) (onset onset' : Z),
      frames !! i = Some onset -> frames !! S i = Some onset' ->
      onset + half_window cfg <= onset' - half_window cfg.
Proof.
  intros Hu Hf0 Hf1 Hn Hw Hgap.
  destruct (draw_quick_change_frames_spec ext cfg N w Hu) as (frames & w' & E & Hl & Hj).
  exists frames, w'. split; [exact E|]. intros i onset onset' Ho Ho'.
  assert (Hlt : (S i < Z.to_nat N)%nat) by (rewrite <- Hl; now apply lookup_lt_Some in Ho').
  destruct (Hj i ltac:(lia)) as (r & H0 & H1 & Er). rewrite Er in Ho. injection Ho as <-.
  destruct (Hj (S i) Hlt) as (r' & H0' & H1' & Er'). rewrite Er' in Ho'. injection Ho' as <-.
  pose proof (onset_frame_gap cfg N (Z.of_nat i) r r' ltac:(lia) ltac:(lia)
                Hf0 Hf1 H0 H1 H0' H1' Hn Hgap) as G.
  replace (Z.of_nat i + 1) with (Z.of_nat (S i)) in G by lia.
  rewrite (half_window_nonneg cfg Hw).
  pose proof (Z.mul_div_le (quick_change_length_frames cfg) 2 ltac:(lia)). lia.
Qed.

Lemma windows_do_not_overlap_witness :
  exists frames w',
    draw_quick_change_frames Steady.collaborators source_config 4
      (Steady.start [] ([99 # 100; 0; 1 # 2; 1 # 2]%Q : list Q)) = (Val frames, w') /\
    forall (i : nat) (onset onset' : Z),
      frames !! i = Some onset -> frames !! S i = Some onset' ->
      onset + half_window source_config <= onset' - half_window source_config.
Proof.
  apply (windows_do_not_overlap Steady.collaborators source_config 4
           (Steady.start [] ([99 # 100; 0; 1 # 2; 1 # 2]%Q : list Q)) steady_unit_draws).
  - unfold Qle. simpl. lia.
  - unfold Qle. simpl. lia.
  - vm_compute. discriminate.
  - vm_compute. discriminate.
  - vm_compute. discriminate.
Defined.

(** ** Names outside the windows (lines 127-158) *)

Lemma elem_of_concat {X : Type} (x : X) (l : list X) (ls : list (list X)) :
  x ∈ l -> l ∈ ls -> x ∈ concat ls.
Proof.
  intros Hx Hl. induction ls as [|l0 ls IH]; [now apply elem_of_nil in Hl|].
  simpl. apply elem_of_app. apply elem_of_cons in Hl as [<-|Hl]; [now left | right; now apply IH].
Qed.

Lemma re_sub_segments (tok repl : string) (segments : list string) :
  tok <> EmptyString -> plain_token tok = true -> str_in tok "jpg" = false ->
  Forall (fun seg => seg = tok \/ str_in tok seg = false) segments ->
  re_sub tok repl (file_name segments) = file_name (apply_change tok repl segments).
Proof.
  intros Hne Hp Hj Hs.
  rewrite re_sub_file_name;
    [| exact Hne | now apply plain_token_no_char | now apply plain_token_no_char].
  rewrite (re_sub_absent tok repl "jpg" Hj). unfold file_name, apply_change.
  change ("." +:+ "jpg") with ".jpg". do 2 f_equal.
  induction Hs as [|seg segs Hseg _ IH]; [reflexivity|]. simpl. f_equal; [|exact IH].
  destruct (String.eqb_spec seg tok) as [->|Hn].
  - now apply re_sub_whole.
  - destruct Hseg as [E|E]; [contradiction | now apply re_sub_absent].
Qed.

Lemma elem_of_apply_change (v0 v1 seg : string) (segments : list string) :
  seg ∈ apply_change v0 v1 segments -> seg = v1 \/ seg ∈ segments.
Proof.
  unfold apply_change. rewrite list_elem_of_fmap. intros (s & -> & Hs).
  destruct (String.eqb s v0); [now left | now right].
Qed.

Section Route.
Context (ext : externals) (cfg : config) (step : Q) (quick_change_frames : list Z) (k : Z).
Context (universe : list string).

Lemma quick_change_outside (segments : list string) (idx : nat) (pair : list string)
    (w : world ext) :
  (forall onset, quick_change_frames !! idx = Some onset -> in_window cfg onset k = false) ->
  (idx < length quick_change_frames)%nat ->
  (exists v0 v1 more, pair = v0 :: v1 :: more /\ token_apart universe v0 /\ v1 ∈ universe) ->
  Forall (fun seg => seg ∈ universe) segments ->
  quick_change ext cfg step quick_change_frames k (file_name segments) (idx, pair) w
  = (Val (file_name (route_step cfg quick_change_frames k segments (idx, pair))), w) /\
  Forall (fun seg => seg ∈ universe)
    (route_step cfg quick_change_frames k segments (idx, pair)).
Proof.
  intros Hout Hlt (v0 & v1 & more & -> & (Hne & Hp & Hj & Ha) & Hv1) Hsegs.
  destruct (lookup_lt_is_Some_2 _ _ Hlt) as [onset Ho].
  unfold quick_change, route_step, bind, lift, py_index. simpl fst. simpl snd.
  rewrite Ho, (Hout onset Ho). destruct (after_window cfg onset k); [|now split].
  simpl. unfold ret. split.
  - f_equal. f_equal. apply re_sub_segments; try assumption.
    rewrite Forall_forall in Ha, Hsegs. apply Forall_forall. intros seg Hs. apply Ha, Hsegs, Hs.
  - apply Forall_forall. intros seg Hs. apply elem_of_apply_change in Hs as [->|Hs];
      [exact Hv1 | rewrite Forall_forall in Hsegs; now apply Hsegs].
Qed.

Lemma fold_quick_change_outside (entries : list (nat * list string)) (segments : list string)
    (w : world ext) :
  Forall (fun entry =>
            (forall onset, quick_change_frames !! fst entry = Some onset ->
                           in_window cfg onset k = false) /\
            (fst entry < length quick_change_frames)%nat /\
            exists v0 v1 more, snd entry = v0 :: v1 :: more /\
                               token_apart universe v0 /\ v1 ∈ universe) entries ->
  Forall (fun seg => seg ∈ universe) segments ->
  fold_for entries (quick_change ext cfg step quick_change_frames k) (file_name segments) w
  = (Val (file_name (fold_left (route_step cfg quick_change_frames k) entries segments)), w).
Proof.
  intros He. revert segments. induction He as [|[idx pair] entries (Hout & Hlt & Hp) _ IH];
    intros segments Hsegs; [reflexivity|].
  cbn [fold_for fold_left]. unfold bind at 1.
  destruct (quick_change_outside segments idx pair w Hout Hlt Hp Hsegs) as [-> Hnext].
  now apply IH.
Qed.

End Route.

(** X16: at a frame that lies in no transition window, with feature tokens
    that are whole segments or no part of a segment, the chosen name is the
    one of the colour morph in which every feature whose window has passed
    has its second value: the substitutions act segment by segment, and
    nothing is read or written. *)
Theorem route_outside_windows (ext : externals) (cfg : config) (step : Q)
    (filename_root : string) (p : plan) (quick_change_frames : list Z) (k : Z)
    (w : world ext) :
  Forall (fun pair => pair <> []) (quick_changes_in_name_order p) ->
  (length (all_quick_change_options p) <= length quick_change_frames)%nat ->
  (forall idx onset, (idx < length (all_quick_change_options p))%nat ->
     quick_change_frames !! idx = Some onset -> in_window cfg onset k = false) ->
  Forall (fun pair => exists v0 v1 more,
            pair = v0 :: v1 :: more /\ plain_token v1 = true /\
            token_apart (segment_universe filename_root p k) v0)
    (all_quick_change_options p) ->
  select_filename ext cfg step filename_root p quick_change_frames k w
  = (Val (file_name (route_segments cfg filename_root p quick_change_frames k)), w).
Proof.
  intros Hnames Hlen Hout Hpairs. unfold select_filename, route_segments.
  assert (Hfirsts : comprehension (fun pair : list string => py_index pair 0)
                      (quick_changes_in_name_order p)
                    = Val (map (hd EmptyString) (quick_changes_in_name_order p))).
  { induction Hnames as [|pair names Hpair _ IH]; [reflexivity|].
    simpl. destruct pair as [|v pair]; [contradiction|]. simpl. now rewrite IH. }
  rewrite (initial_filename_segments _ _ _ _ Hfirsts).
  unfold bind at 1, lift at 1.
  apply (fold_quick_change_outside ext cfg step quick_change_frames k
           (segment_universe filename_root p k)).
  - apply Forall_forall. intros [idx pair] Hin. unfold py_enumerate in Hin.
    pose proof (elem_of_zip_l _ _ _ _ Hin) as Hi. apply elem_of_seq in Hi.
    pose proof (elem_of_zip_r _ _ _ _ Hin) as Hpr. simpl.
    split; [intros onset; apply Hout; lia|]. split; [lia|].
    rewrite Forall_forall in Hpairs. destruct (Hpairs pair Hpr) as (v0 & v1 & more & -> & _ & Ha).
    exists v0, v1, more. split; [reflexivity|]. split; [exact Ha|].
    unfold segment_universe. do 2 right. apply elem_of_app. right.
    apply (elem_of_concat _ (v0 :: v1 :: more)); [right; left | exact Hpr].
  - unfold segment_universe. apply Forall_cons. split; [left|].
    apply Forall_cons. split; [right; left|].
    apply Forall_forall. intros seg Hs. do 2 right. apply elem_of_app. left.
    apply list_elem_of_fmap in Hs as (pair & -> & Hp).
    apply (elem_of_concat _ pair); [|exact Hp].
    rewrite Forall_forall in Hnames. specialize (Hnames pair Hp).
    destruct pair; [contradiction | left].
Qed.

Ltac tokens_apart :=
  repeat split; try discriminate; try reflexivity;
  repeat (apply Forall_cons; split; [first [left; reflexivity | right; reflexivity]|]);
  apply List.Forall_nil.

Lemma route_outside_windows_witness :
  let p := Steady.two_feature_plan in
  select_filename (Sample.collaborators Sample.first_seen) source_config (1 # 13) "Img01" p
    [40; 150] 100 (Sample.start [] [])
  = (Val (file_name (route_segments source_config "Img01" p [40; 150] 100)),
     Sample.start [] []) /\
  file_name (route_segments source_config "Img01" p [40; 150] 100) = "Img01_morph100_a_d.jpg".
Proof.
  intros p. split; [|reflexivity].
  apply (route_outside_windows (Sample.collaborators Sample.first_seen) source_config (1 # 13)
           "Img01" p [40; 150] 100 (Sample.start [] [])).
  - repeat constructor; discriminate.
  - simpl. lia.
  - intros [|[|idx]] onset Hi Ho; simpl in Hi; try lia; injection Ho as <-; reflexivity.
  - apply Forall_cons. split.
    + exists "c", "d", []. split; [reflexivity|]. split; [reflexivity|].
      unfold segment_universe. simpl. tokens_apart.
    + apply Forall_cons. split; [|apply List.Forall_nil].
      exists "a", "b", []. split; [reflexivity|]. split; [reflexivity|].
      unfold segment_universe. simpl. tokens_apart.
Defined.

(** ** The text of a README entry (lines 84-96) *)

Section Readme.
Context (ext : externals).

Lemma for_each_change_lines (all : list (list string)) :
  Forall (fun pair => (2 <= length pair)%nat) all ->
  forall (len a : nat) (w : world ext),
  (a + len <= length all)%nat ->
  for_each (map Z.of_nat (seq a len)) (fun one_change =>
    pair <- lift (py_index all (Z.to_nat one_change)) ;;
    a <- lift (py_index pair 0) ;;
    b <- lift (py_index pair 1) ;;
    readme_write ext (a +:+ " changes to " +:+ b +:+ "." +:+ nl)) w
  = (Val tt,
     set_readme_txt ext
       (readme_txt w +:+ str_concat (map change_line (take len (drop a all)))) w).
Proof.
  intros Hall. induction len as [|len IH]; intros a w Hlen.
  - simpl. unfold ret. rewrite str_app_nil_r. now destruct w.
  - cbn [seq map for_each]. unfold bind at 1. unfold bind at 1, lift at 1, py_index at 1.
    rewrite Nat2Z.id.
    destruct (lookup_lt_is_Some_2 all a ltac:(lia)) as [pair Hp]. rewrite Hp.
    assert (H2 : (2 <= length pair)%nat).
    { rewrite Forall_forall in Hall. apply Hall. eapply list_elem_of_lookup_2. exact Hp. }
    destruct pair as [|v0 [|v1 more]]; simpl in H2; try lia.
    unfold bind at 1, lift at 1, py_index at 1. simpl lookup.
    unfold bind at 1, lift at 1, py_index at 1. simpl lookup.
    unfold readme_write at 1. rewrite (IH (S a)) by lia.
    rewrite (drop_S all (v0 :: v1 :: more) a Hp). simpl. unfold change_line at 2. simpl.
    destruct w. unfold set_readme_txt. simpl. now rewrite !str_app_assoc.
Qed.

End Readme.

(** X17: for a plan with two colours and two values for each of its quick
    changes, the README gets a separating newline if it was not empty and
    then the entry of the scene: three header lines and a line for each
    quick change, in shuffled order. *)
Theorem readme_entry_text (ext : externals) (filename_root : string) (p : plan)
    (w : world ext) :
  (2 <= length (slow_change_options p))%nat ->
  (Z.to_nat (num_quick_changes p) <= length (all_quick_change_options p))%nat ->
  Forall (fun pair => (2 <= length pair)%nat) (all_quick_change_options p) ->
  write_readme ext filename_root p w
  = (Val tt,
     set_readme_txt ext
       (readme_txt w
        +:+ (if (0 <? String.length (readme_txt w))%nat then nl else EmptyString)
        +:+ readme_entry filename_root p) w).
Proof.
  intros Hslow Hn Hall. unfold write_readme, readme_entry.
  destruct (slow_change_options p) as [|s0 [|s1 more]]; simpl in Hslow; try lia.
  unfold bind at 1. cbv beta iota.
  assert (H : forall w0 : world ext,
    (readme_write ext ("This slow change video is of " +:+ filename_root +:+ "." +:+ nl) ;;;
     s0' <- lift (py_index (s0 :: s1 :: more) 0) ;;
     s1' <- lift (py_index (s0 :: s1 :: more) 1) ;;
     readme_write ext ("The beginning color is " +:+ s0' +:+ " and the ending color is "
                       +:+ s1' +:+ "." +:+ nl) ;;;
     readme_write ext ("There are " +:+ str (num_quick_changes p)
                       +:+ " quick changes which occur as follows:" +:+ nl) ;;;
     for_each (py_range (num_quick_changes p)) (fun one_change =>
       pair <- lift (py_index (all_quick_change_options p) (Z.to_nat one_change)) ;;
       a <- lift (py_index pair 0) ;;
       b <- lift (py_index pair 1) ;;
       readme_write ext (a +:+ " changes to " +:+ b +:+ "." +:+ nl))) w0
    = (Val tt,
       set_readme_txt ext
         (readme_txt w0
          +:+ "This slow change video is of " +:+ filename_root +:+ "." +:+ nl
          +:+ "The beginning color is " +:+ s0 +:+ " and the ending color is " +:+ s1
          +:+ "." +:+ nl
          +:+ "There are " +:+ str (num_quick_changes p)
          +:+ " quick changes which occur as follows:" +:+ nl
          +:+ str_concat (map change_line
                            (take (Z.to_nat (num_quick_changes p))
                               (all_quick_change_options p)))) w0)).
  { intros w0. unfold bind at 1, readme_write at 1.
    unfold bind at 1, lift at 1, py_index at 1. simpl lookup.
    unfold bind at 1, lift at 1, py_index at 1. simpl lookup.
    unfold bind at 1, readme_write at 1. unfold bind at 1, readme_write at 1.
    unfold py_range. rewrite (for_each_change_lines ext _ Hall) by (simpl; lia).
    rewrite drop_0. destruct w0. unfold set_readme_txt. simpl.
    now rewrite !str_app_assoc. }
  simpl nth.
  destruct (0 <? String.length (readme_txt w))%nat.
  - unfold bind at 1, readme_write at 1. rewrite H. destruct w. unfold set_readme_txt. simpl.
    now rewrite !str_app_assoc.
  - unfold bind at 1, ret at 1. rewrite H. now rewrite str_app_nil_l.
Qed.

Lemma readme_entry_text_witness :
  let p := Steady.two_feature_plan in
  write_readme (Sample.collaborators Sample.first_seen) "Img01" p (Sample.start [] [])
  = (Val tt,
     set_readme_txt _
       (readme_txt (Sample.start [] [])
        +:+ (if (0 <? String.length (readme_txt (Sample.start [] [])))%nat
             then nl else EmptyString)
        +:+ readme_entry "Img01" p) (Sample.start [] [])).
Proof.
  intros p.
  apply (readme_entry_text (Sample.collaborators Sample.first_seen) "Img01" p
           (Sample.start [] [])).
  - simpl. lia.
  - simpl. lia.
  - repeat constructor.
Defined.

(** ** Complete scenes (lines 61-203)

    For a scene with every still it needs, the steps of the script go
    through: the plan, the colour morphs, the onsets, the frames. *)

Lemma elem_of_combinations (names : list (list string)) (states : list string) :
  states ∈ combinations names <-> Forall2 (fun state pair => state ∈ pair) states names.
Proof.
  revert states. induction names as [|pair names IH]; intros states; simpl.
  - rewrite list_elem_of_singleton. split; [intros ->; constructor | intros H; now inversion H].
  - split.
    + intros H. apply list_elem_of_In, in_flat_map in H as (v & Hv & H).
      apply list_elem_of_In, list_elem_of_fmap in H as (rest & -> & Hr).
      constructor; [now apply list_elem_of_In | now apply IH].
    + intros H. inversion H as [|v pair' rest names' Hv Hr]; subst.
      apply list_elem_of_In, in_flat_map. exists v. split; [now apply list_elem_of_In|].
      apply list_elem_of_In, list_elem_of_fmap. exists rest. split; [reflexivity | now apply IH].
Qed.

Lemma str_in_refl (a : string) : str_in a a = true.
Proof.
  destruct a as [|c a]; [reflexivity|]. rewrite str_in_cons.
  rewrite <- (str_app_nil_r (String c a)) at 2. now rewrite prefix_app.
Qed.

Lemma unique_pair (names : list (list string)) (P Q : list string) (a : string) :
  NoDup (concat names) -> P ∈ names -> Q ∈ names -> a ∈ P -> a ∈ Q -> P = Q.
Proof.
  induction names as [|R names IH]; intros Hd HP HQ HaP HaQ; [now apply elem_of_nil in HP|].
  simpl in Hd. apply NoDup_app in Hd as (_ & Hx & Hd).
  apply elem_of_cons in HP as [->|HP]; apply elem_of_cons in HQ as [->|HQ].
  - reflexivity.
  - exfalso. apply (Hx a HaP). now apply (elem_of_concat a Q).
  - exfalso. apply (Hx a HaQ). now apply (elem_of_concat a P).
  - now apply IH.
Qed.

Lemma fold_quick_change_before (ext : externals) (cfg : config) (step : Q)
    (frames : list Z) (k : Z) (entries : list (nat * list string)) (name : string)
    (w : world ext) :
  0 <= quick_change_length_frames cfg ->
  Forall (fun entry => exists onset,
            frames !! fst entry = Some onset /\ k < onset - half_window cfg) entries ->
  fold_for entries (quick_change ext cfg step frames k) name w = (Val name, w).
Proof.
  intros Hw He. induction He as [|[idx pair] entries (onset & Ho & Hk) _ IH]; [reflexivity|].
  cbn [fold_for]. unfold bind at 1. simpl in Ho.
  now rewrite (quick_change_before ext cfg step frames k onset name idx pair w Hw Ho Hk).
Qed.

Lemma quick_change_in (ext : externals) (cfg : config) (step : Q) (frames : list Z)
    (k onset : Z) (name a b : string) (more : list string) (idx : nat) (w : world ext) :
  frames !! idx = Some onset -> in_window cfg onset k = true ->
  quick_change ext cfg step frames k name (idx, a :: b :: more) w
  = match temp_dir w !! name with
    | None => (Exc (FileNotFoundError name), w)
    | Some A =>
        match temp_dir w !! re_sub a b name with
        | None => (Exc (FileNotFoundError (re_sub a b name)), w)
        | Some B =>
            match quick_change_morph cfg step onset k A B with
            | Exc e => (Exc e, w)
            | Val m =>
                (Val (re_sub a "avg" name),
                 set_temp_dir ext (<[re_sub a "avg" name := jpeg ext m]> (temp_dir w)) w)
            end
        end
    end.
Proof.
  intros Ho Ein. unfold quick_change, bind, lift, py_index, open_temp, save_temp, ret.
  rewrite Ho, Ein. simpl lookup. cbv beta iota zeta.
  destruct (temp_dir w !! name) as [A|]; [|reflexivity].
  destruct (temp_dir w !! re_sub a b name) as [B|]; [|reflexivity].
  now destruct (quick_change_morph cfg step onset k A B).
Qed.

Lemma quick_change_after (ext : externals) (cfg : config) (step : Q) (frames : list Z)
    (k onset : Z) (name a b : string) (more : list string) (idx : nat) (w : world ext) :
  frames !! idx = Some onset -> in_window cfg onset k = false ->
  after_window cfg onset k = true ->
  quick_change ext cfg step frames k name (idx, a :: b :: more) w = (Val (re_sub a b name), w).
Proof.
  intros Ho Ein Eaf. unfold quick_change, bind, lift, py_index, ret.
  now rewrite Ho, Ein, Eaf.
Qed.

Lemma quick_change_not_yet (ext : externals) (cfg : config) (step : Q) (frames : list Z)
    (k onset : Z) (name : string) (pair : list string) (idx : nat) (w : world ext) :
  frames !! idx = Some onset -> in_window cfg onset k = false ->
  after_window cfg onset k = false ->
  quick_change ext cfg step frames k name (idx, pair) w = (Val name, w).
Proof.
  intros Ho Ein Eaf. unfold quick_change, bind, lift, py_index, ret.
  now rewrite Ho, Ein, Eaf.
Qed.

Section TotalRoute.
Context (ext : externals) (cfg : config) (step : Q) (filename_root : string).
Context (names : list (list string)) (frames : list Z) (s : nat * nat).
Hypothesis Hjpeg : shape_preserving (jpeg ext).
Hypothesis Hw : 0 <= quick_change_length_frames cfg.
Hypothesis Htwo : Forall (fun pair => length pair = 2%nat) names.
Hypothesis Hdup : NoDup (concat names).
Hypothesis Htok : Forall (feature_token filename_root cfg (concat names)) (concat names).
Hypothesis Happ : windows_apart cfg frames.

#[local] Abbreviation n := (number_of_morph_steps cfg).
#[local] Abbreviation combination :=
  (fun states : list string => Forall2 (fun state pair => state ∈ pair) states names).
#[local] Abbreviation name_of :=
  (fun (k : Z) (states : list string) =>
     file_name (filename_root :: ("morph" +:+ str k) :: states)).

Lemma combination_values (states : list string) :
  combination states -> Forall (fun state => state ∈ concat names) states.
Proof.
  clear. intros H. induction H as [|state pair states names' Hs _ IH]; [constructor|].
  constructor.
  - simpl. apply elem_of_app. now left.
  - eapply Forall_impl; [exact IH|]. intros x Hx. simpl. apply elem_of_app. now right.
Qed.

Lemma substitute_in_name (k : Z) (states : list string) (a b : string) :
  a ∈ concat names -> 0 <= k <= n -> combination states ->
  re_sub a b (name_of k states) = name_of k (apply_change a b states).
Proof.
  intros Ha Hk Hc.
  destruct (proj1 (Forall_forall _ _) Htok a Ha) as (Hne & Hp & Hj & Hr & Hm & Hv).
  rewrite Forall_forall in Hm. specialize (Hm k ltac:(apply elem_of_py_range; lia)).
  rewrite re_sub_segments; try assumption.
  - unfold apply_change. cbn [map].
    destruct (String.eqb_spec filename_root a) as [E|_];
      [rewrite E, str_in_refl in Hr; discriminate|].
    destruct (String.eqb_spec ("morph" +:+ str k) a) as [E|_];
      [rewrite E, str_in_refl in Hm; discriminate|].
    reflexivity.
  - apply Forall_cons. split; [now right|]. apply Forall_cons. split; [now right|].
    apply combination_values in Hc. rewrite Forall_forall in Hc, Hv.
    apply Forall_forall. intros seg Hs. apply Hv, Hc, Hs.
Qed.

Lemma change_keeps_combination (states : list string) (a b : string) :
  [a; b] ∈ names -> combination states -> combination (apply_change a b states).
Proof.
  intros Hp Hc.
  assert (Hb : forall P, P ∈ names -> a ∈ P -> b ∈ P).
  { intros P HP Ha. rewrite (unique_pair names P [a; b] a Hdup HP Hp Ha ltac:(left)).
    right. left. }
  clear Hp Htwo Hdup Htok. induction Hc as [|state pair states names' Hs _ IH]; [constructor|].
  simpl. constructor.
  - destruct (String.eqb_spec state a) as [->|_]; [|exact Hs]. apply Hb; [left | exact Hs].
  - apply IH. intros P HP. apply Hb. now right.
Qed.

Lemma stored_lookup (w : world ext) (k : Z) (states : list string) :
  morphs_stored cfg filename_root names s w -> 0 <= k <= n -> combination states ->
  exists img, temp_dir w !! name_of k states = Some img /\ shape img = s.
Proof.
  intros Hst Hk Hc. unfold morphs_stored in Hst. rewrite Forall_forall in Hst.
  specialize (Hst k ltac:(apply elem_of_py_range; lia)). rewrite Forall_forall in Hst.
  apply Hst. now apply elem_of_combinations.
Qed.

Lemma stored_insert (w : world ext) (name : string) (img : image) :
  morphs_stored cfg filename_root names s w -> shape img = s ->
  morphs_stored cfg filename_root names s (set_temp_dir ext (<[name := img]> (temp_dir w)) w).
Proof.
  intros Hst Hs. unfold morphs_stored in *.
  eapply Forall_impl; [exact Hst|]. intros k Hk.
  eapply Forall_impl; [exact Hk|]. intros states (old & Ho & Hso). simpl.
  destruct (decide (name = name_of k states)) as [->|Hne].
  - exists img. now rewrite lookup_insert_eq.
  - exists old. now rewrite lookup_insert_ne.
Qed.

Lemma route_total (k : Z) (l : list (list string)) :
  0 <= k <= n ->
  forall (i0 : nat) (states : list string) (w : world ext),
    Forall (fun pair => pair ∈ names) l ->
    (i0 + length l <= length frames)%nat ->
    combination states ->
    morphs_stored cfg filename_root names s w ->
    exists name w',
      fold_for (zip (seq i0 (length l)) l) (quick_change ext cfg step frames k)
        (name_of k states) w = (Val name, w') /\
      morphs_stored cfg filename_root names s w' /\
      is_Some (temp_dir w' !! name) /\
      morph_dir w' = morph_dir w.
Proof.
  intros Hk. induction l as [|pair l IH]; intros i0 states w Hl Hlen Hc Hst.
  - exists (name_of k states), w.
    destruct (stored_lookup w k states Hst Hk Hc) as (img & E & _).
    cbn [length seq zip zip_with fold_for]. unfold ret.
    split; [reflexivity|]. split; [exact Hst|]. split; [now exists img | reflexivity].
  - apply Forall_cons in Hl as [Hp Hl]. simpl in Hlen.
    assert (H2 : length pair = 2%nat).
    { exact (proj1 (Forall_forall _ _) Htwo pair Hp). }
    destruct pair as [|a [|b [|c pair]]]; try discriminate. clear H2.
    assert (Ha : a ∈ concat names) by (apply (elem_of_concat a [a; b]); [left | exact Hp]).
    destruct (lookup_lt_is_Some_2 frames i0 ltac:(lia)) as [onset Ho].
    cbn [length seq zip zip_with fold_for]. unfold bind at 1.
    destruct (in_window cfg onset k) eqn:Ein; [|destruct (after_window cfg onset k) eqn:Eaf].
    + rewrite (quick_change_in ext cfg step frames k onset _ a b [] i0 w Ho Ein).
      rewrite (substitute_in_name k states a b Ha Hk Hc).
      destruct (stored_lookup w k states Hst Hk Hc) as (A & EA & HA).
      destruct (stored_lookup w k (apply_change a b states) Hst Hk
                  (change_keeps_combination states a b Hp Hc)) as (B & EB & HB).
      destruct (weighted_average_keeps_shape A B
                  (step * count_at cfg onset k)%Q (1 - step * count_at cfg onset k)%Q
                  ltac:(congruence)) as (m & Em & Hm).
      unfold quick_change_morph.
      replace (temp_dir w !! name_of k states) with (Some A) by (symmetry; exact EA).
      replace (temp_dir w !! name_of k (apply_change a b states)) with (Some B)
        by (symmetry; exact EB).
      rewrite Em.
      set (name' := re_sub a "avg" (name_of k states)).
      set (w1 := set_temp_dir ext (<[name' := jpeg ext m]> (temp_dir w)) w).
      rewrite fold_quick_change_before; [|exact Hw|].
      * exists name', w1. split; [reflexivity|]. split; [|split; [|reflexivity]].
        -- apply stored_insert; [exact Hst|]. rewrite Hjpeg. congruence.
        -- subst w1. simpl. rewrite lookup_insert_eq. now eexists.
      * apply Forall_forall. intros [idx pair'] Hin.
        apply elem_of_zip_l in Hin. apply elem_of_seq in Hin. simpl.
        destruct (lookup_lt_is_Some_2 frames idx ltac:(lia)) as [onset' Ho'].
        exists onset'. split; [exact Ho'|].
        pose proof (Happ i0 idx onset onset' ltac:(lia) Ho Ho') as Hgap.
        apply in_window_spec in Ein. lia.
    + rewrite (quick_change_after ext cfg step frames k onset _ a b [] i0 w Ho Ein Eaf).
      rewrite (substitute_in_name k states a b Ha Hk Hc).
      apply (IH (S i0) (apply_change a b states) w Hl ltac:(lia)
               (change_keeps_combination states a b Hp Hc) Hst).
    + rewrite (quick_change_not_yet ext cfg step frames k onset _ [a; b] i0 w Ho Ein Eaf).
      apply (IH (S i0) states w Hl ltac:(lia) Hc Hst).
Qed.

End TotalRoute.

Lemma initial_filename_heads (filename_root : string) (k : Z) (names : list (list string)) :
  Forall (fun pair => pair <> []) names ->
  initial_filename filename_root k names
  = Val (file_name (filename_root :: ("morph" +:+ str k) :: map (hd EmptyString) names)).
Proof.
  intros Hnames. apply initial_filename_segments.
  induction Hnames as [|pair names Hpair _ IH]; [reflexivity|].
  simpl. destruct pair as [|v pair]; [contradiction|]. simpl. now rewrite IH.
Qed.

Lemma heads_combination (names : list (list string)) :
  Forall (fun pair => pair <> []) names ->
  Forall2 (fun state pair => state ∈ pair) (map (hd EmptyString) names) names.
Proof.
  intros H. induction H as [|pair names Hp _ IH]; [constructor|].
  simpl. constructor; [|exact IH]. destruct pair; [contradiction | left].
Qed.

Lemma two_values_nonempty (names : list (list string)) :
  Forall (fun pair => length pair = 2%nat) names -> Forall (fun pair => pair <> []) names.
Proof.
  intros H. eapply Forall_impl; [exact H|]. intros [|v pair] E; [discriminate E | discriminate].
Qed.

Section TotalFrames.
Context (ext : externals) (cfg : config) (step : Q) (filename_root : string) (p : plan).
Context (frames : list Z) (s : nat * nat).
Hypothesis Hjpeg : shape_preserving (jpeg ext).
Hypothesis Hw : 0 <= quick_change_length_frames cfg.
Hypothesis Hperm : all_quick_change_options p ≡ₚ quick_changes_in_name_order p.
Hypothesis Htwo : Forall (fun pair => length pair = 2%nat) (quick_changes_in_name_order p).
Hypothesis Hdup : NoDup (concat (quick_changes_in_name_order p)).
Hypothesis Htok :
  Forall (feature_token filename_root cfg (concat (quick_changes_in_name_order p)))
    (concat (quick_changes_in_name_order p)).
Hypothesis Hlen : (length (quick_changes_in_name_order p) <= length frames)%nat.
Hypothesis Happ : windows_apart cfg frames.

#[local] Abbreviation names := (quick_changes_in_name_order p).
#[local] Abbreviation n := (number_of_morph_steps cfg).

Lemma select_filename_total (k : Z) (w : world ext) :
  0 <= k <= n ->
  morphs_stored cfg filename_root names s w ->
  exists name w',
    select_filename ext cfg step filename_root p frames k w = (Val name, w') /\
    morphs_stored cfg filename_root names s w' /\
    is_Some (temp_dir w' !! name) /\
    morph_dir w' = morph_dir w.
Proof.
  intros Hk Hst. unfold select_filename.
  rewrite (initial_filename_heads _ _ _ (two_values_nonempty _ Htwo)).
  unfold bind at 1, lift at 1. unfold py_enumerate.
  apply (route_total ext cfg step filename_root names frames s Hjpeg Hw Htwo Hdup Htok Happ
           k (all_quick_change_options p) Hk 0 _ w).
  - apply Forall_forall. intros pair Hp. now rewrite <- Hperm.
  - rewrite Hperm. simpl. exact Hlen.
  - apply heads_combination, two_values_nonempty, Htwo.
  - exact Hst.
Qed.

Lemma select_frames_total (ks : list Z) :
  (forall k, k ∈ ks -> 0 <= k <= n) ->
  forall (acc : option image) (w : world ext),
    morphs_stored cfg filename_root names s w ->
    exists last w',
      fold_for ks
        (fun _ curr_frame_index =>
           this_filename <- select_filename ext cfg step filename_root p frames
                              curr_frame_index ;;
           frame <- emit_frame ext filename_root curr_frame_index this_filename ;;
           ret (Some frame))
        acc w = (Val last, w') /\
      morphs_stored cfg filename_root names s w' /\
      (forall name, is_Some (morph_dir w !! name) -> is_Some (morph_dir w' !! name)) /\
      (forall k, k ∈ ks -> is_Some (morph_dir w' !! frame_name filename_root k)) /\
      (ks <> [] -> is_Some last).
Proof.
  induction ks as [|k ks IH]; intros Hks acc w Hst.
  - exists acc, w. split; [reflexivity|]. split; [exact Hst|]. split; [auto|].
    split; [|congruence]. intros k Hk. now apply elem_of_nil in Hk.
  - destruct (select_filename_total k w (Hks k ltac:(left)) Hst)
      as (name & w1 & E1 & Hst1 & [img Himg] & Hm1).
    cbn [fold_for]. unfold bind at 1. unfold bind at 1. rewrite E1.
    unfold bind at 1, emit_frame at 1. unfold bind at 1, open_temp at 1. rewrite Himg.
    unfold bind at 1, save_tif at 1. unfold ret at 1. unfold ret at 1.
    set (frame := resize ext (even_up (height img), even_up (width img)) img).
    set (w2 := set_morph_dir ext
                 (<[filename_root +:+ "_morph" +:+ str k +:+ ".tif" := frame]> (morph_dir w1)) w1).
    destruct (IH (fun k' Hk' => Hks k' ltac:(now right)) (Some frame) w2 Hst1)
      as (last & w' & E & Hst' & Hmono & Hks' & Hlast).
    exists last, w'. split; [exact E|]. split; [exact Hst'|]. split; [|split].
    + intros name' Hn. apply Hmono. subst w2. simpl. rewrite <- Hm1 in Hn.
      destruct (decide (filename_root +:+ "_morph" +:+ str k +:+ ".tif" = name')) as [->|Hne].
      * rewrite lookup_insert_eq. now eexists.
      * now rewrite lookup_insert_ne.
    + intros k' Hk'. apply elem_of_cons in Hk' as [->|Hk']; [|now apply Hks'].
      apply Hmono. subst w2. simpl. unfold frame_name. rewrite lookup_insert_eq. now eexists.
    + intros _. destruct ks as [|k' ks].
      * simpl in E. unfold ret in E. injection E as <- _. now eexists.
      * apply Hlast. discriminate.
Qed.

End TotalFrames.

(** X18: when the scratch directory holds the colour morph of every
    combination of feature values for every step, the features have two
    distinct values each that are whole segments of the names, and no
    transition window reaches into a later one, the frames are selected
    without an exception: every index from 0 to [number_of_morph_steps] has
    its frame staged, and the last frame is returned. *)
Theorem frames_of_stored_morphs (ext : externals) (cfg : config) (step : Q)
    (filename_root : string) (p : plan) (quick_change_frames : list Z) (s : nat * nat)
    (w : world ext) :
  shape_preserving (jpeg ext) ->
  0 <= number_of_morph_steps cfg ->
  0 <= quick_change_length_frames cfg ->
  all_quick_change_options p ≡ₚ quick_changes_in_name_order p ->
  Forall (fun pair => length pair = 2%nat) (quick_changes_in_name_order p) ->
  NoDup (concat (quick_changes_in_name_order p)) ->
  Forall (feature_token filename_root cfg (concat (quick_changes_in_name_order p)))
    (concat (quick_changes_in_name_order p)) ->
  (length (quick_changes_in_name_order p) <= length quick_change_frames)%nat ->
  windows_apart cfg quick_change_frames ->
  morphs_stored cfg filename_root (quick_changes_in_name_order p) s w ->
  exists frame w',
    select_frames ext cfg step filename_root p quick_change_frames w = (Val (Some frame), w') /\
    Forall (fun k => is_Some (morph_dir w' !! frame_name filename_root k))
      (py_range (number_of_morph_steps cfg + 1)).
Proof.
  intros Hjpeg Hn Hw Hperm Htwo Hdup Htok Hlen Happ Hst. unfold select_frames.
  destruct (select_frames_total ext cfg step filename_root p quick_change_frames s
              Hjpeg Hw Hperm Htwo Hdup Htok Hlen Happ
              (py_range (number_of_morph_steps cfg + 1))
              ltac:(intros k Hk; apply elem_of_py_range in Hk; lia) None w Hst)
    as (last & w' & E & _ & _ & Hks & Hlast).
  destruct Hlast as [frame ->].
  { unfold py_range. replace (Z.to_nat (number_of_morph_steps cfg + 1))
      with (S (Z.to_nat (number_of_morph_steps cfg))) by lia. discriminate. }
  exists frame, w'. split; [exact E|]. apply Forall_forall. exact Hks.
Qed.

Lemma split_file_name (segments : list string) :
  segments <> [] -> Forall (fun seg => has_char "_" seg = false) segments ->
  str_split "_" (file_name segments) = with_extension segments.
Proof.
  intros Hne H. unfold file_name. induction H as [|seg segs Hs Hsegs IH]; [contradiction|].
  destruct segs as [|seg' segs].
  - simpl. apply str_split_no_delim. rewrite has_char_app, Hs. reflexivity.
  - rewrite str_join_cons by discriminate. rewrite !str_app_assoc.
    change ("_" +:+ (str_join "_" (seg' :: segs) +:+ ".jpg"))
      with (String "_" (str_join "_" (seg' :: segs) +:+ ".jpg")).
    rewrite str_split_at_delim by assumption. rewrite IH by discriminate. reflexivity.
Qed.

Lemma with_extension_lookup (segments : list string) (i : nat) (seg : string) :
  (S i < length segments)%nat -> segments !! i = Some seg ->
  with_extension segments !! i = Some seg.
Proof.
  revert i. induction segments as [|x segs IH]; intros i Hi Hl; [discriminate|].
  destruct segs as [|y segs]; [simpl in Hi; lia|].
  destruct i as [|i]; [exact Hl|]. cbn [with_extension]. simpl in Hl, Hi |- *.
  apply IH; [simpl; lia | exact Hl].
Qed.

Lemma with_extension_length (segments : list string) :
  length (with_extension segments) = length segments.
Proof.
  induction segments as [|x [|y segs] IH]; try reflexivity.
  cbn [with_extension]. simpl in *. now rewrite IH.
Qed.

Lemma comprehension_if_spec {X : Type} (c : X -> outcome bool) (xs : list X) :
  (forall x, x ∈ xs -> exists b, c x = Val b) ->
  exists sel, comprehension_if c xs = Val sel /\
              forall x, x ∈ sel <-> x ∈ xs /\ c x = Val true.
Proof.
  induction xs as [|x xs IH]; intros H.
  - exists []. split; [reflexivity|]. intros x. split; [intros Hx; now apply elem_of_nil in Hx|].
    intros [Hx _]. now apply elem_of_nil in Hx.
  - destruct (H x ltac:(left)) as [b Hb].
    destruct (IH (fun y Hy => H y ltac:(now right))) as (sel & E & Hsel).
    simpl. rewrite Hb, E. exists (if b then x :: sel else sel). split; [reflexivity|].
    intros y. destruct b.
    + rewrite !elem_of_cons, Hsel. split.
      * intros [->|[Hy Hc]]; [split; [now left | exact Hb] | split; [now right | exact Hc]].
      * intros [[->|Hy] Hc]; [now left | right; now split].
    + rewrite elem_of_cons, Hsel. split.
      * intros [Hy Hc]. split; [now right | exact Hc].
      * intros [[->|Hy] Hc]; [congruence | now split].
Qed.

Lemma elem_of_scene_names (filename_root : string) (colours : list string)
    (names : list (list string)) (f : string) :
  f ∈ scene_names filename_root colours names <->
  exists c states, c ∈ colours /\ states ∈ combinations names /\
                   f = file_name (filename_root :: c :: states).
Proof.
  unfold scene_names. rewrite list_elem_of_In, in_flat_map. split.
  - intros (c & Hc & Hf). apply list_elem_of_In, list_elem_of_fmap in Hf as (states & -> & Hs).
    exists c, states. split; [now apply list_elem_of_In | now split].
  - intros (c & states & Hc & Hs & ->). exists c. split; [now apply list_elem_of_In|].
    apply list_elem_of_In, list_elem_of_fmap. now exists states.
Qed.

Section TotalMorphs.
Context (ext : externals) (cfg : config) (jpg_dir : list (string * image)).
Context (filename_root : string) (names : list (list string)) (first second : string).
Context (s : nat * nat).
Hypothesis Hjpeg : shape_preserving (jpeg ext).
Hypothesis Hn : 0 < number_of_morph_steps cfg.
Hypothesis Hfeat : names <> [].
Hypothesis Hroot : has_char "_" filename_root = false.
Hypothesis Hfirst : colour_token filename_root (concat names) first.
Hypothesis Hsecond : has_char "_" second = false.
Hypothesis Hcolours : first <> second.
Hypothesis Hclean : Forall (fun v => has_char "_" v = false) (concat names).
Hypothesis Hstills :
  Forall (fun f => exists img, lookup_file jpg_dir f = Some img /\ shape img = s)
    (scene_names filename_root [first; second] names).

#[local] Abbreviation n := (number_of_morph_steps cfg).
#[local] Abbreviation name_of :=
  (fun (k : Z) (states : list string) =>
     file_name (filename_root :: ("morph" +:+ str k) :: states)).

Lemma still_of (c : string) (states : list string) :
  c ∈ [first; second] -> states ∈ combinations names ->
  exists img, lookup_file jpg_dir (file_name (filename_root :: c :: states)) = Some img /\
              shape img = s.
Proof.
  intros Hc Hs. rewrite Forall_forall in Hstills. apply Hstills.
  apply elem_of_scene_names. now exists c, states.
Qed.

Lemma morph_pair_effect (states : list string) (w : world ext) :
  states ∈ combinations names ->
  exists w',
    morph_pair ext cfg jpg_dir first second (file_name (filename_root :: first :: states)) w
    = (Val tt, w') /\
    (forall k, 0 <= k <= n -> stored s w' (name_of k states)) /\
    (forall key, stored s w key -> stored s w' key) /\
    morph_dir w' = morph_dir w.
Proof.
  intros Hs. destruct Hfirst as (Hne & Hp & Hj & Hr & Hv).
  destruct (still_of first states ltac:(left) Hs) as (A & EA & HA).
  destruct (still_of second states ltac:(right; left) Hs) as (B & EB & HB).
  assert (Hsegs : Forall (fun seg => str_in first seg = false) ([filename_root] ++ states)).
  { apply Forall_cons. split; [exact Hr|].
    apply elem_of_combinations, (combination_values names) in Hs.
    rewrite Forall_forall in Hs, Hv. apply Forall_forall. intros seg Hseg. apply Hv, Hs, Hseg. }
  pose proof (plain_token_no_char "_" first eq_refl Hp) as Hu.
  pose proof (plain_token_no_char "." first eq_refl Hp) as Hd.
  assert (Hsub : forall repl,
             re_sub first repl (file_name (filename_root :: first :: states))
             = file_name (filename_root :: repl :: states)).
  { intros repl. exact (re_sub_target first repl [filename_root] states Hne Hu Hd Hsegs Hj). }
  unfold morph_pair, open_still.
  rewrite EA. unfold bind at 1, ret at 1. rewrite Hsub, EB. unfold bind at 1, ret at 1.
  destruct (for_each_morph_saved ext cfg A B
              (fun k => file_name (filename_root :: ("morph" +:+ str k) :: states))
              (morph_name_inj [filename_root] states)
              (py_range (n + 1)) w) as (d & E & Hin & Hout).
  { intros k _. apply image_data_morph_total; [lia | congruence]. }
  exists (set_temp_dir ext d w). split; [|split; [|split; [|reflexivity]]].
  - rewrite <- E. apply for_each_ext. intros k w0. now rewrite Hsub.
  - intros k Hk. destruct (Hin k ltac:(apply elem_of_py_range; lia)) as (m & Em & Hm).
    exists (jpeg ext m). split; [exact Hm|]. rewrite Hjpeg. destruct s as [h wd].
    now apply (image_data_morph_shape cfg h wd k A B m).
  - intros key (img & Ek & Hk).
    destruct (decide (Exists (fun k => key = name_of k states) (py_range (n + 1)))) as [Hx|Hx].
    + apply Exists_exists in Hx as (k & Hkr & ->).
      destruct (Hin k Hkr) as (m & Em & Hm).
      exists (jpeg ext m). split; [exact Hm|]. rewrite Hjpeg. destruct s as [h wd].
      now apply (image_data_morph_shape cfg h wd k A B m).
    + exists img. split; [|exact Hk]. simpl. rewrite Hout; [exact Ek|].
      intros k Hkr ->. apply Hx. apply Exists_exists. now exists k.
Qed.

Lemma morph_pairs_effect (sel : list string) (w : world ext) :
  (forall f, f ∈ sel -> exists states,
      states ∈ combinations names /\ f = file_name (filename_root :: first :: states)) ->
  exists w',
    for_each sel (morph_pair ext cfg jpg_dir first second) w = (Val tt, w') /\
    (forall states k,
        states ∈ combinations names ->
        file_name (filename_root :: first :: states) ∈ sel ->
        0 <= k <= n -> stored s w' (name_of k states)) /\
    (forall key, stored s w key -> stored s w' key) /\
    morph_dir w' = morph_dir w.
Proof.
  revert w. induction sel as [|f sel IH]; intros w Hsel.
  - exists w. split; [reflexivity|]. split; [|split; [auto | reflexivity]].
    intros states k _ Hf. now apply elem_of_nil in Hf.
  - destruct (Hsel f ltac:(left)) as (states0 & Hs0 & Ef).
    destruct (morph_pair_effect states0 w Hs0) as (w1 & E1 & Hnew & Hmono1 & Hm1).
    destruct (IH w1 (fun f' Hf' => Hsel f' ltac:(now right)))
      as (w' & E & Hall & Hmono & Hm).
    exists w'. cbn [for_each]. unfold bind at 1. rewrite Ef, E1.
    split; [exact E|]. split; [|split; [auto | congruence]].
    intros states k Hs Hf Hk. apply elem_of_cons in Hf as [Hf|Hf]; [|now apply Hall].
    apply Hmono.
    destruct (morph_pair_effect states w Hs) as (w2 & E2 & Hnew2 & _ & _).
    rewrite Hf, E1 in E2. injection E2 as <-. now apply Hnew2.
Qed.

Lemma has_first_colour_of (c : string) (states : list string) :
  c ∈ [first; second] -> states ∈ combinations names ->
  has_first_colour first (file_name (filename_root :: c :: states))
  = Val (bool_decide (c = first)).
Proof.
  intros Hc Hs. unfold has_first_colour, py_index.
  assert (Hlen : length states = length names).
  { apply elem_of_combinations in Hs. now apply Forall2_length in Hs. }
  assert (Hcc : has_char "_" c = false).
  { apply elem_of_cons in Hc as [->|Hc].
    - destruct Hfirst as (_ & Hp & _). now apply plain_token_no_char.
    - apply list_elem_of_singleton in Hc as ->. exact Hsecond. }
  rewrite split_file_name; [|discriminate|].
  - rewrite (with_extension_lookup _ 1 c); [reflexivity | | reflexivity].
    simpl. destruct names; [contradiction | simpl in Hlen; lia].
  - apply Forall_cons. split; [exact Hroot|]. apply Forall_cons. split; [exact Hcc|].
    apply elem_of_combinations, (combination_values names) in Hs.
    rewrite Forall_forall in Hs, Hclean. apply Forall_forall. intros seg Hseg.
    apply Hclean, Hs, Hseg.
Qed.

Lemma slow_change_morphs_total (these_file_names : list string) (p : plan)
    (more : list string) (w : world ext) :
  slow_change_options p = first :: second :: more ->
  (forall f, f ∈ these_file_names -> f ∈ scene_names filename_root [first; second] names) ->
  (forall states, states ∈ combinations names ->
     file_name (filename_root :: first :: states) ∈ these_file_names) ->
  exists w',
    slow_change_morphs ext cfg jpg_dir these_file_names p w = (Val tt, w') /\
    morphs_stored cfg filename_root names s w' /\
    morph_dir w' = morph_dir w.
Proof.
  intros Hslow Hsound Hcomplete. unfold slow_change_morphs. rewrite Hslow.
  unfold bind at 1, lift at 1, py_index at 1. simpl lookup.
  destruct (comprehension_if_spec (has_first_colour first) these_file_names)
    as (sel & Esel & Hsel).
  { intros f Hf. apply Hsound, elem_of_scene_names in Hf as (c & states & Hc & Hs & ->).
    rewrite (has_first_colour_of c states Hc Hs). now eexists. }
  unfold bind at 1, lift at 1. rewrite Esel.
  unfold bind at 1, lift at 1, py_index at 1. simpl lookup.
  destruct (morph_pairs_effect sel w) as (w' & E & Hall & _ & Hm).
  { intros f Hf. apply Hsel in Hf as [Hf Hc].
    apply Hsound, elem_of_scene_names in Hf as (c & states & Hcc & Hs & ->).
    rewrite (has_first_colour_of c states Hcc Hs) in Hc. injection Hc as Hc.
    apply bool_decide_eq_true in Hc as ->. now exists states. }
  exists w'. split; [exact E|]. split; [|exact Hm].
  unfold morphs_stored. apply Forall_forall. intros k Hk. apply elem_of_py_range in Hk.
  apply Forall_forall. intros states Hs. apply (Hall states k Hs); [|lia].
  apply Hsel. split; [now apply Hcomplete|].
  rewrite (has_first_colour_of first states ltac:(left) Hs). now rewrite bool_decide_eq_true_2.
Qed.

End TotalMorphs.

Lemma comprehension_map {X Y : Type} (f : X -> outcome Y) (g : X -> Y) (xs : list X) :
  (forall x, x ∈ xs -> f x = Val (g x)) -> comprehension f xs = Val (map g xs).
Proof.
  induction xs as [|x xs IH]; intros H; [reflexivity|].
  simpl. rewrite (H x ltac:(left)), IH; [reflexivity|]. intros y Hy. apply H. now right.
Qed.

Lemma comprehension_Forall2 {Y T : Type} (F : Z -> outcome Y) (R : Y -> T -> Prop)
    (ts : list T) :
  forall a : nat,
    (forall j t, ts !! j = Some t -> exists y, F (Z.of_nat (a + j)) = Val y /\ R y t) ->
    exists ys, comprehension F (map Z.of_nat (seq a (length ts))) = Val ys /\ Forall2 R ys ts.
Proof.
  induction ts as [|t ts IH]; intros a H.
  - exists []. split; [reflexivity | constructor].
  - destruct (H 0%nat t eq_refl) as (y & Ey & Hy). rewrite Nat.add_0_r in Ey.
    destruct (IH (S a)) as (ys & E & Hys).
    { intros j t' Hj. destruct (H (S j) t' Hj) as (y' & Ey' & Hy').
      exists y'. split; [|exact Hy']. now replace (S a + j)%nat with (a + S j)%nat by lia. }
    exists (y :: ys). simpl. rewrite Ey, E. split; [reflexivity | now constructor].
Qed.

Lemma with_extension_last (segments : list string) (i : nat) (seg : string) :
  S i = length segments -> segments !! i = Some seg ->
  with_extension segments !! i = Some (seg +:+ ".jpg").
Proof.
  revert i. induction segments as [|x segs IH]; intros i Hi Hl; [discriminate|].
  destruct segs as [|y segs].
  - simpl in Hi. injection Hi as ->. simpl in Hl. injection Hl as ->. reflexivity.
  - destruct i as [|i]; [simpl in Hi; lia|]. cbn [with_extension]. simpl in Hl, Hi |- *.
    apply IH; [simpl; lia | exact Hl].
Qed.

Lemma strip_extension_plain (v : string) :
  has_char "." v = false -> strip_extension v = v.
Proof. intros H. unfold strip_extension. now rewrite str_split_no_delim. Qed.

Lemma strip_extension_jpg (v : string) :
  has_char "." v = false -> strip_extension (v +:+ ".jpg") = v.
Proof.
  intros H. unfold strip_extension. change ".jpg" with (String "." "jpg").
  now rewrite str_split_at_delim.
Qed.

Lemma combination_with (names : list (list string)) (i : nat) (pair : list string)
    (v : string) :
  Forall (fun pair => pair <> []) names -> names !! i = Some pair -> v ∈ pair ->
  exists states, states ∈ combinations names /\ states !! i = Some v.
Proof.
  intros Hne. revert i. induction Hne as [|p names Hp Ht IH]; intros i Hi Hv; [discriminate|].
  destruct i as [|i].
  - injection Hi as ->. exists (v :: map (hd EmptyString) names). split; [|reflexivity].
    apply elem_of_combinations. constructor; [exact Hv|]. now apply heads_combination.
  - destruct (IH i Hi Hv) as (states & Hs & Hl). destruct p as [|x p]; [contradiction|].
    exists (x :: states). split; [|exact Hl].
    apply elem_of_combinations. constructor; [left|]. now apply elem_of_combinations.
Qed.

Lemma combination_lookup (names : list (list string)) (states : list string) (i : nat)
    (pair : list string) :
  states ∈ combinations names -> names !! i = Some pair ->
  exists v, states !! i = Some v /\ v ∈ pair.
Proof.
  intros Hs Hi. apply elem_of_combinations in Hs.
  destruct (Forall2_lookup_r _ _ _ _ _ Hs Hi) as (v & Hv & Hin). now exists v.
Qed.

Section TotalPlan.
Context (ext : externals) (cfg : config) (filename_root c0 c1 : string).
Context (features : list (list string)) (these_file_names : list string).
Hypothesis Hset : set_order_exact ext.
Hypothesis Hroot : has_char "_" filename_root = false.
Hypothesis Hc0 : has_char "_" c0 = false.
Hypothesis Hc1 : has_char "_" c1 = false.
Hypothesis Htwo : Forall (fun pair => length pair = 2%nat) features.
Hypothesis Hdup : NoDup (concat features).
Hypothesis Hplain : Forall (fun v => plain_token v = true) (concat features).
Hypothesis Hthese :
  forall f, f ∈ these_file_names <-> f ∈ scene_names filename_root [c0; c1] features.

Lemma scene_segments (c : string) (states : list string) :
  c ∈ [c0; c1] -> states ∈ combinations features ->
  str_split "_" (file_name (filename_root :: c :: states))
  = with_extension (filename_root :: c :: states) /\
  length states = length features.
Proof.
  intros Hc Hs. split.
  - apply split_file_name; [discriminate|].
    apply Forall_cons. split; [exact Hroot|]. apply Forall_cons. split.
    + apply elem_of_cons in Hc as [->|Hc]; [exact Hc0|].
      apply list_elem_of_singleton in Hc as ->. exact Hc1.
    + apply elem_of_combinations, (combination_values features) in Hs.
      rewrite Forall_forall in Hs. apply Forall_forall. intros seg Hseg.
      apply plain_token_no_char; [reflexivity|].
      exact (proj1 (Forall_forall _ _) Hplain seg (Hs seg Hseg)).
  - apply elem_of_combinations in Hs. now apply Forall2_length in Hs.
Qed.

Lemma options_at (i : nat) (feature : list string) :
  features !! i = Some feature ->
  exists pair, quick_change_options_at ext these_file_names (Z.of_nat i) = Val pair /\
               pair ≡ₚ feature.
Proof.
  intros Hi.
  assert (H2 : length feature = 2%nat).
  { apply (proj1 (Forall_forall _ _) Htwo). eapply list_elem_of_lookup_2. exact Hi. }
  destruct feature as [|a [|b [|x feature]]]; try discriminate. clear H2.
  assert (Hab : a <> b).
  { intros ->. apply (take_drop_middle features i) in Hi. rewrite <- Hi in Hdup.
    rewrite concat_app in Hdup. apply NoDup_app in Hdup as (_ & _ & Hd).
    simpl in Hd. apply NoDup_cons in Hd as [Hd _]. apply Hd. left. }
  assert (Hvals : forall v, v ∈ [a; b] -> has_char "." v = false).
  { intros v Hv. apply plain_token_no_char; [reflexivity|].
    apply (proj1 (Forall_forall _ _) Hplain). apply (elem_of_concat v [a; b] features Hv).
    eapply list_elem_of_lookup_2. exact Hi. }
  set (e := fun v : string => if decide (S i = length features) then v +:+ ".jpg" else v).
  set (g := fun f : string => nth (i + 2) (str_split "_" f) EmptyString).
  assert (Hg : forall c states v, c ∈ [c0; c1] -> states ∈ combinations features ->
                 states !! i = Some v ->
                 str_split "_" (file_name (filename_root :: c :: states)) !! (i + 2)%nat
                 = Some (e v)).
  { intros c states v Hc Hs Hv. destruct (scene_segments c states Hc Hs) as [-> Hlen].
    replace (i + 2)%nat with (S (S i)) by lia. subst e. cbv beta.
    destruct (decide (S i = length features)) as [E|E].
    - apply with_extension_last; [simpl; lia | exact Hv].
    - apply with_extension_lookup; [|exact Hv]. apply lookup_lt_Some in Hv. simpl. lia. }
  assert (Hcomp : comprehension
                    (fun f => py_index (str_split "_" f) (Z.to_nat (Z.of_nat i + 2)))
                    these_file_names
                  = Val (map g these_file_names)).
  { apply comprehension_map. intros f Hf.
    apply Hthese, elem_of_scene_names in Hf as (c & states & Hc & Hs & ->).
    destruct (combination_lookup features states i [a; b] Hs Hi) as (v & Hv & _).
    replace (Z.to_nat (Z.of_nat i + 2)) with (i + 2)%nat by lia.
    unfold py_index, g. rewrite (Hg c states v Hc Hs Hv).
    f_equal. symmetry. apply nth_lookup_Some. exact (Hg c states v Hc Hs Hv). }
  unfold quick_change_options_at. rewrite Hcomp. eexists. split; [reflexivity|].
  destruct (Hset (map g these_file_names)) as [Hnd Hel].
  assert (Hperm : set_order ext (map g these_file_names) ≡ₚ [e a; e b]).
  { apply NoDup_Permutation; [exact Hnd | |].
    - apply NoDup_cons. split; [|apply NoDup_singleton].
      intros Hin. apply list_elem_of_singleton in Hin. apply Hab. subst e. cbv beta in Hin.
      destruct (decide (S i = length features)); [now apply str_app_inv_tail in Hin | exact Hin].
    - intros x. rewrite Hel, list_elem_of_fmap. split.
      + intros (f & -> & Hf).
        apply Hthese, elem_of_scene_names in Hf as (c & states & Hc & Hs & ->).
        destruct (combination_lookup features states i [a; b] Hs Hi) as (v & Hv & Hin).
        unfold g. rewrite (nth_lookup_Some _ _ EmptyString _ (Hg c states v Hc Hs Hv)).
        apply elem_of_cons in Hin as [->|Hin]; [left|].
        apply list_elem_of_singleton in Hin as ->. right. left.
      + intros Hx.
        assert (Hv : exists v, v ∈ [a; b] /\ x = e v).
        { apply elem_of_cons in Hx as [->|Hx]; [exists a; split; [left | reflexivity]|].
          apply list_elem_of_singleton in Hx as ->. exists b. split; [right; left | reflexivity]. }
        destruct Hv as (v & Hv & ->).
        destruct (combination_with features i [a; b] v (two_values_nonempty _ Htwo) Hi Hv)
          as (states & Hs & Hl).
        exists (file_name (filename_root :: c0 :: states)). split.
        * unfold g. now rewrite (nth_lookup_Some _ _ EmptyString _
                                   (Hg c0 states v ltac:(left) Hs Hl)).
        * apply Hthese, elem_of_scene_names. exists c0, states.
          split; [left | now split]. }
  rewrite Hperm. simpl. subst e. cbv beta.
  destruct (decide (S i = length features)).
  - rewrite (strip_extension_jpg a) by (apply Hvals; left).
    rewrite (strip_extension_jpg b) by (apply Hvals; right; left). reflexivity.
  - rewrite (strip_extension_plain a) by (apply Hvals; left).
    rewrite (strip_extension_plain b) by (apply Hvals; right; left). reflexivity.
Qed.

Lemma make_plan_total (more : list string) (w : world ext) :
  str_split "_" (color cfg) = c0 :: c1 :: more ->
  exists p g,
    make_plan ext cfg these_file_names w = (Val p, set_generator ext g w) /\
    slow_change_options p ≡ₚ [c0; c1] /\
    num_quick_changes p = Z.of_nat (length features) /\
    all_quick_change_options p ≡ₚ quick_changes_in_name_order p /\
    Forall2 (fun pair feature => pair ≡ₚ feature) (quick_changes_in_name_order p) features.
Proof.
  intros Hcolor. unfold make_plan. rewrite Hcolor.
  unfold bind at 1, lift at 1, py_index at 1. simpl lookup.
  unfold bind at 1, lift at 1, py_index at 1. simpl lookup.
  destruct (shuffle_Permutation [c0; c1] w) as (slow & g1 & Es & Ps).
  unfold bind at 1. rewrite Es.
  assert (Hfirst : exists first, these_file_names !! 0%nat = Some first).
  { destruct these_file_names as [|first rest] eqn:Et; [|now exists first].
    exfalso. apply (elem_of_nil (file_name (filename_root :: c0
                                              :: map (hd EmptyString) features))).
    apply Hthese, elem_of_scene_names. exists c0, (map (hd EmptyString) features).
    split; [left|]. split; [|reflexivity].
    apply elem_of_combinations, heads_combination, two_values_nonempty, Htwo. }
  destruct Hfirst as [first Hfirst].
  unfold bind at 1, lift at 1, py_index at 1. rewrite Hfirst.
  assert (Hn : Z.of_nat (length (str_split "_" first)) - 2 = Z.of_nat (length features)).
  { apply list_elem_of_lookup_2, Hthese, elem_of_scene_names in Hfirst
      as (c & states & Hc & Hs & ->).
    destruct (scene_segments c states Hc Hs) as [-> Hlen].
    rewrite with_extension_length. simpl. lia. }
  rewrite Hn. unfold py_range. rewrite Nat2Z.id.
  destruct (comprehension_Forall2 (quick_change_options_at ext these_file_names)
              (fun pair feature => pair ≡ₚ feature) features 0) as (options & Eo & Ho).
  { intros j feature Hj. simpl. now apply options_at. }
  unfold bind at 1, lift at 1. rewrite Eo.
  destruct (shuffle_Permutation options (set_generator ext g1 w)) as (shuffled & g2 & Esh & Psh).
  unfold bind at 1. rewrite Esh. unfold ret.
  eexists _, g2. split; [reflexivity|]. simpl. repeat split; assumption.
Qed.

End TotalPlan.


Lemma write_readme_returns (ext : externals) (filename_root : string) (p : plan)
    (w : world ext) :
  (2 <= length (slow_change_options p))%nat ->
  (Z.to_nat (num_quick_changes p) <= length (all_quick_change_options p))%nat ->
  Forall (fun pair => (2 <= length pair)%nat) (all_quick_change_options p) ->
  exists text, write_readme ext filename_root p w = (Val tt, set_readme_txt ext text w).
Proof.
  intros Hslow Hn Hall. unfold write_readme.
  destruct (slow_change_options p) as [|s0 [|s1 more]]; simpl in Hslow; try lia.
  unfold py_range.
  assert (H : forall w0 : world ext, exists text,
    (readme_write ext ("This slow change video is of " +:+ filename_root +:+ "." +:+ nl) ;;;
     s0' <- lift (py_index (s0 :: s1 :: more) 0) ;;
     s1' <- lift (py_index (s0 :: s1 :: more) 1) ;;
     readme_write ext ("The beginning color is " +:+ s0' +:+ " and the ending color is "
                       +:+ s1' +:+ "." +:+ nl) ;;;
     readme_write ext ("There are " +:+ str (num_quick_changes p)
                       +:+ " quick changes which occur as follows:" +:+ nl) ;;;
     for_each (map Z.of_nat (seq 0 (Z.to_nat (num_quick_changes p)))) (fun one_change =>
       pair <- lift (py_index (all_quick_change_options p) (Z.to_nat one_change)) ;;
       a <- lift (py_index pair 0) ;;
       b <- lift (py_index pair 1) ;;
       readme_write ext (a +:+ " changes to " +:+ b +:+ "." +:+ nl))) w0
    = (Val tt, set_readme_txt ext text w0)).
  { intros w0. unfold bind at 1, readme_write at 1.
    unfold bind at 1, lift at 1, py_index at 1. simpl lookup.
    unfold bind at 1, lift at 1, py_index at 1. simpl lookup.
    unfold bind at 1, readme_write at 1. unfold bind at 1, readme_write at 1.
    rewrite (for_each_change_lines ext _ Hall) by (simpl; lia).
    eexists. destruct w0. reflexivity. }
  unfold bind at 1. cbv beta iota.
  destruct (0 <? String.length (readme_txt w))%nat.
  - unfold bind at 1, readme_write at 1.
    destruct (H (set_readme_txt ext (readme_txt w +:+ nl) w)) as [text ->].
    exists text. now destruct w.
  - unfold bind at 1, ret at 1. apply H.
Qed.

Lemma gaps_chain (frames : list Z) (wd : Z) :
  0 <= wd ->
  (forall i o o', frames !! i = Some o -> frames !! S i = Some o' -> o + wd <= o') ->
  forall i j o o', (i < j)%nat -> frames !! i = Some o -> frames !! j = Some o' ->
                   o + wd <= o'.
Proof.
  intros Hwd Hstep i j. induction j as [|j IH]; intros o o' Hij Hi Hj; [lia|].
  destruct (decide (i = j)) as [->|Hne]; [now apply (Hstep j)|].
  destruct (lookup_lt_is_Some_2 frames j) as [oj Hoj].
  { apply lookup_lt_Some in Hj. lia. }
  pose proof (IH o oj ltac:(lia) Hi Hoj). pose proof (Hstep j oj o' Hoj Hj). lia.
Qed.

Lemma drawn_windows_apart (ext : externals) (cfg : config) (N : Z) (w : world ext) :
  unit_draws ext ->
  (0 <= quick_change_time_section_proportion cfg)%Q ->
  (quick_change_time_section_proportion cfg <= 1)%Q ->
  0 <= number_of_morph_steps cfg ->
  0 <= quick_change_length_frames cfg ->
  (inject_Z (N * quick_change_length_frames cfg)
   <= (1 - quick_change_time_section_proportion cfg)
      * inject_Z (number_of_morph_steps cfg + 1))%Q ->
  exists frames w',
    draw_quick_change_frames ext cfg N w = (Val frames, w') /\
    length frames = Z.to_nat N /\
    windows_apart cfg frames.
Proof.
  intros Hu Hf0 Hf1 Hn Hw Hgap.
  destruct (draw_quick_change_frames_spec ext cfg N w Hu) as (frames & w' & E & Hl & Hj).
  exists frames, w'. split; [exact E|]. split; [exact Hl|].
  intros i j o o' Hij Hi Hjj.
  assert (G : o + quick_change_length_frames cfg <= o').
  { apply (gaps_chain frames (quick_change_length_frames cfg) Hw) with i j; try assumption.
    clear i j o o' Hij Hi Hjj. intros i o o' Ho Ho'.
    assert (Hlt : (S i < Z.to_nat N)%nat) by (rewrite <- Hl; now apply lookup_lt_Some in Ho').
    destruct (Hj i ltac:(lia)) as (r & H0 & H1 & Er). rewrite Er in Ho. injection Ho as <-.
    destruct (Hj (S i) Hlt) as (r' & H0' & H1' & Er'). rewrite Er' in Ho'. injection Ho' as <-.
    pose proof (onset_frame_gap cfg N (Z.of_nat i) r r' ltac:(lia) ltac:(lia)
                  Hf0 Hf1 H0 H1 H0' H1' Hn Hgap) as G.
    now replace (Z.of_nat i + 1) with (Z.of_nat (S i)) in G by lia. }
  rewrite (half_window_nonneg cfg Hw).
  pose proof (Z.mul_div_le (quick_change_length_frames cfg) 2 ltac:(lia)). lia.
Qed.

(** The values found for the features, against the features of the scene. *)
Lemma same_concat (names features : list (list string)) :
  Forall2 (fun pair feature => pair ≡ₚ feature) names features ->
  concat names ≡ₚ concat features.
Proof.
  intros Hsame. induction Hsame as [|pair feature names' features' Hp _ IH]; [reflexivity|].
  simpl. now apply Permutation_app.
Qed.

Lemma same_two_values (names features : list (list string)) :
  Forall2 (fun pair feature => pair ≡ₚ feature) names features ->
  Forall (fun pair => length pair = 2%nat) features ->
  Forall (fun pair => length pair = 2%nat) names.
Proof.
  intros Hsame. induction Hsame as [|pair feature names' features' Hp _ IH]; intros H;
    [constructor|].
  apply Forall_cons in H as [H2 H]. constructor; [|now apply IH].
  now rewrite (Permutation_length Hp).
Qed.

Lemma same_combinations (names features : list (list string)) (states : list string) :
  Forall2 (fun pair feature => pair ≡ₚ feature) names features ->
  states ∈ combinations names <-> states ∈ combinations features.
Proof.
  intros Hsame. rewrite !elem_of_combinations. revert states.
  induction Hsame as [|pair feature names' features' Hp _ IH]; intros states.
  - split; intros H; inversion H; constructor.
  - split; intros H; inversion H as [|v ? rest ? Hv Hr]; subst; constructor;
      try (now apply IH); [now rewrite <- Hp | now rewrite Hp].
Qed.

Lemma same_feature_tokens (names features : list (list string)) (filename_root : string)
    (cfg : config) :
  Forall2 (fun pair feature => pair ≡ₚ feature) names features ->
  Forall (feature_token filename_root cfg (concat features)) (concat features) ->
  Forall (feature_token filename_root cfg (concat names)) (concat names).
Proof.
  intros Hsame H. pose proof (same_concat names features Hsame) as Hc.
  rewrite Forall_forall in H. apply Forall_forall. intros a Ha.
  assert (Ha' : a ∈ concat features) by now rewrite <- Hc.
  destruct (H a Ha') as (H1 & H2 & H3 & H4 & H5 & H6). repeat split; try assumption.
  rewrite Forall_forall in H6. apply Forall_forall. intros v Hv. apply H6. now rewrite <- Hc.
Qed.

Lemma same_morphs_stored {ext : externals} (names features : list (list string))
    (cfg : config) (filename_root : string) (s : nat * nat) (w : world ext) :
  Forall2 (fun pair feature => pair ≡ₚ feature) names features ->
  morphs_stored cfg filename_root features s w -> morphs_stored cfg filename_root names s w.
Proof.
  unfold morphs_stored. intros Hsame H. eapply Forall_impl; [exact H|]. intros k Hk.
  rewrite Forall_forall in Hk. apply Forall_forall. intros states Hs.
  apply Hk. now apply (same_combinations names features).
Qed.

Lemma morphs_stored_temp {ext : externals} (cfg : config) (filename_root : string)
    (names : list (list string)) (s : nat * nat) (w w' : world ext) :
  temp_dir w' = temp_dir w ->
  morphs_stored cfg filename_root names s w -> morphs_stored cfg filename_root names s w'.
Proof. unfold morphs_stored. now intros ->. Qed.

Lemma scene_names_swap (filename_root c0 c1 : string) (names : list (list string))
    (f : string) :
  f ∈ scene_names filename_root [c1; c0] names <-> f ∈ scene_names filename_root [c0; c1] names.
Proof.
  rewrite !elem_of_scene_names. split; intros (c & states & Hc & H); exists c, states;
    (split; [|exact H]); apply elem_of_cons in Hc as [->|Hc];
    try (right; left); try (apply list_elem_of_singleton in Hc as ->; left).
Qed.

Lemma colour_token_clean (filename_root : string) (values : list string) (c : string) :
  colour_token filename_root values c -> has_char "_" c = false.
Proof. intros (_ & Hp & _). now apply plain_token_no_char. Qed.

Lemma feature_tokens_plain (filename_root : string) (cfg : config) (values : list string) :
  Forall (feature_token filename_root cfg values) values ->
  Forall (fun v => plain_token v = true) values.
Proof. intros H. eapply Forall_impl; [exact H|]. now intros v (_ & Hp & _). Qed.

Lemma stills_swap (jpg_dir : list (string * image)) (filename_root c0 c1 : string)
    (names : list (list string)) (s : nat * nat) :
  Forall (fun f => exists img, lookup_file jpg_dir f = Some img /\ shape img = s)
    (scene_names filename_root [c0; c1] names) ->
  Forall (fun f => exists img, lookup_file jpg_dir f = Some img /\ shape img = s)
    (scene_names filename_root [c1; c0] names).
Proof.
  intros H. rewrite Forall_forall in H. apply Forall_forall. intros f Hf.
  apply H. now apply scene_names_swap.
Qed.

Lemma complete_scene_returns (ext : externals) (cfg : config) (step : Q)
    (jpg_dir : list (string * image)) (jpg_file_names : list string)
    (filename_root c0 c1 : string) (features : list (list string)) (s : nat * nat)
    (w : world ext) :
  unit_draws ext -> set_order_exact ext -> shape_preserving (jpeg ext) ->
  str_split "_" (color cfg) = [c0; c1] ->
  0 < number_of_morph_steps cfg ->
  0 <= quick_change_length_frames cfg ->
  (0 <= quick_change_time_section_proportion cfg)%Q ->
  (quick_change_time_section_proportion cfg <= 1)%Q ->
  (inject_Z (Z.of_nat (length features) * quick_change_length_frames cfg)
   <= (1 - quick_change_time_section_proportion cfg)
      * inject_Z (number_of_morph_steps cfg + 1))%Q ->
  features <> [] ->
  Forall (fun pair => length pair = 2%nat) features ->
  NoDup (concat features) ->
  Forall (feature_token filename_root cfg (concat features)) (concat features) ->
  has_char "_" filename_root = false ->
  colour_token filename_root (concat features) c0 ->
  colour_token filename_root (concat features) c1 ->
  (forall f, f ∈ these_file_names_of jpg_file_names filename_root
             <-> f ∈ scene_names filename_root [c0; c1] features) ->
  Forall (fun f => exists img, lookup_file jpg_dir f = Some img /\ shape img = s)
    (scene_names filename_root [c0; c1] features) ->
  exists w', process_scene ext cfg step jpg_dir jpg_file_names filename_root w = (Val tt, w').
Proof.
  intros Hu Hset Hjpeg Hcolor Hn Hw Hf0 Hf1 Hgap Hfeat Htwo Hdup Htok Hroot Hc0 Hc1
    Hthese Hstills.
  pose proof (feature_tokens_plain _ _ _ Htok) as Hplain.
  assert (Hclean : Forall (fun v => has_char "_" v = false) (concat features)).
  { eapply Forall_impl; [exact Hplain|]. intros v Hv. now apply plain_token_no_char. }
  unfold process_scene, synthesize. unfold bind at 1. unfold bind at 1, print at 1.
  set (w0 := set_console ext (console w ++ ["working on file " +:+ filename_root])%list w).
  set (these := these_file_names_of jpg_file_names filename_root) in *.
  (* the plan *)
  destruct (make_plan_total ext cfg filename_root c0 c1 features these Hset Hroot
              (colour_token_clean _ _ _ Hc0) (colour_token_clean _ _ _ Hc1)
              Htwo Hdup Hplain Hthese [] w0 Hcolor)
    as (p & g & Eplan & Pslow & HN & Pall & Hsame).
  rewrite (bind_val _ _ _ _ _ Eplan).
  set (w1 := set_generator ext g w0).
  pose proof (same_two_values _ _ Hsame Htwo) as Htwo'.
  assert (Hlen : length (quick_changes_in_name_order p) = length features)
    by now apply Forall2_length in Hsame.
  (* the README entry *)
  destruct (write_readme_returns ext filename_root p w1) as [text Ereadme].
  { now rewrite (Permutation_length Pslow). }
  { rewrite (Permutation_length Pall), HN, Hlen. lia. }
  { rewrite Pall. eapply Forall_impl; [exact Htwo'|]. intros pair ->. lia. }
  rewrite (bind_val _ _ _ _ _ Ereadme).
  set (w2 := set_readme_txt ext text w1).
  (* the colour morphs *)
  assert (Hmorphs : exists w3,
             slow_change_morphs ext cfg jpg_dir these p w2 = (Val tt, w3) /\
             morphs_stored cfg filename_root features s w3).
  { symmetry in Pslow. apply Permutation_length_2_inv in Pslow as [Es|Es].
    - destruct (slow_change_morphs_total ext cfg jpg_dir filename_root features c0 c1 s
                  Hjpeg Hn Hfeat Hroot Hc0 (colour_token_clean _ _ _ Hc1) Hclean Hstills
                  these p [] w2 Es) as (w3 & E & Hst & _).
      + intros f Hf. now apply Hthese.
      + intros states Hs. apply Hthese, elem_of_scene_names. exists c0, states.
        split; [left | now split].
      + now exists w3.
    - destruct (slow_change_morphs_total ext cfg jpg_dir filename_root features c1 c0 s
                  Hjpeg Hn Hfeat Hroot Hc1 (colour_token_clean _ _ _ Hc0) Hclean
                  (stills_swap _ _ _ _ _ _ Hstills)
                  these p [] w2 Es) as (w3 & E & Hst & _).
      + intros f Hf. now apply scene_names_swap, Hthese.
      + intros states Hs. apply Hthese, elem_of_scene_names. exists c1, states.
        split; [right; left | now split].
      + now exists w3. }
  destruct Hmorphs as (w3 & Emorphs & Hst).
  rewrite (bind_val _ _ _ _ _ Emorphs).
  (* the onsets *)
  destruct (drawn_windows_apart ext cfg (num_quick_changes p) w3 Hu Hf0 Hf1 ltac:(lia) Hw
              ltac:(now rewrite HN))
    as (frames & w4 & Edraw & Hfl & Happ).
  rewrite (bind_val _ _ _ _ _ Edraw).
  pose proof (draw_quick_change_frames_keeps cfg temp_dir (fun _ _ => eq_refl)
                (num_quick_changes p) w3) as Ktemp.
  unfold keeps in Ktemp. rewrite Edraw in Ktemp. simpl in Ktemp.
  (* the frames *)
  destruct (select_frames_total ext cfg step filename_root p frames s Hjpeg Hw Pall Htwo'
              ltac:(now rewrite (same_concat _ _ Hsame))
              (same_feature_tokens _ _ _ _ Hsame Htok)
              ltac:(rewrite Hfl, HN, Hlen; lia) Happ
              (py_range (number_of_morph_steps cfg + 1))
              ltac:(intros k Hk; apply elem_of_py_range in Hk; lia) None w4
              (same_morphs_stored _ _ _ _ _ _ Hsame
                 (morphs_stored_temp _ _ _ _ _ _ Ktemp Hst)))
    as (last & w5 & Eframes & _ & _ & _ & Hlast).
  destruct Hlast as [frame ->].
  { unfold py_range. replace (Z.to_nat (number_of_morph_steps cfg + 1))
      with (S (Z.to_nat (number_of_morph_steps cfg))) by lia. discriminate. }
  unfold select_frames. rewrite Eframes.
  (* frame list, encoder, clean-up *)
  destruct (assemble_reports cfg filename_root frame w5) as (w' & _ & E & _).
  now exists w'.
Qed.

Lemma steady_set_order_exact : set_order_exact Steady.collaborators.
Proof.
  intros xs. simpl. unfold Sample.first_seen. split.
  - apply NoDup_remove_dups.
  - intros x. apply elem_of_remove_dups.
Qed.

Ltac feature_tokens :=
  repeat (apply Forall_cons; split;
          [repeat split; try discriminate; try reflexivity;
           [repeat (apply Forall_cons; split; [reflexivity|]); apply List.Forall_nil
           |repeat (apply Forall_cons; split;
                    [first [left; reflexivity | right; reflexivity]|]);
            apply List.Forall_nil]|]);
  apply List.Forall_nil.

(** X19: for a scene that has a still of one shape for every combination
    of feature values in either colour, and no other file, the colour
    morphs are made without an exception; the scratch directory then holds
    a morph of that shape for every combination and every step, and
    nothing changes but the scratch directory. *)
Theorem colour_morphs_of_scene (ext : externals) (cfg : config)
    (jpg_dir : list (string * image)) (filename_root : string) (names : list (list string))
    (first second : string) (s : nat * nat) (these_file_names : list string) (p : plan)
    (w : world ext) :
  shape_preserving (jpeg ext) ->
  0 < number_of_morph_steps cfg ->
  names <> [] ->
  has_char "_" filename_root = false ->
  colour_token filename_root (concat names) first ->
  has_char "_" second = false ->
  Forall (fun v => has_char "_" v = false) (concat names) ->
  slow_change_options p = [first; second] ->
  (forall f, f ∈ these_file_names <-> f ∈ scene_names filename_root [first; second] names) ->
  Forall (fun f => exists img, lookup_file jpg_dir f = Some img /\ shape img = s)
    (scene_names filename_root [first; second] names) ->
  exists w',
    slow_change_morphs ext cfg jpg_dir these_file_names p w = (Val tt, w') /\
    morphs_stored cfg filename_root names s w' /\
    morph_dir w' = morph_dir w /\ readme_txt w' = readme_txt w /\ generator w' = generator w.
Proof.
  intros Hjpeg Hn Hfeat Hroot Hfirst Hsecond Hclean Hslow Hthese Hstills.
  destruct (slow_change_morphs_total ext cfg jpg_dir filename_root names first second s
              Hjpeg Hn Hfeat Hroot Hfirst Hsecond Hclean Hstills these_file_names p [] w Hslow)
    as (w' & E & Hst & Hm).
  - intros f Hf. now apply Hthese.
  - intros states Hs. apply Hthese, elem_of_scene_names. exists first, states.
    split; [left | now split].
  - exists w'. split; [exact E|]. split; [exact Hst|]. split; [exact Hm|].
    pose proof (slow_change_morphs_keeps cfg readme_txt (fun _ _ => eq_refl)
                  jpg_dir these_file_names p w) as Kr.
    pose proof (slow_change_morphs_keeps cfg generator (fun _ _ => eq_refl)
                  jpg_dir these_file_names p w) as Kg.
    unfold keeps in Kr, Kg. rewrite E in Kr, Kg. now split.
Qed.

Lemma colour_morphs_of_scene_witness :
  exists w',
    slow_change_morphs Steady.collaborators Sample.long_config Steady.one_feature_scene
      (map fst Steady.one_feature_scene) Steady.one_feature_plan (Steady.start [] []) = (Val tt, w') /\
    morphs_stored Sample.long_config "Img02" [["a"; "b"]] (1%nat, 1%nat) w' /\
    morph_dir w' = morph_dir (Steady.start [] []) /\
    readme_txt w' = readme_txt (Steady.start [] []) /\
    generator w' = generator (Steady.start [] []).
Proof.
  apply (colour_morphs_of_scene Steady.collaborators Sample.long_config
           Steady.one_feature_scene "Img02" [["a"; "b"]] "Yellow" "Orange" (1%nat, 1%nat)
           (map fst Steady.one_feature_scene) Steady.one_feature_plan (Steady.start [] [])).
  - intros a. reflexivity.
  - vm_compute. reflexivity.
  - discriminate.
  - reflexivity.
  - repeat split; try discriminate; try reflexivity.
    repeat (apply Forall_cons; split; [reflexivity|]). apply List.Forall_nil.
  - reflexivity.
  - repeat constructor.
  - reflexivity.
  - intros f.
    replace (scene_names "Img02" ["Yellow"; "Orange"] [["a"; "b"]])
      with (map fst Steady.one_feature_scene) by (vm_compute; reflexivity).
    reflexivity.
  - replace (scene_names "Img02" ["Yellow"; "Orange"] [["a"; "b"]])
      with ["Img02_Yellow_a.jpg"; "Img02_Yellow_b.jpg"; "Img02_Orange_a.jpg";
            "Img02_Orange_b.jpg"] by (vm_compute; reflexivity).
    repeat (apply Forall_cons; split; [eexists; split; reflexivity|]). apply List.Forall_nil.
Defined.

Lemma morphed_stored :
  morphs_stored Sample.long_config "Img02" [["a"; "b"]] (1%nat, 1%nat) Steady.morphed.
Proof.
  unfold morphs_stored. vm_compute.
  repeat (apply Forall_cons; split;
          [repeat (apply Forall_cons; split; [eexists; split; reflexivity|]);
           apply List.Forall_nil|]).
  apply List.Forall_nil.
Qed.

Lemma frames_of_stored_morphs_witness :
  exists frame w',
    select_frames Steady.collaborators Sample.long_config (1 # 5) "Img02" Steady.one_feature_plan
      [8] Steady.morphed = (Val (Some frame), w') /\
    Forall (fun k => is_Some (morph_dir w' !! frame_name "Img02" k))
      (py_range (number_of_morph_steps Sample.long_config + 1)).
Proof.
  apply (frames_of_stored_morphs Steady.collaborators Sample.long_config (1 # 5) "Img02"
           Steady.one_feature_plan [8] (1%nat, 1%nat) Steady.morphed).
  - intros a. reflexivity.
  - vm_compute. discriminate.
  - vm_compute. discriminate.
  - reflexivity.
  - repeat constructor.
  - apply NoDup_cons. split; [rewrite list_elem_of_singleton; discriminate|].
    apply NoDup_singleton.
  - unfold Sample.long_config, number_of_morph_steps, py_range. simpl. feature_tokens.
  - simpl. lia.
  - intros i j o o' Hij Hi Hj. destruct j as [|j]; [lia|]. discriminate.
  - exact morphed_stored.
Defined.

Lemma for_each_total_in {ext : externals} {X : Type} (xs : list X) (body : X -> M ext unit) :
  (forall x w, x ∈ xs -> exists w', body x w = (Val tt, w')) ->
  forall w, exists w', for_each xs body w = (Val tt, w').
Proof.
  induction xs as [|x xs IH]; intros Hbody w; simpl.
  - now exists w.
  - destruct (Hbody x w ltac:(left)) as [w' Hw']. rewrite (bind_val _ _ w w' tt Hw').
    apply IH. intros y w0 Hy. apply Hbody. now right.
Qed.

Lemma complete_scene_runs (ext : externals) (cfg : config) (step : Q)
    (jpg_dir : list (string * image)) (jpg_file_names : list string)
    (filename_root c0 c1 : string) (features : list (list string)) (s : nat * nat)
    (w : world ext) :
  well_configured ext cfg c0 c1 ->
  complete_scene cfg jpg_dir jpg_file_names filename_root c0 c1 features s ->
  exists w', process_scene ext cfg step jpg_dir jpg_file_names filename_root w = (Val tt, w').
Proof.
  intros (Hu & Hset & Hjpeg & Hcolor & Hn & Hw & Hf0 & Hf1)
         (Hfeat & Htwo & Hdup & Htok & Hroot & Hc0 & Hc1 & Hthese & Hstills & Hgap).
  now apply (complete_scene_returns ext cfg step jpg_dir jpg_file_names filename_root c0 c1
               features s w).
Qed.

(** X20: a complete scene is processed to the end: no exception, the
    scratch directory is empty afterwards, the README has grown, and the
    console has the line of the scene and the reply of the encoder. *)
Theorem complete_scene_succeeds (ext : externals) (cfg : config) (step : Q)
    (jpg_dir : list (string * image)) (jpg_file_names : list string)
    (filename_root c0 c1 : string) (features : list (list string)) (s : nat * nat)
    (w : world ext) :
  well_configured ext cfg c0 c1 ->
  complete_scene cfg jpg_dir jpg_file_names filename_root c0 c1 features s ->
  exists w',
    process_scene ext cfg step jpg_dir jpg_file_names filename_root w = (Val tt, w') /\
    temp_dir w' = ∅ /\
    (exists entry, readme_txt w' = readme_txt w +:+ entry) /\
    (exists reply,
        console w' = (console w ++ ["working on file " +:+ filename_root; reply])%list).
Proof.
  intros Hcfg Hscene.
  destruct (complete_scene_runs ext cfg step jpg_dir jpg_file_names filename_root c0 c1
              features s w Hcfg Hscene) as [w' E].
  exists w'. split; [exact E|].
  pose proof (synthesize_grows cfg step jpg_dir jpg_file_names filename_root w) as Gs.
  unfold process_scene, bind in E.
  destruct (synthesize ext cfg step jpg_dir jpg_file_names filename_root w)
    as [[frame|e] w1] eqn:Es; [|discriminate].
  assert (Kc : console w1 = (console w ++ ["working on file " +:+ filename_root])%list).
  { clear E Gs. unfold synthesize in Es. unfold bind at 1, print at 1 in Es.
    match type of Es with ?m ?w0 = _ =>
      assert (K : steps (keeps console) m); [|specialize (K w0); unfold keeps in K;
                                               rewrite Es in K; exact K] end.
    steps_structure.
    - apply make_plan_keeps. reflexivity.
    - apply write_readme_keeps. reflexivity.
    - apply slow_change_morphs_keeps. reflexivity.
    - apply draw_quick_change_frames_keeps. reflexivity.
    - apply select_frames_keeps; reflexivity. }
  destruct frame as [frame|].
  - destruct (assemble_reports cfg filename_root frame w1) as (w2 & frame_list & Ea & Hc).
    rewrite Ea in E. injection E as <-.
    pose proof (assemble_grows cfg filename_root (Some frame) w1) as Ga.
    rewrite Ea in Ga. simpl in Gs, Ga. split; [|split].
    + unfold assemble, bind in Ea.
      destruct (write_make_video ext cfg filename_root w1) as [[[]|] wa]; [|discriminate].
      destruct (encode ext cfg filename_root (Some frame) wa) as [[[]|] wb]; [|discriminate].
      unfold clean_up in Ea. now injection Ea as <-.
    + destruct Gs as [t Ht], Ga as [u Hu]. exists (t +:+ u).
      now rewrite Hu, Ht, str_app_assoc.
    + eexists. rewrite Hc, Kc, <- List.app_assoc. reflexivity.
  - exfalso. unfold assemble, bind in E.
    destruct (write_make_video ext cfg filename_root w1) as [[[]|] wa]; discriminate.
Qed.

(** X21: when every scene of the input directory is complete the script
    returns normally. *)
Theorem complete_batch_succeeds (ext : externals) (cfg : config)
    (jpg_dir : list (string * image)) (c0 c1 : string) (w : world ext) :
  well_configured ext cfg c0 c1 ->
  (forall filename_root,
      filename_root ∈ map root_of (filter (fun element => str_in ".jpg" element = true)
                                     (map fst jpg_dir)) ->
      exists features s,
        complete_scene cfg jpg_dir
          (filter (fun element => str_in ".jpg" element = true) (map fst jpg_dir))
          filename_root c0 c1 features s) ->
  exists w', main ext cfg jpg_dir w = (Val tt, w').
Proof.
  intros Hcfg Hscenes. unfold main.
  assert (Hstep : exists step, change_step cfg = Val step).
  { destruct Hcfg as (_ & _ & _ & _ & _ & Hw & _).
    unfold change_step, py_div.
    destruct (Qeq_bool (inject_Z (quick_change_length_frames cfg + 1)) 0) eqn:E;
      [|now eexists].
    apply Qeq_bool_iff in E. unfold Qeq in E. simpl in E. lia. }
  destruct Hstep as [step ->]. unfold bind at 1, lift at 1.
  apply for_each_total_in. intros filename_root w0 Hr.
  assert (Hset : set_order_exact ext) by apply Hcfg.
  pose proof (proj1 (proj2 (Hset _) filename_root) Hr) as Hr'.
  destruct (Hscenes filename_root Hr') as (features & s & Hscene).
  now apply (complete_scene_runs ext cfg step jpg_dir _ filename_root c0 c1 features s w0).
Qed.

Lemma steady_well_configured :
  well_configured Steady.collaborators Sample.long_config "Yellow" "Orange".
Proof.
  split; [exact steady_unit_draws|]. split; [exact steady_set_order_exact|].
  split; [intros a; reflexivity|]. split; [reflexivity|].
  repeat split; vm_compute; first [reflexivity | discriminate].
Qed.

Lemma one_feature_scene_complete :
  complete_scene Sample.long_config Steady.one_feature_scene
    (map fst Steady.one_feature_scene) "Img02" "Yellow" "Orange" [["a"; "b"]] (1%nat, 1%nat).
Proof.
  assert (Hnames : scene_names "Img02" ["Yellow"; "Orange"] [["a"; "b"]]
                   = ["Img02_Yellow_a.jpg"; "Img02_Yellow_b.jpg"; "Img02_Orange_a.jpg";
                      "Img02_Orange_b.jpg"]) by (vm_compute; reflexivity).
  split; [discriminate|]. split; [repeat constructor|]. split.
  { apply NoDup_cons. split; [rewrite list_elem_of_singleton; discriminate|].
    apply NoDup_singleton. }
  split.
  { unfold Sample.long_config, number_of_morph_steps, py_range. simpl. feature_tokens. }
  split; [reflexivity|]. split.
  { repeat split; try discriminate; try reflexivity.
    repeat (apply Forall_cons; split; [reflexivity|]). apply List.Forall_nil. }
  split.
  { repeat split; try discriminate; try reflexivity.
    repeat (apply Forall_cons; split; [reflexivity|]). apply List.Forall_nil. }
  rewrite Hnames. split; [|split].
  - intros f.
    replace (these_file_names_of (map fst Steady.one_feature_scene) "Img02")
      with ["Img02_Yellow_a.jpg"; "Img02_Yellow_b.jpg"; "Img02_Orange_a.jpg";
            "Img02_Orange_b.jpg"] by (vm_compute; reflexivity).
    reflexivity.
  - repeat (apply Forall_cons; split; [eexists; split; reflexivity|]). apply List.Forall_nil.
  - vm_compute. discriminate.
Qed.

Lemma complete_scene_succeeds_witness :
  exists w',
    process_scene Steady.collaborators Sample.long_config (1 # 5) Steady.one_feature_scene
      (map fst Steady.one_feature_scene) "Img02" (Steady.start [] []) = (Val tt, w') /\
    temp_dir w' = ∅ /\
    (exists entry, readme_txt w' = readme_txt (Steady.start [] []) +:+ entry) /\
    (exists reply,
        console w'
        = (console (Steady.start [] []) ++ ["working on file " +:+ "Img02"; reply])%list).
Proof.
  exact (complete_scene_succeeds Steady.collaborators Sample.long_config (1 # 5)
           Steady.one_feature_scene (map fst Steady.one_feature_scene)
           "Img02" "Yellow" "Orange" [["a"; "b"]] (1%nat, 1%nat) (Steady.start [] [])
           steady_well_configured one_feature_scene_complete).
Defined.

Lemma complete_batch_succeeds_witness :
  exists w',
    main Steady.collaborators Sample.long_config Steady.one_feature_scene (Steady.start [] [])
    = (Val tt, w').
Proof.
  apply (complete_batch_succeeds Steady.collaborators Sample.long_config
           Steady.one_feature_scene "Yellow" "Orange" (Steady.start [] [])
           steady_well_configured).
  intros filename_root Hr. exists [["a"; "b"]], (1%nat, 1%nat).
  replace (map root_of (filter (fun element => str_in ".jpg" element = true)
                          (map fst Steady.one_feature_scene)))
    with ["Img02"; "Img02"; "Img02"; "Img02"] in Hr by (vm_compute; reflexivity).
  assert (E : filename_root = "Img02").
  { repeat (apply elem_of_cons in Hr as [Hr|Hr]; [exact Hr|]). now apply elem_of_nil in Hr. }
  rewrite E. exact one_feature_scene_complete.
Defined.
